(** * loadshed: a shallow embedding of the admission-control engine

    The Go package [loadshed] decides, per invocation, whether a unit of
    work runs or is rejected.  This development embeds the decision engine
    ([Shedder]), the capacities that feed it, the curves and the
    classification plumbing, and states the properties the specification
    documents about them.

    Conventions of the embedding:
    - [float32]/[float64] are IEEE-754 binary32/binary64 values, carried by
      the Standard Library's [spec_float] with the rounding written out
      ([prec = 24, emax = 128] and [prec = 53, emax = 1024]);
    - Go interface values are records of their methods; a method that may
      read or mutate shared state is a function [World -> A * World];
    - a struct behind a pointer receiver is passed and returned explicitly;
    - [context.Context] is reduced to what the package reads from it: the
      classification slot, plus an opaque remainder;
    - the calls a Shedder makes on its collaborators are recorded in a call
      log, so that their order and number can be stated.

    Part I holds the definitions, Part II the theorems. *)

From Stdlib Require Import ZArith List String Bool Lia SpecFloat.
From stdpp Require Import gmap strings.
Import ListNotations.
Local Open Scope Z_scope.

(* ===================================================================== *)
(** * Part I: the embedding *)
(* ===================================================================== *)

(** ** IEEE-754 arithmetic as Go uses it *)

Module Float.

Definition float32 := spec_float.
Definition float64 := spec_float.

Definition prec32 : Z := 24.
Definition emax32 : Z := 128.
Definition prec64 : Z := 53.
Definition emax64 : Z := 1024.

(** Integer to floating point conversion, [float64(n)] and [float32(n)]:
    round to nearest even. *)
Definition f64_of_int (n : Z) : float64 := binary_normalize prec64 emax64 n 0 false.
Definition f32_of_int (n : Z) : float32 := binary_normalize prec32 emax32 n 0 false.

(** [float32(x)] for [x : float64] rounds; [float64(x)] for [x : float32]
    is exact and only re-normalises the mantissa. *)
Definition f32_of_f64 (x : float64) : float32 :=
  match x with
  | S754_finite s m e => binary_round prec32 emax32 s m e
  | _ => x
  end.

Definition f64_of_f32 (x : float32) : float64 :=
  match x with
  | S754_finite s m e => binary_round prec64 emax64 s m e
  | _ => x
  end.

Definition f32_zero : float32 := S754_zero false.
Definition f32_one : float32 := Eval cbv in f32_of_int 1.
Definition f64_zero : float64 := S754_zero false.

Definition f32_sub : float32 -> float32 -> float32 := SFsub prec32 emax32.
Definition f32_div : float32 -> float32 -> float32 := SFdiv prec32 emax32.
Definition f64_add : float64 -> float64 -> float64 := SFadd prec64 emax64.
Definition f64_div : float64 -> float64 -> float64 := SFdiv prec64 emax64.

(** Go's [<], [>], [<=], [>=], [==], [!=] and [math.IsNaN]. *)
Definition flt (x y : spec_float) : bool := SFltb x y.
Definition fgt (x y : spec_float) : bool := SFltb y x.
Definition fle (x y : spec_float) : bool := SFleb x y.
Definition fge (x y : spec_float) : bool := SFleb y x.
Definition feq (x y : spec_float) : bool := SFeqb x y.
Definition fne (x y : spec_float) : bool := negb (SFeqb x y).

Definition IsNaN (x : spec_float) : bool :=
  match x with S754_nan => true | _ => false end.

(** A zero of either sign: the values for which Go's [x == 0] holds. *)
Definition is_zero (x : spec_float) : bool :=
  match x with S754_zero _ => true | _ => false end.

(** A number other than zero: finite and non-zero, or infinite. *)
Definition is_nonzero (x : spec_float) : bool :=
  match x with S754_finite _ _ _ | S754_infinity _ => true | _ => false end.

(** A number other than zero that carries the sign [s] and whose
    exponent is not below the smallest one of the format. *)
Definition signed (prec emax : Z) (s : bool) (x : spec_float) : Prop :=
  match x with
  | S754_finite s' _ e => s' = s /\ emin prec emax <= e
  | S754_infinity s' => s' = s
  | _ => False
  end.

(** The binary32 values of the Go constants [.5] and [.2]
    (bit patterns 0x3F000000 and 0x3E4CCCCD). *)
Definition f32_half : float32 := S754_finite false 8388608 (-24).
Definition f32_fifth : float32 := S754_finite false 13421773 (-26).

End Float.
Import Float.

(** ** Classification and its propagation through the context *)

(** [type Classification string] *)
Definition Classification := string.

(** [Values] is everything a [context.Context] carries besides the
    classification (deadlines, cancellation, other keys).  The slot under
    the private key [classCtxKey] is [None] until [ClassificationToContext]
    fills it; no code outside the package can write it. *)
Record Context (Values : Type) := mkContext {
  ctx_class : option Classification;
  ctx_values : Values
}.
Arguments mkContext {Values}.
Arguments ctx_class {Values}.
Arguments ctx_values {Values}.

Definition ClassificationFromContext {Values} (ctx : Context Values) : Classification :=
  match ctx_class ctx with
  | None => EmptyString
  | Some v => v
  end.

Definition ClassificationToContext {Values} (ctx : Context Values) (class : Classification)
  : Context Values :=
  {| ctx_class := Some class; ctx_values := ctx_values ctx |}.

(** [context.Background()], possibly extended with values of other keys. *)
Definition Background {Values} (v : Values) : Context Values :=
  {| ctx_class := None; ctx_values := v |}.

(** ** The rejection error and the outcome of an action *)

Record ErrRejection := mkErrRejection {
  rej_Rule : string;
  rej_Classification : Classification;
  rej_Name : string;
  rej_Usage : float32;
  rej_Likelihood : float32;
  rej_Rate : float32
}.

(** [const RuleProbabilistic string = "PROBABILISTIC"] *)
Definition RuleProbabilistic : string := "PROBABILISTIC".

(** A non-nil Go [error]: the package's own [ErrRejection], or any error
    of the action.  [nil] is [None] of [option error]. *)
Inductive error :=
| Err_Rejection (r : ErrRejection)
| Err_Other (msg : string).

(** How a call of an [Fn] ends: it returns an error (or nil), or it
    panics with a value. *)
Inductive Outcome :=
| Returned (e : option error)
| Panicked (v : string).

(** [type Fn func(context.Context) error] *)
Definition Fn (Values World : Type) := Context Values -> World -> Outcome * World.

(** ** The interfaces *)

Section Interfaces.

Context {Values World : Type}.

(** A method with receiver state in the world. *)
Definition Method (A : Type) := Context Values -> World -> A * World.

(** [type Wrapper interface { Wrap(Fn) Fn }].  [Wrap] returns "a wrapped
    copy of the passed in function": it builds a function and has no
    effect of its own, as every [Wrap] of the package; what the wrapped
    function does when called is part of that function. *)
Definition Wrapper := Fn Values World -> Fn Values World.

(** [type Capacity interface { Name; Usage }].  [Capacity_Wrapper] is the
    result of the type assertion [v.(Wrapper)] on the value behind the
    interface: [Some] of its [Wrap] method when it has one. *)
Record Capacity := mkCapacity {
  Capacity_Name : Method string;
  Capacity_Usage : Method float32;
  Capacity_Wrapper : option Wrapper
}.

(** [type FailureProbability interface { Capacity; Likelihood }] *)
Record FailureProbability := mkFailureProbability {
  FP_Capacity :> Capacity;
  FP_Likelihood : Method float32
}.

(** [type RejectionRate interface { FailureProbability; Rate }] *)
Record RejectionRate := mkRejectionRate {
  RR_FailureProbability :> FailureProbability;
  RR_Rate : Method float32
}.

(** [type Rule interface { Name; Reject }] *)
Record Rule := mkRule {
  Rule_Name : Method string;
  Rule_Reject : Method bool
}.

(** [type Classifier interface { Classify }] and the adapter
    [ClassifierFN]. *)
Record Classifier := mkClassifier {
  Classify : Method Classification
}.

Definition ClassifierFN := Method Classification.
Definition ClassifierFN_Classify (self : ClassifierFN) : Method Classification :=
  fun ctx => self ctx.
Definition ClassifierFN_as_Classifier (self : ClassifierFN) : Classifier :=
  {| Classify := ClassifierFN_Classify self |}.

(** [type Curve interface { Curve(ctx, value float32) float32 }]: a
    scalar-to-scalar mapping. *)
Definition Curve := Context Values -> float32 -> float32.

End Interfaces.
Arguments Capacity : clear implicits.
Arguments FailureProbability : clear implicits.
Arguments RejectionRate : clear implicits.
Arguments Rule : clear implicits.
Arguments Classifier : clear implicits.
Arguments ClassifierFN : clear implicits.
Arguments Curve : clear implicits.
Arguments Method : clear implicits.
Arguments Wrapper : clear implicits.

(** ** Curves (curve_fn.go, curve_linear.go) *)

Section Curves.

Context {Values : Type}.

(** [type CurveFN func(ctx, value float32) float32] and its method. *)
Definition CurveFN := Context Values -> float32 -> float32.
Definition CurveFN_Curve (self : CurveFN) : Curve Values :=
  fun ctx value => self ctx value.

(** [math.Pow] belongs to the Go runtime; the curve only passes values
    through it. *)
Variable math_Pow : float64 -> float64 -> float64.

Record CurveLinear := mkCurveLinear {
  Upper : float32;
  Lower : float32;
  Exponent : float32
}.

(** [((value - self.Lower) / (self.Upper - self.Lower))] *)
Definition CurveLinear_line (self : CurveLinear) (value : float32) : float32 :=
  f32_div (f32_sub value (Lower self)) (f32_sub (Upper self) (Lower self)).

Definition CurveLinear_Curve (self : CurveLinear) : Curve Values := fun ctx value =>
  if flt value (Lower self) then f32_zero
  else if fgt value (Upper self) then f32_one
  else
    let line := CurveLinear_line self value in
    if fne (Exponent self) f32_one
    then f32_of_f64 (math_Pow (f64_of_f32 line) (f64_of_f32 (Exponent self)))
    else line.

End Curves.
Arguments CurveFN : clear implicits.

(** ** The windowed metric store (package rolling/v3)

    The rolling window is an external collaborator that the capacities
    use through [Append] and [Reduce] only. *)

Module rolling.

(** Modelled from the spec: [rolling.TimePolicy], the windowed metric
    store of the external package rolling/v3, whose source is not part of
    the repository: a rolling time window of a number of buckets of a
    fixed width.  The model keeps every sample appended, oldest first,
    with the instant (in nanoseconds) at which it was appended; which of
    them are still inside the window is decided when the window is
    reduced. *)
Record TimePolicy (T : Type) := mkTimePolicy {
  window_buckets : Z;
  window_bucketSizeHint : Z;
  window_bucketDuration : Z;
  entries : list (Z * T)
}.
Arguments mkTimePolicy {T}.
Arguments window_buckets {T}.
Arguments window_bucketSizeHint {T}.
Arguments window_bucketDuration {T}.
Arguments entries {T}.

(** The samples appended and the instants of their appends. *)
Definition samples {T} (w : TimePolicy T) : list T := map snd (entries w).
Definition stamps {T} (w : TimePolicy T) : list Z := map fst (entries w).

(** Modelled from the spec: [rolling.Reduction], missing with the
    package; a reduction aggregates all samples currently inside the
    window into one value. *)
Definition Reduction (T : Type) := list T -> T.

(** Modelled from the spec: the constructors of the missing package;
    [NewTimePolicyConcurrent(NewPreallocatedWindow(buckets, hint),
    bucketDuration)] is a window without samples.  The constructors accept
    any configuration; a window of 0 buckets or of bucket width 0 fails
    when it is first used, see [Append] and [Reduce]. *)
Definition NewTimePolicyConcurrent {T} (buckets hint bucketDuration : Z) : TimePolicy T :=
  {| window_buckets := buckets; window_bucketSizeHint := hint;
     window_bucketDuration := bucketDuration; entries := [] |}.

(** Modelled from the spec: the window is time-bucketed.  The bucket of
    an instant is found by an integer division by the bucket width and a
    remainder by the number of buckets: with either at 0 every [Append]
    and every [Reduce] panics with an integer division by zero. *)
Definition divides_by_zero {T} (w : TimePolicy T) : bool :=
  (window_buckets w =? 0) || (window_bucketDuration w =? 0).

Definition divide_error : string := "runtime error: integer divide by zero".

(** A window as the spec describes it: a positive number of buckets of a
    positive width, with a size hint that is not negative.  The statements
    about a window are about such a one, or about one that divides by
    zero; other configurations (a negative number, width or hint) are not
    modelled. *)
Definition well_formed {T} (w : TimePolicy T) : bool :=
  (0 <? window_buckets w) && (0 <? window_bucketDuration w)
  && (0 <=? window_bucketSizeHint w).

Definition proper {T} (w : TimePolicy T) : Prop := well_formed w = true.

(** The window with one more sample, appended at the instant [now]. *)
Definition add {T} (now : Z) (v : T) (w : TimePolicy T) : TimePolicy T :=
  {| window_buckets := window_buckets w;
     window_bucketSizeHint := window_bucketSizeHint w;
     window_bucketDuration := window_bucketDuration w;
     entries := entries w ++ [(now, v)] |}.

(** Modelled from the spec: [TimePolicy.Append] of the missing package
    adds one sample to the window, at the instant the clock shows; [None]
    stands for the panic. *)
Definition Append {T} (now : Z) (v : T) (w : TimePolicy T) : option (TimePolicy T) :=
  if divides_by_zero w then None else Some (add now v w).

(** Modelled from the spec: samples age out as the window slides.
    Whether the sample appended at the instant [stamp] has aged out, at
    the instant [now], of a window of [buckets] buckets of width [width]
    is decided by the missing package: [aged buckets width now stamp]. *)
Definition Ageing := Z -> Z -> Z -> Z -> bool.

(** The samples inside the window at the instant [now], oldest first. *)
Definition inside {T} (aged : Ageing) (now : Z) (w : TimePolicy T) : list T :=
  map snd
    (List.filter
       (fun e => negb (aged (window_buckets w) (window_bucketDuration w) now (fst e)))
       (entries w)).

(** Modelled from the spec: [TimePolicy.Reduce] of the missing package
    applies the reduction to the samples inside the window at the instant
    the clock shows; [None] stands for the panic. *)
Definition Reduce {T} (aged : Ageing) (r : Reduction T) (now : Z) (w : TimePolicy T)
  : option T :=
  if divides_by_zero w then None else Some (r (inside aged now w)).

(** Modelled from the spec: [rolling.Count] of the missing package is
    the number of samples. *)
Definition Count : Reduction Z := fun w => Z.of_nat (length w).

End rolling.

(** ** Time (package time) *)

(** An instant, in nanoseconds since the zero [time.Time]; a
    [time.Duration] is an int64 count of nanoseconds. *)
Definition Time := Z.
Definition Duration := Z.

Definition Millisecond : Duration := 1000000.
Definition Second : Duration := 1000000000.
Definition maxDuration : Duration := 2 ^ 63 - 1.
Definition minDuration : Duration := - 2 ^ 63.

(** [t.Sub(u)]: the difference, saturated to the range of a Duration. *)
Definition Time_Sub (t u : Time) : Duration :=
  Z.max minDuration (Z.min maxDuration (t - u)).

(** [d.Seconds()]: [float64(d / Second) + float64(d % Second) / 1e9],
    with Go's truncated division. *)
Definition Duration_Seconds (d : Duration) : float64 :=
  let sec := Z.quot d Second in
  let nsec := Z.rem d Second in
  f64_add (f64_of_int sec) (f64_div (f64_of_int nsec) (f64_of_int 1000000000)).

(** Two's complement wrap-around of an [int32], as [atomic.Int32.Add]
    performs it. *)
Definition wrap32 (n : Z) : Z := (n + 2 ^ 31) mod 2 ^ 32 - 2 ^ 31.

(** ** Capacities *)

Section Capacities.

Context {Values World : Type}.

(** [rolling.MinimumPoints] and [rolling.Avg] are used as opaque
    reductions, and the ageing of samples is that of the rolling package;
    [time.Now] reads the clock of the world. *)
Variable rolling_MinimumPoints : Z -> rolling.Reduction Z -> rolling.Reduction Z.
Variable rolling_Avg : rolling.Reduction Duration.
Variable rolling_aged : rolling.Ageing.
Variable time_Now : World -> Time.

(** [time.Since(t)] is [time.Now().Sub(t)]. *)
Definition time_Since (t : Time) (w : World) : Duration := Time_Sub (time_Now w) t.

(** A capacity that lives behind a pointer is a cell of the world next to
    everything else: an action wrapped by the capacity runs on the pair. *)
Definition Heap (Cell : Type) : Type := Cell * World.

(** *** CapacityConcurrency (capacity_concurrency.go) *)

Record CapacityConcurrency := mkCapacityConcurrency {
  cc_name : string;
  cc_limit : Z;
  cc_current : Z
}.

Definition defaultNameConcurrency : string := "CONCURRENCY".

Definition OptionConcurrency := CapacityConcurrency -> CapacityConcurrency.

Definition OptionConcurrencyName (name : string) : OptionConcurrency := fun cc =>
  {| cc_name := name; cc_limit := cc_limit cc; cc_current := cc_current cc |}.

Definition NewCapacityConcurrency (limit : Z) (options : list OptionConcurrency)
  : CapacityConcurrency :=
  fold_left (fun c opt => opt c) options
    {| cc_name := defaultNameConcurrency; cc_limit := limit; cc_current := 0 |}.

Definition CapacityConcurrency_Name (self : CapacityConcurrency) : string := cc_name self.

Definition CapacityConcurrency_Add (count : Z) (self : CapacityConcurrency) : CapacityConcurrency :=
  {| cc_name := cc_name self; cc_limit := cc_limit self;
     cc_current := wrap32 (cc_current self + count) |}.

Definition CapacityConcurrency_Done (count : Z) (self : CapacityConcurrency) : CapacityConcurrency :=
  {| cc_name := cc_name self; cc_limit := cc_limit self;
     cc_current := wrap32 (cc_current self + wrap32 (- count)) |}.

(** [float32(float64(self.current.Load()) / float64(self.limit))] *)
Definition CapacityConcurrency_Usage (self : CapacityConcurrency) : float32 :=
  f32_of_f64 (f64_div (f64_of_int (cc_current self)) (f64_of_int (cc_limit self))).

(** [self.Add(1); defer self.Done(1); e = fn(ctx); return e] *)
Definition CapacityConcurrency_Wrap (fn : Fn Values (Heap CapacityConcurrency))
  : Fn Values (Heap CapacityConcurrency) := fun ctx h =>
  let '(self, w) := h in
  let '(o, (self', w')) := fn ctx (CapacityConcurrency_Add 1 self, w) in
  (o, (CapacityConcurrency_Done 1 self', w')).

(** *** CapacityErrorRate *)

Record CapacityErrorRate := mkCapacityErrorRate {
  cer_name : string;
  cer_invocations : rolling.TimePolicy Z;
  cer_errors : rolling.TimePolicy Z;
  cer_buckets : Z;
  cer_bucketDuration : Duration;
  cer_bucketSizeHint : Z;
  cer_minimumPoints : Z;
  cer_attemptReducer : rolling.Reduction Z;
  cer_errReducer : rolling.Reduction Z
}.

Definition defaultNameErrorRate : string := "ERROR RATE".

(** The options assign one configuration field each. *)
Definition OptionErrorRate := CapacityErrorRate -> CapacityErrorRate.

Definition OptionErrorRateWindowBuckets (count : Z) : OptionErrorRate := fun cer =>
  {| cer_name := cer_name cer; cer_invocations := cer_invocations cer;
     cer_errors := cer_errors cer; cer_buckets := count;
     cer_bucketDuration := cer_bucketDuration cer;
     cer_bucketSizeHint := cer_bucketSizeHint cer;
     cer_minimumPoints := cer_minimumPoints cer;
     cer_attemptReducer := cer_attemptReducer cer; cer_errReducer := cer_errReducer cer |}.

Definition OptionErrorRateBucketDuration (d : Duration) : OptionErrorRate := fun cer =>
  {| cer_name := cer_name cer; cer_invocations := cer_invocations cer;
     cer_errors := cer_errors cer; cer_buckets := cer_buckets cer;
     cer_bucketDuration := d;
     cer_bucketSizeHint := cer_bucketSizeHint cer;
     cer_minimumPoints := cer_minimumPoints cer;
     cer_attemptReducer := cer_attemptReducer cer; cer_errReducer := cer_errReducer cer |}.

Definition OptionErrorRateBucketSizeHint (size : Z) : OptionErrorRate := fun cer =>
  {| cer_name := cer_name cer; cer_invocations := cer_invocations cer;
     cer_errors := cer_errors cer; cer_buckets := cer_buckets cer;
     cer_bucketDuration := cer_bucketDuration cer;
     cer_bucketSizeHint := size;
     cer_minimumPoints := cer_minimumPoints cer;
     cer_attemptReducer := cer_attemptReducer cer; cer_errReducer := cer_errReducer cer |}.

Definition OptionErrorRateMinimumPoints (min : Z) : OptionErrorRate := fun cer =>
  {| cer_name := cer_name cer; cer_invocations := cer_invocations cer;
     cer_errors := cer_errors cer; cer_buckets := cer_buckets cer;
     cer_bucketDuration := cer_bucketDuration cer;
     cer_bucketSizeHint := cer_bucketSizeHint cer;
     cer_minimumPoints := min;
     cer_attemptReducer := cer_attemptReducer cer; cer_errReducer := cer_errReducer cer |}.

Definition OptionErrorRateName (name : string) : OptionErrorRate := fun cer =>
  {| cer_name := name; cer_invocations := cer_invocations cer;
     cer_errors := cer_errors cer; cer_buckets := cer_buckets cer;
     cer_bucketDuration := cer_bucketDuration cer;
     cer_bucketSizeHint := cer_bucketSizeHint cer;
     cer_minimumPoints := cer_minimumPoints cer;
     cer_attemptReducer := cer_attemptReducer cer; cer_errReducer := cer_errReducer cer |}.

(** The struct literal leaves the windows and reducers at their zero
    value; they are assigned after the options have run. *)
Definition NewCapacityErrorRate (options : list OptionErrorRate) : CapacityErrorRate :=
  let c := fold_left (fun c opt => opt c) options
    {| cer_name := defaultNameErrorRate;
       cer_invocations := rolling.NewTimePolicyConcurrent 0 0 0;
       cer_errors := rolling.NewTimePolicyConcurrent 0 0 0;
       cer_buckets := 100;
       cer_bucketDuration := 10 * Millisecond;
       cer_bucketSizeHint := 0;
       cer_minimumPoints := 0;
       cer_attemptReducer := rolling.Count;
       cer_errReducer := rolling.Count |} in
  {| cer_name := cer_name c;
     cer_invocations :=
       rolling.NewTimePolicyConcurrent (cer_buckets c) (cer_bucketSizeHint c) (cer_bucketDuration c);
     cer_errors :=
       rolling.NewTimePolicyConcurrent (cer_buckets c) (cer_bucketSizeHint c) (cer_bucketDuration c);
     cer_buckets := cer_buckets c;
     cer_bucketDuration := cer_bucketDuration c;
     cer_bucketSizeHint := cer_bucketSizeHint c;
     cer_minimumPoints := cer_minimumPoints c;
     cer_attemptReducer :=
       if 0 <? cer_minimumPoints c
       then rolling_MinimumPoints (cer_minimumPoints c) rolling.Count
       else rolling.Count;
     cer_errReducer := rolling.Count |}.

Definition CapacityErrorRate_Name (self : CapacityErrorRate) : string := cer_name self.

(** Both windows are reduced at the instant of the call; [None] stands
    for the panic of a window that divides by zero. *)
Definition CapacityErrorRate_Usage (self : CapacityErrorRate) (w : World) : option float32 :=
  match rolling.Reduce rolling_aged (cer_attemptReducer self) (time_Now w)
          (cer_invocations self) with
  | None => None
  | Some attempts =>
      if attempts =? 0 then Some f32_zero
      else
        match rolling.Reduce rolling_aged (cer_errReducer self) (time_Now w)
                (cer_errors self) with
        | None => None
        | Some errors =>
            let value := f64_div (f64_of_int errors) (f64_of_int attempts) in
            let value := if IsNaN value then f64_zero else value in
            Some (f32_of_f64 value)
        end
  end.

Definition cer_with_invocations (invocations : rolling.TimePolicy Z)
    (self : CapacityErrorRate) : CapacityErrorRate :=
  {| cer_name := cer_name self; cer_invocations := invocations;
     cer_errors := cer_errors self; cer_buckets := cer_buckets self;
     cer_bucketDuration := cer_bucketDuration self;
     cer_bucketSizeHint := cer_bucketSizeHint self;
     cer_minimumPoints := cer_minimumPoints self;
     cer_attemptReducer := cer_attemptReducer self; cer_errReducer := cer_errReducer self |}.

Definition cer_with_errors (errors : rolling.TimePolicy Z)
    (self : CapacityErrorRate) : CapacityErrorRate :=
  {| cer_name := cer_name self; cer_invocations := cer_invocations self;
     cer_errors := errors; cer_buckets := cer_buckets self;
     cer_bucketDuration := cer_bucketDuration self;
     cer_bucketSizeHint := cer_bucketSizeHint self;
     cer_minimumPoints := cer_minimumPoints self;
     cer_attemptReducer := cer_attemptReducer self; cer_errReducer := cer_errReducer self |}.

(** The capacity with one more attempt, and with one more error,
    recorded at the instant [now]. *)
Definition cer_append_invocation (now : Time) (self : CapacityErrorRate) : CapacityErrorRate :=
  cer_with_invocations (rolling.add now 1 (cer_invocations self)) self.

Definition cer_append_error (now : Time) (self : CapacityErrorRate) : CapacityErrorRate :=
  cer_with_errors (rolling.add now 1 (cer_errors self)) self.

(** The body of [Wrap]'s closure.  The locals [e] and [didPanic] start as
    [nil] and [true]; they are assigned only when [fn] returns.  The
    deferred function then runs on every exit, and a panic of [fn]
    resumes after it; a panic of an [Append] in the deferred function is
    the panic the call ends with. *)
Definition CapacityErrorRate_Wrap (fn : Fn Values (Heap CapacityErrorRate))
  : Fn Values (Heap CapacityErrorRate) := fun ctx h =>
  let e0 : option error := None in
  let didPanic0 := true in
  let '(o, (self, w)) := fn ctx h in
  let '(e, didPanic) :=
    match o with
    | Returned r => (r, false)
    | Panicked _ => (e0, didPanic0)
    end in
  let o :=
    match o with
    | Returned _ => Returned e
    | Panicked v => Panicked v
    end in
  match rolling.Append (time_Now w) 1 (cer_invocations self) with
  | None => (Panicked rolling.divide_error, (self, w))
  | Some invocations =>
      let self := cer_with_invocations invocations self in
      if (match e with Some _ => true | None => false end) || didPanic
      then
        match rolling.Append (time_Now w) 1 (cer_errors self) with
        | None => (Panicked rolling.divide_error, (self, w))
        | Some errors => (o, (cer_with_errors errors self, w))
        end
      else (o, (self, w))
  end.

(** *** CapacityLandingRate (capacity_landingrate.go) *)

Record CapacityLandingRate := mkCapacityLandingRate {
  clr_name : string;
  clr_invocations : rolling.TimePolicy Z;
  clr_limit : Z;
  clr_buckets : Z;
  clr_bucketDuration : Duration;
  clr_bucketSizeHint : Z
}.

Definition defaultNameLandingRate : string := "LANDING RATE".

Definition OptionLandingRate := CapacityLandingRate -> CapacityLandingRate.

Definition OptionLandingRateWindowBuckets (count : Z) : OptionLandingRate := fun clr =>
  {| clr_name := clr_name clr; clr_invocations := clr_invocations clr;
     clr_limit := clr_limit clr; clr_buckets := count;
     clr_bucketDuration := clr_bucketDuration clr;
     clr_bucketSizeHint := clr_bucketSizeHint clr |}.

Definition OptionLandingRateBucketDuration (d : Duration) : OptionLandingRate := fun clr =>
  {| clr_name := clr_name clr; clr_invocations := clr_invocations clr;
     clr_limit := clr_limit clr; clr_buckets := clr_buckets clr;
     clr_bucketDuration := d;
     clr_bucketSizeHint := clr_bucketSizeHint clr |}.

Definition OptionLandingRateBucketSizeHint (size : Z) : OptionLandingRate := fun clr =>
  {| clr_name := clr_name clr; clr_invocations := clr_invocations clr;
     clr_limit := clr_limit clr; clr_buckets := clr_buckets clr;
     clr_bucketDuration := clr_bucketDuration clr;
     clr_bucketSizeHint := size |}.

Definition OptionLandingrateName (name : string) : OptionLandingRate := fun clr =>
  {| clr_name := name; clr_invocations := clr_invocations clr;
     clr_limit := clr_limit clr; clr_buckets := clr_buckets clr;
     clr_bucketDuration := clr_bucketDuration clr;
     clr_bucketSizeHint := clr_bucketSizeHint clr |}.

Definition NewCapacityLandingRate (limit : Z) (options : list OptionLandingRate)
  : CapacityLandingRate :=
  let c := fold_left (fun c opt => opt c) options
    {| clr_name := defaultNameLandingRate;
       clr_invocations := rolling.NewTimePolicyConcurrent 0 0 0;
       clr_limit := limit;
       clr_buckets := 100;
       clr_bucketDuration := 10 * Millisecond;
       clr_bucketSizeHint := 0 |} in
  {| clr_name := clr_name c;
     clr_invocations :=
       rolling.NewTimePolicyConcurrent (clr_buckets c) (clr_bucketSizeHint c) (clr_bucketDuration c);
     clr_limit := clr_limit c;
     clr_buckets := clr_buckets c;
     clr_bucketDuration := clr_bucketDuration c;
     clr_bucketSizeHint := clr_bucketSizeHint c |}.

Definition CapacityLandingRate_Name (self : CapacityLandingRate) : string := clr_name self.

Definition CapacityLandingRate_Usage (self : CapacityLandingRate) (w : World)
  : option float32 :=
  match rolling.Reduce rolling_aged rolling.Count (time_Now w) (clr_invocations self) with
  | None => None
  | Some total =>
      Some (f32_of_f64 (f64_div (f64_of_int total) (f64_of_int (clr_limit self))))
  end.

Definition clr_with_invocations (invocations : rolling.TimePolicy Z)
    (self : CapacityLandingRate) : CapacityLandingRate :=
  {| clr_name := clr_name self;
     clr_invocations := invocations;
     clr_limit := clr_limit self; clr_buckets := clr_buckets self;
     clr_bucketDuration := clr_bucketDuration self;
     clr_bucketSizeHint := clr_bucketSizeHint self |}.

(** [self.invocations.Append(ctx, 1); return fn(ctx)]: a panic of the
    [Append] leaves [fn] uncalled. *)
Definition CapacityLandingRate_Wrap (fn : Fn Values (Heap CapacityLandingRate))
  : Fn Values (Heap CapacityLandingRate) := fun ctx h =>
  let '(self, w) := h in
  match rolling.Append (time_Now w) 1 (clr_invocations self) with
  | None => (Panicked rolling.divide_error, (self, w))
  | Some invocations => fn ctx (clr_with_invocations invocations self, w)
  end.

(** *** CapacityLatency *)

Definition LatencyReduction := rolling.Reduction Duration.

Record CapacityLatency := mkCapacityLatency {
  cl_name : string;
  cl_window : rolling.TimePolicy Duration;
  cl_limit : Duration;
  cl_buckets : Z;
  cl_bucketDuration : Duration;
  cl_bucketSizeHint : Z;
  cl_minimumPoints : Z;
  cl_reduction : LatencyReduction;
  cl_measurePanics : bool
}.

Definition defaultNameLatency : string := "LATENCY".

Definition OptionLatency := CapacityLatency -> CapacityLatency.

Definition OptionLatencyReduction (r : LatencyReduction) : OptionLatency := fun cl =>
  {| cl_name := cl_name cl; cl_window := cl_window cl; cl_limit := cl_limit cl;
     cl_buckets := cl_buckets cl; cl_bucketDuration := cl_bucketDuration cl;
     cl_bucketSizeHint := cl_bucketSizeHint cl; cl_minimumPoints := cl_minimumPoints cl;
     cl_reduction := r; cl_measurePanics := cl_measurePanics cl |}.

Definition OptionLatencyMeasurePanics (v : bool) : OptionLatency := fun cl =>
  {| cl_name := cl_name cl; cl_window := cl_window cl; cl_limit := cl_limit cl;
     cl_buckets := cl_buckets cl; cl_bucketDuration := cl_bucketDuration cl;
     cl_bucketSizeHint := cl_bucketSizeHint cl; cl_minimumPoints := cl_minimumPoints cl;
     cl_reduction := cl_reduction cl; cl_measurePanics := v |}.

Definition OptionLatencyWindowBuckets (count : Z) : OptionLatency := fun cl =>
  {| cl_name := cl_name cl; cl_window := cl_window cl; cl_limit := cl_limit cl;
     cl_buckets := count; cl_bucketDuration := cl_bucketDuration cl;
     cl_bucketSizeHint := cl_bucketSizeHint cl; cl_minimumPoints := cl_minimumPoints cl;
     cl_reduction := cl_reduction cl; cl_measurePanics := cl_measurePanics cl |}.

Definition OptionLatencyBucketDuration (d : Duration) : OptionLatency := fun cl =>
  {| cl_name := cl_name cl; cl_window := cl_window cl; cl_limit := cl_limit cl;
     cl_buckets := cl_buckets cl; cl_bucketDuration := d;
     cl_bucketSizeHint := cl_bucketSizeHint cl; cl_minimumPoints := cl_minimumPoints cl;
     cl_reduction := cl_reduction cl; cl_measurePanics := cl_measurePanics cl |}.

Definition OptionLatencyBucketSizeHint (size : Z) : OptionLatency := fun cl =>
  {| cl_name := cl_name cl; cl_window := cl_window cl; cl_limit := cl_limit cl;
     cl_buckets := cl_buckets cl; cl_bucketDuration := cl_bucketDuration cl;
     cl_bucketSizeHint := size; cl_minimumPoints := cl_minimumPoints cl;
     cl_reduction := cl_reduction cl; cl_measurePanics := cl_measurePanics cl |}.

Definition OptionLatencyMinimumPoints (min : Z) : OptionLatency := fun cl =>
  {| cl_name := cl_name cl; cl_window := cl_window cl; cl_limit := cl_limit cl;
     cl_buckets := cl_buckets cl; cl_bucketDuration := cl_bucketDuration cl;
     cl_bucketSizeHint := cl_bucketSizeHint cl; cl_minimumPoints := min;
     cl_reduction := cl_reduction cl; cl_measurePanics := cl_measurePanics cl |}.

Definition OptionLatencyName (name : string) : OptionLatency := fun cl =>
  {| cl_name := name; cl_window := cl_window cl; cl_limit := cl_limit cl;
     cl_buckets := cl_buckets cl; cl_bucketDuration := cl_bucketDuration cl;
     cl_bucketSizeHint := cl_bucketSizeHint cl; cl_minimumPoints := cl_minimumPoints cl;
     cl_reduction := cl_reduction cl; cl_measurePanics := cl_measurePanics cl |}.

Definition NewCapacityLatency (limit : Duration) (options : list OptionLatency)
  : CapacityLatency :=
  let c := fold_left (fun c option => option c) options
    {| cl_name := defaultNameLatency;
       cl_window := rolling.NewTimePolicyConcurrent 0 0 0;
       cl_limit := limit;
       cl_buckets := 100;
       cl_bucketDuration := 10 * Millisecond;
       cl_bucketSizeHint := 0;
       cl_minimumPoints := 0;
       cl_reduction := rolling_Avg;
       cl_measurePanics := false |} in
  {| cl_name := cl_name c;
     cl_window :=
       rolling.NewTimePolicyConcurrent (cl_buckets c) (cl_bucketSizeHint c) (cl_bucketDuration c);
     cl_limit := cl_limit c;
     cl_buckets := cl_buckets c;
     cl_bucketDuration := cl_bucketDuration c;
     cl_bucketSizeHint := cl_bucketSizeHint c;
     cl_minimumPoints := cl_minimumPoints c;
     cl_reduction := cl_reduction c;
     cl_measurePanics := cl_measurePanics c |}.

Definition CapacityLatency_Name (self : CapacityLatency) : string := cl_name self.

Definition cl_with_window (window : rolling.TimePolicy Duration)
    (self : CapacityLatency) : CapacityLatency :=
  {| cl_name := cl_name self; cl_window := window;
     cl_limit := cl_limit self;
     cl_buckets := cl_buckets self; cl_bucketDuration := cl_bucketDuration self;
     cl_bucketSizeHint := cl_bucketSizeHint self; cl_minimumPoints := cl_minimumPoints self;
     cl_reduction := cl_reduction self; cl_measurePanics := cl_measurePanics self |}.

(** [self.window.Append(ctx, v)]; [None] stands for the panic. *)
Definition CapacityLatency_Append (v : Duration) (self : CapacityLatency) (w : World)
  : option CapacityLatency :=
  match rolling.Append (time_Now w) v (cl_window self) with
  | None => None
  | Some window => Some (cl_with_window window self)
  end.

(** [float32(value.Seconds() / self.limit.Seconds())] *)
Definition CapacityLatency_Usage (self : CapacityLatency) (w : World) : option float32 :=
  match rolling.Reduce rolling_aged (cl_reduction self) (time_Now w) (cl_window self) with
  | None => None
  | Some value =>
      Some (f32_of_f64 (f64_div (Duration_Seconds value) (Duration_Seconds (cl_limit self))))
  end.

(** With [measurePanics] set when the call starts the measurement is
    deferred and runs on every exit; the measurement after [fn] runs on a
    normal return when [measurePanics] is not set.  A panic of an
    [Append] is the panic the call ends with. *)
Definition CapacityLatency_Wrap (fn : Fn Values (Heap CapacityLatency))
  : Fn Values (Heap CapacityLatency) := fun ctx h =>
  let start := time_Now (snd h) in
  let deferred := cl_measurePanics (fst h) in
  let '(o, (self, w)) := fn ctx h in
  let '(o, self) :=
    match o with
    | Returned _ =>
        if negb (cl_measurePanics self)
        then
          match CapacityLatency_Append (time_Since start w) self w with
          | None => (Panicked rolling.divide_error, self)
          | Some self' => (o, self')
          end
        else (o, self)
    | Panicked _ => (o, self)
    end in
  if deferred
  then
    match CapacityLatency_Append (time_Since start w) self w with
    | None => (Panicked rolling.divide_error, (self, w))
    | Some self' => (o, (self', w))
    end
  else (o, (self, w)).

(** *** CapacityThrottle *)

(** The mutex serialises calls of [Usage]; a sequential call is one
    critical section.  The struct is passed and returned explicitly. *)
Record CapacityThrottle := mkCapacityThrottle {
  thr_Capacity : Capacity Values World;
  thr_duration : Duration;
  thr_last : Time;
  thr_cache : float32;
  thr_now : World -> Time;
  thr_since : Time -> World -> Duration
}.

(** [last] and [cache] start at their zero values. *)
Definition NewCapacityThrottle (wrapped : Capacity Values World) (duration : Duration)
  : CapacityThrottle :=
  {| thr_Capacity := wrapped;
     thr_duration := duration;
     thr_last := 0;
     thr_cache := f32_zero;
     thr_now := time_Now;
     thr_since := time_Since |}.

Definition CapacityThrottle_Usage (self : CapacityThrottle) (ctx : Context Values) (w : World)
  : float32 * CapacityThrottle * World :=
  if thr_duration self <=? thr_since self (thr_last self) w then
    let '(u, w) := Capacity_Usage (thr_Capacity self) ctx w in
    let self :=
      {| thr_Capacity := thr_Capacity self; thr_duration := thr_duration self;
         thr_last := thr_last self; thr_cache := u;
         thr_now := thr_now self; thr_since := thr_since self |} in
    let self :=
      {| thr_Capacity := thr_Capacity self; thr_duration := thr_duration self;
         thr_last := time_Now w; thr_cache := thr_cache self;
         thr_now := thr_now self; thr_since := thr_since self |} in
    (thr_cache self, self, w)
  else (thr_cache self, self, w).

Definition CapacityThrottle_Wrap (self : CapacityThrottle) : Wrapper Values World := fun fn =>
  match Capacity_Wrapper (thr_Capacity self) with
  | Some wrap => wrap fn
  | None => fn
  end.

End Capacities.
Arguments CapacityThrottle : clear implicits.
Arguments Heap : clear implicits.

(** ** Failure probability and rejection rate composers *)

Section Composers.

Context {Values World : Type}.

Record FailureProbabilityCurve := mkFailureProbabilityCurve {
  FPC_Capacity : Capacity Values World;
  FPC_Curve : Curve Values
}.

Definition NewFailureProbabilityCurveLinear math_Pow (cap : Capacity Values World)
    (lower upper exponent : float32) : FailureProbabilityCurve :=
  {| FPC_Capacity := cap;
     FPC_Curve := CurveLinear_Curve math_Pow
       {| Upper := upper; Lower := lower; Exponent := exponent |} |}.

Definition NewFailureProbabilityCurveIdentity (cap : Capacity Values World)
  : FailureProbabilityCurve :=
  {| FPC_Capacity := cap;
     FPC_Curve := CurveFN_Curve (fun ctx value => value) |}.

Definition FailureProbabilityCurve_Likelihood (self : FailureProbabilityCurve)
  : Method Values World float32 := fun ctx w =>
  let '(current, w) := Capacity_Usage (FPC_Capacity self) ctx w in
  (FPC_Curve self ctx current, w).

Definition FailureProbabilityCurve_Wrap (self : FailureProbabilityCurve)
  : Wrapper Values World := fun fn =>
  match Capacity_Wrapper (FPC_Capacity self) with
  | Some w => w fn
  | None => fn
  end.

(** [*FailureProbabilityCurve] behind the [FailureProbability] interface:
    [Name] and [Usage] are promoted from the embedded capacity. *)
Definition FailureProbabilityCurve_as_FailureProbability (self : FailureProbabilityCurve)
  : FailureProbability Values World :=
  {| FP_Capacity :=
       {| Capacity_Name := Capacity_Name (FPC_Capacity self);
          Capacity_Usage := Capacity_Usage (FPC_Capacity self);
          Capacity_Wrapper := Some (FailureProbabilityCurve_Wrap self) |};
     FP_Likelihood := FailureProbabilityCurve_Likelihood self |}.

(** A [nil] curve stored in the map is treated by [Rate] like a missing
    key, so the map holds the non-nil curves only. *)
Record RejectionRateCurve := mkRejectionRateCurve {
  RRC_FailureProbability : FailureProbability Values World;
  defaultCurve : Curve Values;
  classificationCurves : gmap Classification (Curve Values)
}.

Definition NewRejectionRateCurveLinear math_Pow (probability : FailureProbability Values World)
    (lower upper exponent : float32) : RejectionRateCurve :=
  {| RRC_FailureProbability := probability;
     defaultCurve := CurveLinear_Curve math_Pow
       {| Upper := upper; Lower := lower; Exponent := exponent |};
     classificationCurves := ∅ |}.

Definition NewRejectionRateCurveIdentity (probability : FailureProbability Values World)
  : RejectionRateCurve :=
  {| RRC_FailureProbability := probability;
     defaultCurve := CurveFN_Curve (fun ctx value => value);
     classificationCurves := ∅ |}.

Definition NewRejectionRateCurveByClassification (probability : FailureProbability Values World)
    (defaultCurve : Curve Values) (classes : gmap Classification (Curve Values))
  : RejectionRateCurve :=
  {| RRC_FailureProbability := probability;
     defaultCurve := defaultCurve;
     classificationCurves := classes |}.

Definition RejectionRateCurve_Rate (self : RejectionRateCurve)
  : Method Values World float32 := fun ctx w =>
  let curve :=
    match classificationCurves self !! ClassificationFromContext ctx with
    | Some curve => curve
    | None => defaultCurve self
    end in
  let '(current, w) := FP_Likelihood (RRC_FailureProbability self) ctx w in
  (curve ctx current, w).

Definition RejectionRateCurve_Wrap (self : RejectionRateCurve) : Wrapper Values World := fun fn =>
  match Capacity_Wrapper (RRC_FailureProbability self) with
  | Some w => w fn
  | None => fn
  end.

(** [*RejectionRateCurve] behind the [RejectionRate] interface. *)
Definition RejectionRateCurve_as_RejectionRate (self : RejectionRateCurve)
  : RejectionRate Values World :=
  {| RR_FailureProbability :=
       {| FP_Capacity :=
            {| Capacity_Name := Capacity_Name (RRC_FailureProbability self);
               Capacity_Usage := Capacity_Usage (RRC_FailureProbability self);
               Capacity_Wrapper := Some (RejectionRateCurve_Wrap self) |};
          FP_Likelihood := FP_Likelihood (RRC_FailureProbability self) |};
     RR_Rate := RejectionRateCurve_Rate self |}.

End Composers.
Arguments FailureProbabilityCurve : clear implicits.
Arguments RejectionRateCurve : clear implicits.

(** ** The Shedder *)

Section Shedder.

Context {Values World : Type}.

(** *** The call log

    One entry per call the Shedder makes: which collaborator (by its
    position in registration order), the context it was handed and what it
    answered. *)
Inductive Event :=
| EvClassify (ctx : Context Values) (c : Classification)
| EvReject (i : nat) (ctx : Context Values) (b : bool)
| EvRuleName (i : nat) (ctx : Context Values) (n : string)
| EvRate (j : nat) (ctx : Context Values) (v : float32)
| EvRand (d : float32)
| EvName (j : nat) (ctx : Context Values) (n : string)
| EvUsage (j : nat) (ctx : Context Values) (v : float32)
| EvLikelihood (j : nat) (ctx : Context Values) (v : float32)
| EvWrap (j : nat)
| EvInvoke (ctx : Context Values) (o : Outcome).

Record State := mkState {
  world : World;
  calls : list Event
}.

(** Computations that act on the world and extend the log. *)
Definition Eff (A : Type) := State -> A * State.

Definition ret {A} (a : A) : Eff A := fun s => (a, s).

Definition bind {A B} (m : Eff A) (k : A -> Eff B) : Eff B :=
  fun s => let '(a, s') := m s in k a s'.

(** A call of a collaborator: run it on the world, log the answer. *)
Definition call {A} (ev : A -> Event) (m : World -> A * World) : Eff A :=
  fun s =>
    let '(a, w) := m (world s) in
    (a, {| world := w; calls := calls s ++ [ev a] |}).

(** An entry for a step that does not touch the world. *)
Definition note (ev : Event) : Eff unit :=
  fun s => (tt, {| world := world s; calls := calls s ++ [ev] |}).

End Shedder.
Arguments Event : clear implicits.
Arguments State : clear implicits.
Arguments Eff : clear implicits.

Notation "x <- m ;; k" := (bind m (fun x => k))
  (at level 100, m at next level, right associativity).

Section ShedderOps.

Context {Values World : Type}.

Record Shedder := mkShedder {
  randFloat : World -> float32 * World;
  rejectionRates : list (RejectionRate Values World);
  rules : list (Rule Values World);
  classifier : option (Classifier Values World)
}.

Definition OptionShedder := Shedder -> Shedder.

Definition OptionShedderRejectionRate (r : RejectionRate Values World) : OptionShedder :=
  fun s =>
    {| randFloat := randFloat s; rejectionRates := rejectionRates s ++ [r];
       rules := rules s; classifier := classifier s |}.

Definition OptionShedderRule (r : Rule Values World) : OptionShedder :=
  fun s =>
    {| randFloat := randFloat s; rejectionRates := rejectionRates s;
       rules := rules s ++ [r]; classifier := classifier s |}.

Definition OptionShedderClassifier (c : Classifier Values World) : OptionShedder :=
  fun s =>
    {| randFloat := randFloat s; rejectionRates := rejectionRates s;
       rules := rules s; classifier := Some c |}.

Definition OptionShedderRandom (r : World -> float32 * World) : OptionShedder :=
  fun s =>
    {| randFloat := r; rejectionRates := rejectionRates s;
       rules := rules s; classifier := classifier s |}.

(** [rand.Float32], the default random source. *)
Variable rand_Float32 : World -> float32 * World.

Definition NewShedder (options : list OptionShedder) : Shedder :=
  fold_left (fun s opt => opt s) options
    {| randFloat := rand_Float32; rejectionRates := []; rules := []; classifier := None |}.

(** *** Select *)

(** The first loop of [Select], from the rule at position [i] on. *)
Fixpoint select_rules (ctx : Context Values) (i : nat) (rs : list (Rule Values World))
  : Eff Values World (option ErrRejection) :=
  match rs with
  | [] => ret None
  | r :: rs' =>
      reject <- call (EvReject i ctx) (Rule_Reject r ctx) ;;
      if reject then
        name <- call (EvRuleName i ctx) (Rule_Name r ctx) ;;
        ret (Some {| rej_Rule := name;
                     rej_Classification := ClassificationFromContext ctx;
                     rej_Name := EmptyString;
                     rej_Usage := f32_zero;
                     rej_Likelihood := f32_zero;
                     rej_Rate := f32_zero |})
      else select_rules ctx (S i) rs'
  end.

(** The second loop of [Select], from the rate at position [j] on. *)
Fixpoint select_rates (rand : World -> float32 * World) (ctx : Context Values) (j : nat)
    (rs : list (RejectionRate Values World)) : Eff Values World (option ErrRejection) :=
  match rs with
  | [] => ret None
  | r :: rs' =>
      rate <- call (EvRate j ctx) (RR_Rate r ctx) ;;
      diceRoll <- call EvRand rand ;;
      if flt diceRoll rate then
        name <- call (EvName j ctx) (Capacity_Name r ctx) ;;
        usage <- call (EvUsage j ctx) (Capacity_Usage r ctx) ;;
        likelihood <- call (EvLikelihood j ctx) (FP_Likelihood r ctx) ;;
        ret (Some {| rej_Rule := RuleProbabilistic;
                     rej_Classification := ClassificationFromContext ctx;
                     rej_Name := name;
                     rej_Usage := usage;
                     rej_Likelihood := likelihood;
                     rej_Rate := rate |})
      else select_rates rand ctx (S j) rs'
  end.

Definition Select (self : Shedder) (ctx : Context Values)
  : Eff Values World (option ErrRejection) :=
  r <- select_rules ctx 0 (rules self) ;;
  match r with
  | Some e => ret (Some e)
  | None => select_rates (randFloat self) ctx 0 (rejectionRates self)
  end.

(** *** Do and WrapSelect *)

(** [if self.classifier != nil { ctx = ClassificationToContext(ctx,
    self.classifier.Classify(ctx)) }] *)
Definition classify (self : Shedder) (ctx : Context Values)
  : Eff Values World (Context Values) :=
  match classifier self with
  | Some c =>
      class <- call (EvClassify ctx) (Classify c ctx) ;;
      ret (ClassificationToContext ctx class)
  | None => ret ctx
  end.

(** [for _, rate := range self.rejectionRates { if w, ok :=
    rate.(Wrapper); ok { fn = w.Wrap(fn) } }], from position [j] on. *)
Fixpoint wrap_rates (j : nat) (rs : list (RejectionRate Values World)) (fn : Fn Values World)
  : Eff Values World (Fn Values World) :=
  match rs with
  | [] => ret fn
  | rate :: rs' =>
      match Capacity_Wrapper rate with
      | Some w =>
          _ <- note (EvWrap j) ;;
          wrap_rates (S j) rs' (w fn)
      | None => wrap_rates (S j) rs' fn
      end
  end.

Definition rejected (e : ErrRejection) : Outcome := Returned (Some (Err_Rejection e)).

Definition Do (self : Shedder) (ctx : Context Values) (fn : Fn Values World)
  : Eff Values World Outcome :=
  ctx <- classify self ctx ;;
  err <- Select self ctx ;;
  match err with
  | Some e => ret (rejected e)
  | None =>
      fn <- wrap_rates 0 (rejectionRates self) fn ;;
      call (EvInvoke ctx) (fn ctx)
  end.

(** The wrapping runs when [WrapSelect] is called; the closure it
    returns is the second component. *)
Definition WrapSelect (self : Shedder) (fn : Fn Values World)
  : Eff Values World (Context Values -> Eff Values World Outcome) :=
  fn <- wrap_rates 0 (rejectionRates self) fn ;;
  ret (fun ctx =>
    ctx <- classify self ctx ;;
    err <- Select self ctx ;;
    match err with
    | Some e => ret (rejected e)
    | None => call (EvInvoke ctx) (fn ctx)
    end).

(** *** Reading the log *)

Definition is_wrap (e : Event Values) : bool :=
  match e with EvWrap _ => true | _ => false end.

Definition is_invoke (e : Event Values) : bool :=
  match e with EvInvoke _ _ => true | _ => false end.

Definition is_classify (e : Event Values) : bool :=
  match e with EvClassify _ _ => true | _ => false end.



(** How many entries of a log satisfy [p]. *)
Definition count (p : Event Values -> bool) (log : list (Event Values)) : nat :=
  length (List.filter p log).

(** The context a logged call was handed, when it takes one. *)
Definition event_ctx (e : Event Values) : option (Context Values) :=
  match e with
  | EvClassify ctx _ | EvReject _ ctx _ | EvRuleName _ ctx _ | EvRate _ ctx _
  | EvName _ ctx _ | EvUsage _ ctx _ | EvLikelihood _ ctx _ | EvInvoke ctx _ => Some ctx
  | EvRand _ | EvWrap _ => None
  end.

(** The log of [k] rules, from position [i] on, that all decline. *)
Definition rules_pass (ctx : Context Values) (i k : nat) : list (Event Values) :=
  map (fun n => EvReject n ctx false) (seq i k).

(** The log of rates, from position [j] on, none of which rejects:
    for each its rate and the one draw compared with it. *)
Fixpoint rates_pass (ctx : Context Values) (j : nat) (rds : list (float32 * float32))
  : list (Event Values) :=
  match rds with
  | [] => []
  | (rate, draw) :: rds' => EvRate j ctx rate :: EvRand draw :: rates_pass ctx (S j) rds'
  end.

(** The positions of the rates that have a [Wrap] method. *)
Fixpoint wrap_events (j : nat) (rs : list (RejectionRate Values World)) : list (Event Values) :=
  match rs with
  | [] => []
  | rate :: rs' =>
      match Capacity_Wrapper rate with
      | Some _ => EvWrap j :: wrap_events (S j) rs'
      | None => wrap_events (S j) rs'
      end
  end.

(** All wrappers of the rates applied in registration order, the first
    one innermost. *)
Definition wrapped (rs : list (RejectionRate Values World)) (fn : Fn Values World)
  : Fn Values World :=
  fold_left
    (fun fn (rate : RejectionRate Values World) =>
       match Capacity_Wrapper rate with Some w => w fn | None => fn end)
    rs fn.

(** An entry [Select] may write when it runs on [ctx]: a call of a rule
    or of a rate on that same context, or a draw. *)
Definition select_event (ctx : Context Values) (e : Event Values) : Prop :=
  match e with
  | EvReject _ c _ | EvRuleName _ c _ | EvRate _ c _
  | EvName _ c _ | EvUsage _ c _ | EvLikelihood _ c _ => c = ctx
  | EvRand _ => True
  | EvClassify _ _ | EvWrap _ | EvInvoke _ _ => False
  end.

(** An entry that hands a context to a collaborator hands [ctx]. *)
Definition hands (ctx : Context Values) (e : Event Values) : Prop :=
  forall c, event_ctx e = Some c -> c = ctx.


End ShedderOps.
Arguments Shedder : clear implicits.
Arguments OptionShedder : clear implicits.

(** ** Test doubles

    The doubles the package's tests use ([staticRule],
    [staticCountingRate], [capCounter], a fixed random source), over a
    small world that holds what they count and a clock. *)

Module Fixtures.

Record TestWorld := mkTestWorld {
  tw_count : Z;
  tw_calls : Z;
  tw_usage : float32;
  tw_clock : Time;
  tw_seen : list Classification
}.

(** Modelled from the spec: the ageing of the missing rolling package, as
    the sliding window of the spec has it.  A sample falls into the
    bucket of its instant, and has aged out once [buckets] buckets have
    begun since. *)
Definition slidingWindow : rolling.Ageing := fun buckets width now stamp =>
  buckets <=? now / width - stamp / width.

(** A world in which nothing has happened yet; the clock reads an
    instant of the year 2024, about 6.4e19 ns after the zero time. *)
Definition world0 : TestWorld :=
  {| tw_count := 0; tw_calls := 0; tw_usage := f32_zero;
     tw_clock := 63840000000000000000; tw_seen := [] |}.

Definition state0 : State unit TestWorld := {| world := world0; calls := [] |}.

Definition nameStatic : string := "static".

(** [type staticRule struct { reject bool }] *)
Definition staticRule (reject : bool) : Rule unit TestWorld :=
  {| Rule_Name := fun _ w => (nameStatic, w);
     Rule_Reject := fun _ w => (reject, w) |}.

(** [type staticCountingRate struct { value float32; count int64 }]; its
    [Wrap] counts the invocations of the wrapped function. *)
Definition staticCountingRate (value : float32) : RejectionRate unit TestWorld :=
  {| RR_FailureProbability :=
       {| FP_Capacity :=
            {| Capacity_Name := fun _ w => (nameStatic, w);
               Capacity_Usage := fun _ w => (value, w);
               Capacity_Wrapper := Some (fun fn ctx w =>
                 fn ctx {| tw_count := tw_count w + 1; tw_calls := tw_calls w;
                           tw_usage := tw_usage w; tw_clock := tw_clock w;
                           tw_seen := tw_seen w |}) |};
          FP_Likelihood := fun _ w => (value, w) |};
     RR_Rate := fun _ w => (value, w) |}.

(** [type capCounter struct { calls int }], made to report the usage the
    world currently holds and to take [latency] on the clock. *)
Definition capCounter (latency : Duration) : Capacity unit TestWorld :=
  {| Capacity_Name := fun _ w => ("counter"%string, w);
     Capacity_Usage := fun _ w =>
       (tw_usage w,
        {| tw_count := tw_count w; tw_calls := tw_calls w + 1;
           tw_usage := tw_usage w; tw_clock := tw_clock w + latency;
           tw_seen := tw_seen w |});
     Capacity_Wrapper := None |}.

(** The world some time later, with another true usage. *)
Definition later (elapsed : Duration) (usage : float32) (w : TestWorld) : TestWorld :=
  {| tw_count := tw_count w; tw_calls := tw_calls w;
     tw_usage := usage; tw_clock := tw_clock w + elapsed;
     tw_seen := tw_seen w |}.

(** A classifier that answers ["TEST"], as in the tests. *)
Definition testClassifier : Classifier unit TestWorld :=
  ClassifierFN_as_Classifier (fun _ w => ("TEST"%string, w)).

(** A random source that always answers 0. *)
Definition zeroRandom : TestWorld -> float32 * TestWorld := fun w => (f32_zero, w).

(** An action that succeeds, and one that records the classification it
    finds in its context. *)
Definition fnNil : Fn unit TestWorld := fun _ w => (Returned None, w).

Definition fnObserve : Fn unit TestWorld := fun ctx w =>
  (Returned None,
   {| tw_count := tw_count w; tw_calls := tw_calls w;
      tw_usage := tw_usage w; tw_clock := tw_clock w;
      tw_seen := tw_seen w ++ [ClassificationFromContext ctx] |}).

(** An action over the heap of an error-rate capacity that fails. *)
Definition fnFail {Cell : Type} : Fn unit (Cell * TestWorld) :=
  fun _ h => (Returned (Some (Err_Other "TEST")), h).

Definition background : Context unit := Background tt.

(** The shedders of the tests. *)
Definition shedRule : Shedder unit TestWorld :=
  NewShedder zeroRandom
    [OptionShedderRule (staticRule true); OptionShedderClassifier testClassifier].

Definition shedRates : Shedder unit TestWorld :=
  NewShedder zeroRandom
    [OptionShedderRejectionRate (staticCountingRate f32_zero);
     OptionShedderRejectionRate (staticCountingRate f32_one)].

Definition shedClassified : Shedder unit TestWorld :=
  NewShedder zeroRandom
    [OptionShedderRejectionRate (staticCountingRate f32_zero);
     OptionShedderClassifier testClassifier].

Definition shedUnclassified : Shedder unit TestWorld :=
  NewShedder zeroRandom [OptionShedderRejectionRate (staticCountingRate f32_zero)].

(** A throttle of 2ms over a capacity that takes 1ms to answer. *)
Definition throttle : CapacityThrottle unit TestWorld :=
  NewCapacityThrottle tw_clock (capCounter Millisecond) (2 * Millisecond).

End Fixtures.

(** ** Further parts of the package *)

(** *** CapacityWaitGroup (with CapacityConcurrency) *)

(** The counter of a [sync.WaitGroup] is an int32; [Add] panics when the
    counter it computes is negative.  [None] stands for that panic. *)
Definition WaitGroup_Add (delta : Z) (counter : Z) : option Z :=
  let v := wrap32 (counter + delta) in
  if v <? 0 then None else Some v.

Record CapacityWaitGroup := mkCapacityWaitGroup {
  cwg_CapacityConcurrency : CapacityConcurrency;
  cwg_wg : Z
}.

Definition NewCapacityWaitGroup (limit : Z) (options : list OptionConcurrency)
  : CapacityWaitGroup :=
  {| cwg_CapacityConcurrency := NewCapacityConcurrency limit options; cwg_wg := 0 |}.

(** [self.wg.Add(delta); self.CapacityConcurrency.Add(int32(delta))]: a
    panic of the first call leaves the second undone. *)
Definition CapacityWaitGroup_Add (delta : Z) (self : CapacityWaitGroup)
  : option CapacityWaitGroup :=
  match WaitGroup_Add delta (cwg_wg self) with
  | None => None
  | Some v =>
      Some {| cwg_CapacityConcurrency :=
                CapacityConcurrency_Add (wrap32 delta) (cwg_CapacityConcurrency self);
              cwg_wg := v |}
  end.

(** [self.wg.Done(); self.CapacityConcurrency.Done(1)], where
    [wg.Done()] is [wg.Add(-1)]. *)
Definition CapacityWaitGroup_Done (self : CapacityWaitGroup) : option CapacityWaitGroup :=
  match WaitGroup_Add (-1) (cwg_wg self) with
  | None => None
  | Some v =>
      Some {| cwg_CapacityConcurrency :=
                CapacityConcurrency_Done 1 (cwg_CapacityConcurrency self);
              cwg_wg := v |}
  end.

(** *** The options of CapacityLatency *)

(** An option built by one of the seven option constructors of the
    package. *)
Definition is_latency_option (opt : OptionLatency) : Prop :=
  (exists r, opt = OptionLatencyReduction r) \/
  (exists v, opt = OptionLatencyMeasurePanics v) \/
  (exists count, opt = OptionLatencyWindowBuckets count) \/
  (exists d, opt = OptionLatencyBucketDuration d) \/
  (exists size, opt = OptionLatencyBucketSizeHint size) \/
  (exists min, opt = OptionLatencyMinimumPoints min) \/
  (exists name, opt = OptionLatencyName name).

(** Two latency capacities that differ in the field [minimumPoints] at
    most. *)
Definition differ_in_minimumPoints_only (a b : CapacityLatency) : Prop :=
  cl_name a = cl_name b /\ cl_window a = cl_window b /\ cl_limit a = cl_limit b /\
  cl_buckets a = cl_buckets b /\ cl_bucketDuration a = cl_bucketDuration b /\
  cl_bucketSizeHint a = cl_bucketSizeHint b /\ cl_reduction a = cl_reduction b /\
  cl_measurePanics a = cl_measurePanics b.

(** *** Sequences of invocations *)

(** The landing-rate capacity once an invocation that started at the
    instant [now] has been counted. *)
Definition clr_started (now : Time) (c : CapacityLandingRate) : CapacityLandingRate :=
  clr_with_invocations (rolling.add now 1 (clr_invocations c)) c.

Section Runs.

Context {Values World Cell : Type}.

(** A function wrapped by a capacity is invoked for each action of a
    list in turn, on the heap the previous invocation left; an invocation
    that panics has unwound its own caller only. *)
Fixpoint invoke_each
    (wrap : Fn Values (Cell * World) -> Fn Values (Cell * World))
    (fns : list (Fn Values (Cell * World))) (ctx : Context Values) (h : Cell * World)
  : list Outcome * (Cell * World) :=
  match fns with
  | [] => ([], h)
  | fn :: rest =>
      let '(o, h1) := wrap fn ctx h in
      let '(os, h2) := invoke_each wrap rest ctx h1 in
      (o :: os, h2)
  end.

(** The action does not touch the capacity cell itself. *)
Definition leaves_cell (fn : Fn Values (Cell * World)) : Prop :=
  forall ctx cell w, fst (snd (fn ctx (cell, w))) = cell.

End Runs.

(** An invocation failed when it returned a non-nil error or panicked. *)
Definition failed (o : Outcome) : bool :=
  match o with
  | Returned None => false
  | Returned (Some _) | Panicked _ => true
  end.

(** *** The net/http adapters (stdlib/net/http) *)

Module http.

(** The rejection details travel in the request context under two
    private keys, one per adapter. *)
Record HTTPValues (V : Type) := mkHTTPValues {
  hv_handler : option ErrRejection;
  hv_transport : option ErrRejection;
  hv_rest : V
}.
Arguments mkHTTPValues {V}.
Arguments hv_handler {V}.
Arguments hv_transport {V}.
Arguments hv_rest {V}.

(** [loadshed.ErrRejection{}] *)
Definition zeroErrRejection : ErrRejection :=
  {| rej_Rule := EmptyString; rej_Classification := EmptyString; rej_Name := EmptyString;
     rej_Usage := f32_zero; rej_Likelihood := f32_zero; rej_Rate := f32_zero |}.

Definition NewHandlerContext {V} (ctx : Context (HTTPValues V)) (val : ErrRejection)
  : Context (HTTPValues V) :=
  {| ctx_class := ctx_class ctx;
     ctx_values := {| hv_handler := Some val;
                      hv_transport := hv_transport (ctx_values ctx);
                      hv_rest := hv_rest (ctx_values ctx) |} |}.

Definition FromHandlerContext {V} (ctx : Context (HTTPValues V)) : ErrRejection :=
  match hv_handler (ctx_values ctx) with
  | Some v => v
  | None => zeroErrRejection
  end.

Definition NewTransportContext {V} (ctx : Context (HTTPValues V)) (val : ErrRejection)
  : Context (HTTPValues V) :=
  {| ctx_class := ctx_class ctx;
     ctx_values := {| hv_handler := hv_handler (ctx_values ctx);
                      hv_transport := Some val;
                      hv_rest := hv_rest (ctx_values ctx) |} |}.

Definition FromTransportContext {V} (ctx : Context (HTTPValues V)) : ErrRejection :=
  match hv_transport (ctx_values ctx) with
  | Some v => v
  | None => zeroErrRejection
  end.

Section Transport.

Context {Request Body World : Type}.

(** What the adapter reads of an [*http.Response]. *)
Record Response := mkResponse {
  StatusCode : Z;
  resp_body : Body
}.

(** An error a round trip may return: the adapter's private
    [*errStatusCode], or any other error. *)
Inductive http_error :=
| errStatusCode (errCode : Z)
| http_error_other (msg : string).

(** How [RoundTrip] ends: with a response (or nil) and an error (or
    nil), or with a panic. *)
Inductive RoundTripOutcome :=
| RoundTripped (resp : option Response) (er : option http_error)
| RoundTripPanicked.

(** [type http.RoundTripper interface { RoundTrip }] *)
Definition RoundTripper := Request -> World -> RoundTripOutcome * World.

Record errCodeTransport := mkErrCodeTransport {
  ect_wrapped : RoundTripper;
  ect_errorCodes : gmap Z bool
}.

(** Reading a missing key of a [map[int]bool] gives [false];
    [resp.StatusCode] on a nil response panics. *)
Definition errCodeTransport_RoundTrip (c : errCodeTransport) : RoundTripper := fun r w =>
  let '(o, w) := ect_wrapped c r w in
  match o with
  | RoundTripPanicked => (RoundTripPanicked, w)
  | RoundTripped resp (Some er) => (RoundTripped resp (Some er), w)
  | RoundTripped None None => (RoundTripPanicked, w)
  | RoundTripped (Some resp) None =>
      if default false (ect_errorCodes c !! StatusCode resp)
      then (RoundTripped (Some resp) (Some (errStatusCode (StatusCode resp))), w)
      else (RoundTripped (Some resp) None, w)
  end.

(** [TransportMiddleware]; [Load] stands for its [*loadshed.Shedder]. *)
Record TransportMiddleware (Load : Type) := mkTransportMiddleware {
  tm_wrapped : RoundTripper;
  tm_callback : option RoundTripper;
  tm_load : Load
}.
Arguments mkTransportMiddleware {Load}.
Arguments tm_wrapped {Load}.
Arguments tm_callback {Load}.
Arguments tm_load {Load}.

Definition TransportOption (Load : Type) := TransportMiddleware Load -> TransportMiddleware Load.

Definition TransportOptionErrorCodes {Load} (errorCodes : list Z) : TransportOption Load :=
  fun t =>
    let nt :=
      {| ect_wrapped := tm_wrapped t;
         ect_errorCodes := fold_left (fun m code => <[code := true]> m) errorCodes ∅ |} in
    {| tm_wrapped := errCodeTransport_RoundTrip nt;
       tm_callback := tm_callback t;
       tm_load := tm_load t |}.

Definition TransportOptionCallback {Load} (cb : RoundTripper) : TransportOption Load :=
  fun t =>
    {| tm_wrapped := tm_wrapped t; tm_callback := Some cb; tm_load := tm_load t |}.

Definition NewTransportMiddleware {Load} (shed : Load) (options : list (TransportOption Load))
    (c : RoundTripper) : TransportMiddleware Load :=
  fold_left (fun t option => option t) options
    {| tm_wrapped := c; tm_callback := None; tm_load := shed |}.

End Transport.
Arguments Response : clear implicits.
Arguments RoundTripOutcome : clear implicits.
Arguments RoundTripper : clear implicits.
Arguments errCodeTransport : clear implicits.
Arguments TransportMiddleware : clear implicits.
Arguments TransportOption : clear implicits.
Arguments tm_wrapped {Request Body World Load}.
Arguments tm_callback {Request Body World Load}.
Arguments tm_load {Request Body World Load}.

End http.

(** *** More test doubles *)

Module Doubles.

Import Fixtures.

(** [type staticCap struct { value float32 }]; its [Wrap] returns the
    function it is given. *)
Definition staticCap (value : float32) : Capacity unit TestWorld :=
  {| Capacity_Name := fun _ w => (nameStatic, w);
     Capacity_Usage := fun _ w => (value, w);
     Capacity_Wrapper := Some (fun fn => fn) |}.

(** A rule that records the classification it is asked about and
    declines. *)
Definition observingRule : Rule unit TestWorld :=
  {| Rule_Name := fun _ w => ("observer"%string, w);
     Rule_Reject := fun ctx w =>
       (false,
        {| tw_count := tw_count w; tw_calls := tw_calls w;
           tw_usage := tw_usage w; tw_clock := tw_clock w;
           tw_seen := tw_seen w ++ [ClassificationFromContext ctx] |}) |}.

(** A rate fixed at NaN. *)
Definition nanRate : RejectionRate unit TestWorld := staticCountingRate S754_nan.

(** [fixtureTransport{Response: resp, Err: nil}] of the transport tests. *)
Definition fixtureTransport (code : Z) : http.RoundTripper unit unit TestWorld :=
  fun _ w => (http.RoundTripped (Some {| http.StatusCode := code; http.resp_body := tt |}) None, w).

(** An action on the heap of a capacity that succeeds, one that fails
    and one that panics. *)
Definition cellOk {Cell : Type} : Fn unit (Cell * TestWorld) :=
  fun _ h => (Returned None, h).

Definition cellPanic {Cell : Type} : Fn unit (Cell * TestWorld) :=
  fun _ h => (Panicked "boom", h).

(** An action that takes [d] on the clock. *)
Definition cellSlow {Cell : Type} (d : Duration) : Fn unit (Cell * TestWorld) :=
  fun _ h => (Returned None, (fst h, later d (tw_usage (snd h)) (snd h))).

End Doubles.

(* ===================================================================== *)
(** * Part II: properties *)
(* ===================================================================== *)

(** ** Facts about IEEE-754 comparison and conversion *)

Module FloatFacts.

Ltac by_compare :=
  repeat match goal with
  | |- context [Pos.compare_cont Eq ?a ?b] =>
      change (Pos.compare_cont Eq a b) with (Pos.compare a b)
  | H : context [Pos.compare_cont Eq ?a ?b] |- _ =>
      change (Pos.compare_cont Eq a b) with (Pos.compare a b) in H
  end;
  repeat match goal with
  | H : context [Z.compare ?a ?b] |- _ => destruct (Z.compare_spec a b); simpl in H
  | H : context [Pos.compare ?a ?b] |- _ => destruct (Pos.compare_spec a b); simpl in H
  | |- context [Z.compare ?a ?b] => destruct (Z.compare_spec a b); simpl
  | |- context [Pos.compare ?a ?b] => destruct (Pos.compare_spec a b); simpl
  end;
  try discriminate; try reflexivity; try lia.

Lemma SFltb_SFleb_trans (x y z : spec_float) :
  SFltb x y = true -> SFleb y z = true -> SFltb x z = true.
Proof.
  unfold SFltb, SFleb, SFcompare.
  destruct x as [[]|[]| |[] mx ex], y as [[]|[]| |[] my ey], z as [[]|[]| |[] mz ez];
    simpl; intros Hxy Hyz; try discriminate; try reflexivity; by_compare.
Qed.

Lemma SFleb_trans (x y z : spec_float) :
  SFleb x y = true -> SFleb y z = true -> SFleb x z = true.
Proof.
  unfold SFleb, SFcompare.
  destruct x as [[]|[]| |[] mx ex], y as [[]|[]| |[] my ey], z as [[]|[]| |[] mz ez];
    simpl; intros Hxy Hyz; try discriminate; try reflexivity; by_compare.
Qed.

Lemma SFleb_not_SFltb (x y : spec_float) :
  SFleb y x = true -> SFltb x y = false.
Proof.
  unfold SFltb, SFleb, SFcompare.
  destruct x as [[]|[]| |[] mx ex], y as [[]|[]| |[] my ey];
    simpl; intros Hyx; try discriminate; try reflexivity; by_compare.
Qed.

Lemma SFltb_SFleb (x y : spec_float) : SFltb x y = true -> SFleb x y = true.
Proof.
  unfold SFltb, SFleb. destruct (SFcompare x y) as [[]|]; congruence.
Qed.

Lemma digits2_pos_lower (p : positive) : 2 ^ (Zpos (digits2_pos p) - 1) <= Zpos p.
Proof.
  induction p as [p IH|p IH|]; simpl digits2_pos.
  - rewrite Pos2Z.inj_succ.
    replace (Z.succ (Zpos (digits2_pos p)) - 1) with (Z.succ (Zpos (digits2_pos p) - 1)) by lia.
    rewrite Z.pow_succ_r by lia. lia.
  - rewrite Pos2Z.inj_succ.
    replace (Z.succ (Zpos (digits2_pos p)) - 1) with (Z.succ (Zpos (digits2_pos p) - 1)) by lia.
    rewrite Z.pow_succ_r by lia. lia.
  - simpl. lia.
Qed.

Lemma shr_1_m (mrs : shr_record) :
  0 <= shr_m mrs -> shr_m (shr_1 mrs) = shr_m mrs / 2.
Proof.
  destruct mrs as [m r s]. simpl. intros Hm.
  destruct m as [|[p|p|]|p]; cbn [shr_m]; try lia; try reflexivity.
  - apply Z.div_unique with 1; lia.
  - apply Z.div_unique with 0; lia.
Qed.

Lemma iter_pos_shr_1_m (k : positive) : forall mrs : shr_record,
  0 <= shr_m mrs -> shr_m (SpecFloat.iter_pos shr_1 k mrs) = shr_m mrs / 2 ^ Zpos k.
Proof.
  induction k as [k IH|k IH|]; intros mrs Hm; simpl SpecFloat.iter_pos.
  - assert (H1 : 0 <= shr_m (shr_1 mrs)) by (rewrite shr_1_m by lia; apply Z.div_pos; lia).
    assert (H2 : 0 <= shr_m (SpecFloat.iter_pos shr_1 k (shr_1 mrs)))
      by (rewrite IH by lia; apply Z.div_pos; lia).
    rewrite IH, IH, shr_1_m by lia.
    rewrite !Z.div_div by lia. f_equal.
    replace (Zpos k~1) with (1 + Zpos k + Zpos k) by lia.
    rewrite !Z.pow_add_r by lia. lia.
  - assert (H2 : 0 <= shr_m (SpecFloat.iter_pos shr_1 k mrs))
      by (rewrite IH by lia; apply Z.div_pos; lia).
    rewrite IH, IH by lia.
    rewrite !Z.div_div by lia. f_equal.
    replace (Zpos k~0) with (Zpos k + Zpos k) by lia.
    rewrite !Z.pow_add_r by lia. lia.
  - rewrite shr_1_m by lia. reflexivity.
Qed.

Lemma shr_record_of_loc_m (m : Z) (l : location) : shr_m (shr_record_of_loc m l) = m.
Proof. destruct l as [|[]]; reflexivity. Qed.

Section Rounding.
Variables prec emax : Z.
Hypothesis Hprec : 0 < prec.

Lemma shr_fexp_positive (p : positive) (e : Z) (l : location) :
  emin prec emax <= e ->
  0 < shr_m (fst (shr_fexp prec emax (Zpos p) e l)) /\
  emin prec emax <= snd (shr_fexp prec emax (Zpos p) e l).
Proof using Hprec.
  intros He. unfold shr_fexp, shr. simpl Zdigits2.
  pose proof (digits2_pos_lower p) as Hd.
  set (d := Zpos (digits2_pos p)) in *.
  destruct (fexp prec emax (d + e) - e) as [|k|k] eqn:Hn; simpl;
    rewrite ?shr_record_of_loc_m; try (split; lia).
  rewrite iter_pos_shr_1_m by (rewrite shr_record_of_loc_m; lia).
  rewrite shr_record_of_loc_m.
  unfold fexp in Hn.
  assert (Hk : Zpos k <= d - 1) by lia.
  split; [|lia].
  apply Z.div_str_pos. split; [apply Z.pow_pos_nonneg; lia|].
  transitivity (2 ^ (d - 1)); [|exact Hd].
  apply Z.pow_le_mono_r; lia.
Qed.

Lemma round_nearest_even_positive (m : Z) (l : location) :
  0 < m -> 0 < round_nearest_even m l.
Proof.
  intros Hm. unfold round_nearest_even.
  destruct l as [|[]]; try lia. destruct (Z.even m); lia.
Qed.

Lemma binary_round_aux_signed (s : bool) (p : positive) (e : Z) (l : location) :
  emin prec emax <= e ->
  signed prec emax s (binary_round_aux prec emax s (Zpos p) e l).
Proof using Hprec.
  intros He. unfold binary_round_aux.
  destruct (shr_fexp_positive p e l He) as [Hm1 He1].
  destruct (shr_fexp prec emax (Zpos p) e l) as [mrs' e']. simpl in Hm1, He1.
  pose proof (round_nearest_even_positive (shr_m mrs') (loc_of_shr_record mrs') Hm1) as Hr.
  destruct (round_nearest_even (shr_m mrs') (loc_of_shr_record mrs')) as [|q|q]; try lia.
  destruct (shr_fexp_positive q e' loc_Exact He1) as [Hm2 He2].
  destruct (shr_fexp prec emax (Zpos q) e' loc_Exact) as [mrs'' e'']. simpl in Hm2, He2.
  destruct (shr_m mrs'') as [|q2|q2]; try lia.
  destruct (e'' <=? emax - prec); simpl; auto.
Qed.

Lemma binary_round_signed (s : bool) (p : positive) (e : Z) :
  emin prec emax <= e ->
  signed prec emax s (binary_round prec emax s p e).
Proof using Hprec.
  intros He. unfold binary_round, shl_align.
  destruct (fexp prec emax (Zpos (digits2_pos p) + e) - e) as [|k|k] eqn:Hn;
    try (apply binary_round_aux_signed; exact He).
  apply binary_round_aux_signed. unfold fexp. lia.
Qed.

Lemma binary_normalize_signed (m e : Z) (sz : bool) :
  m <> 0 -> emin prec emax <= e ->
  signed prec emax (m <? 0) (binary_normalize prec emax m e sz).
Proof using Hprec.
  intros Hm He. destruct m as [|p|p]; [congruence| |]; simpl;
    apply binary_round_signed; exact He.
Qed.

Lemma signed_is_nonzero s x : signed prec emax s x -> is_nonzero x = true.
Proof using. destruct x; simpl; intros; try contradiction; reflexivity. Qed.

Lemma SFadd_signed s x y :
  signed prec emax s x -> signed prec emax s y -> signed prec emax s (SFadd prec emax x y).
Proof using Hprec.
  destruct x as [sx|sx| |sx mx ex], y as [sy|sy| |sy my ey]; simpl;
    try contradiction; try tauto.
  - intros -> ->. destruct s; reflexivity.
  - intros [-> Hx] [-> Hy].
    set (a := Zpos (fst (shl_align mx ex (Z.min ex ey)))).
    set (b := Zpos (fst (shl_align my ey (Z.min ex ey)))).
    assert (Ha : 0 < a) by (subst a; lia).
    assert (Hb : 0 < b) by (subst b; lia).
    assert (Hs : (cond_Zopp s a + cond_Zopp s b <? 0) = s).
    { destruct s; simpl; [apply Z.ltb_lt | apply Z.ltb_ge]; lia. }
    rewrite <- Hs at 1. apply binary_normalize_signed.
    + destruct s; simpl; lia.
    + lia.
Qed.

Lemma digits2_pos_upper (p : positive) : Zpos p < 2 ^ Zpos (digits2_pos p).
Proof using.
  induction p as [p IH|p IH|]; simpl digits2_pos.
  - rewrite Pos2Z.inj_succ, Z.pow_succ_r by lia. lia.
  - rewrite Pos2Z.inj_succ, Z.pow_succ_r by lia. lia.
  - simpl. lia.
Qed.

Lemma digits2_pos_iter_xO (m d : positive) :
  Zpos (digits2_pos (Pos.iter xO m d)) = Zpos (digits2_pos m) + Zpos d.
Proof using.
  induction d as [|d IH] using Pos.peano_ind.
  - simpl. lia.
  - rewrite Pos.iter_succ. simpl digits2_pos. lia.
Qed.

Lemma binary_round_aux_exact (s : bool) (m : positive) (e : Z) :
  fexp prec emax (Zpos (digits2_pos m) + e) = e ->
  e <= emax - prec ->
  binary_round_aux prec emax s (Zpos m) e loc_Exact = S754_finite s m e.
Proof using.
  intros Hc He. unfold binary_round_aux, shr_fexp. simpl Zdigits2.
  rewrite Hc, Z.sub_diag. simpl. rewrite Hc, Z.sub_diag. simpl.
  apply Z.leb_le in He. rewrite He. reflexivity.
Qed.

(** An integer of at most [prec] digits converts exactly. *)
Lemma binary_round_small (s : bool) (m : positive) :
  Zpos (digits2_pos m) <= prec ->
  emin prec emax <= Zpos (digits2_pos m) - prec ->
  prec <= emax ->
  exists mz,
    binary_round prec emax s m 0 = S754_finite s mz (Zpos (digits2_pos m) - prec) /\
    Zpos (digits2_pos mz) = prec.
Proof using.
  intros Hd Hmin Hmax. unfold binary_round, shl_align.
  assert (Hf : fexp prec emax (Zpos (digits2_pos m) + 0) = Zpos (digits2_pos m) - prec)
    by (unfold fexp; lia).
  rewrite Hf.
  destruct (Zpos (digits2_pos m) - prec - 0) as [|k|k] eqn:Hk; try lia.
  - exists m. split; [|lia].
    replace (Zpos (digits2_pos m) - prec) with 0 by lia.
    apply binary_round_aux_exact; [unfold fexp; lia | lia].
  - exists (Pos.iter xO m k). split; [|rewrite digits2_pos_iter_xO; lia].
    apply binary_round_aux_exact; [|lia].
    rewrite digits2_pos_iter_xO. unfold fexp. lia.
Qed.

(** The quotient of two normal numbers, away from underflow, is a number. *)
Lemma SFdiv_signed (sx sy : bool) (mx my : positive) (ex ey : Z) :
  Zpos (digits2_pos mx) = prec ->
  Zpos (digits2_pos my) = prec ->
  emin prec emax <= ex - ey - prec ->
  signed prec emax (xorb sx sy)
    (SFdiv prec emax (S754_finite sx mx ex) (S754_finite sy my ey)).
Proof using Hprec.
  intros Hdx Hdy Hmin. unfold SFdiv, SFdiv_core_binary. simpl Zdigits2.
  rewrite Hdx, Hdy.
  assert (Hf : fexp prec emax (prec + ex - (prec + ey)) = ex - ey - prec)
    by (unfold fexp; lia).
  rewrite Hf.
  replace (Z.min (ex - ey - prec) (ex - ey)) with (ex - ey - prec) by lia.
  replace (ex - ey - (ex - ey - prec)) with prec by lia.
  assert (Hm : match prec with
               | 0 => Zpos mx
               | Zpos _ => Z.shiftl (Zpos mx) prec
               | Zneg _ => 0
               end = Zpos mx * 2 ^ prec).
  { destruct prec as [|pp|pp]; try lia. apply Z.shiftl_mul_pow2. lia. }
  rewrite Hm.
  pose proof (digits2_pos_lower mx) as Hlx.
  pose proof (digits2_pos_upper my) as Huy.
  rewrite Hdx in Hlx. rewrite Hdy in Huy.
  assert (Hq : 0 < (Zpos mx * 2 ^ prec) / Zpos my).
  { apply Z.div_str_pos. split; [lia|].
    pose proof (Z.pow_pos_nonneg 2 (prec - 1)).
    assert (0 < 2 ^ prec) by (apply Z.pow_pos_nonneg; lia).
    nia. }
  unfold Z.div in Hq.
  destruct (Z.div_eucl (Zpos mx * 2 ^ prec) (Zpos my)) as [q r]. simpl in Hq.
  destruct q as [|q|q]; try lia.
  apply binary_round_aux_signed. lia.
Qed.

End Rounding.

(** *** Conversions and quotients that the capacities compute *)

Lemma f64_of_int_signed (n : Z) :
  n <> 0 -> signed prec64 emax64 (n <? 0) (f64_of_int n).
Proof.
  intros Hn. apply binary_normalize_signed; [reflexivity | exact Hn | discriminate].
Qed.

Lemma f64_of_int_nonzero (n : Z) : n <> 0 -> is_nonzero (f64_of_int n) = true.
Proof. intros Hn. eapply signed_is_nonzero, f64_of_int_signed, Hn. Qed.

(** [0 / y] is a zero whenever [y] is a number other than zero. *)
Lemma zero_div_nonzero (s : bool) (y : float64) :
  is_nonzero y = true -> is_zero (f64_div (S754_zero s) y) = true.
Proof. destruct y; simpl; intros; try discriminate; reflexivity. Qed.

Lemma f32_of_f64_zero (x : float64) : is_zero x = true -> is_zero (f32_of_f64 x) = true.
Proof. destruct x; simpl; intros; try discriminate; reflexivity. Qed.

(** An integer below 2^53 in magnitude converts to a normal binary64
    number without rounding. *)
Lemma f64_of_int_small (n : Z) :
  n <> 0 -> Z.abs n < 2 ^ 53 ->
  exists mz e,
    f64_of_int n = S754_finite (n <? 0) mz e /\
    Zpos (digits2_pos mz) = prec64 /\ - 52 <= e.
Proof.
  intros Hn Hlt. unfold f64_of_int.
  assert (Hsmall : forall (s : bool) (m : positive), Zpos m < 2 ^ 53 ->
            exists mz e, binary_round prec64 emax64 s m 0 = S754_finite s mz e /\
                         Zpos (digits2_pos mz) = prec64 /\ - 52 <= e).
  { intros s m Hm.
    pose proof (digits2_pos_lower m) as Hd.
    assert (Hdm : Zpos (digits2_pos m) <= 53).
    { destruct (Z_le_gt_dec (Zpos (digits2_pos m)) 53) as [|Hgt]; [assumption|].
      assert (2 ^ 53 <= 2 ^ (Zpos (digits2_pos m) - 1)) by (apply Z.pow_le_mono_r; lia).
      lia. }
    destruct (binary_round_small prec64 emax64 s m) as (mz & Hr & Hz);
      [exact Hdm | unfold emin, prec64, emax64; lia | discriminate |].
    exists mz, (Zpos (digits2_pos m) - prec64). unfold prec64 in *. repeat split; [exact Hr|lia|lia]. }
  destruct n as [|m|m]; [congruence| |]; simpl; apply Hsmall; lia.
Qed.

(** [d.Seconds()] of a non-zero duration is a number other than zero. *)
Lemma Duration_Seconds_nonzero (d : Duration) :
  d <> 0 -> is_nonzero (Duration_Seconds d) = true.
Proof.
  intros Hd. unfold Duration_Seconds.
  pose proof (Z.quot_rem' d Second) as Hqr.
  pose proof (Z.rem_bound_abs d Second ltac:(discriminate)) as Habs.
  assert (Hsign : Z.rem d Second <> 0 -> Z.quot d Second <> 0 ->
                  (Z.quot d Second <? 0) = (Z.rem d Second <? 0)).
  { intros Hr Hq.
    pose proof (Z.rem_sign_nz d Second ltac:(discriminate) Hr) as Hs1.
    destruct (Z.ltb_spec (Z.quot d Second) 0) as [Hq0|Hq0],
             (Z.ltb_spec (Z.rem d Second) 0) as [Hr0|Hr0]; try reflexivity; exfalso.
    - assert (0 < Z.rem d Second) by lia.
      rewrite (Z.sgn_pos (Z.rem d Second)) in Hs1 by lia.
      assert (0 < d) by (destruct d; simpl in Hs1; lia).
      pose proof (Z.quot_pos d Second ltac:(lia) ltac:(reflexivity)). lia.
    - rewrite (Z.sgn_neg (Z.rem d Second)) in Hs1 by lia.
      assert (d < 0) by (destruct d; simpl in Hs1; lia).
      pose proof (Z.quot_opp_l d Second ltac:(discriminate)) as Hopp.
      pose proof (Z.quot_pos (- d) Second ltac:(lia) ltac:(reflexivity)). lia. }
  set (sec := Z.quot d Second) in *. set (nsec := Z.rem d Second) in *.
  change (f64_of_int 1000000000) with (S754_finite false 8388608000000000 (-23)).
  destruct (Z.eq_dec nsec 0) as [Hn|Hn].
  - rewrite Hn. change (f64_of_int 0) with (S754_zero false). simpl f64_div.
    assert (Hs : sec <> 0) by (unfold Second in *; lia).
    pose proof (f64_of_int_nonzero sec Hs) as Hx.
    destruct (f64_of_int sec); simpl in *; try discriminate; reflexivity.
  - destruct (f64_of_int_small nsec Hn) as (mz & e & Hx & Hdig & He).
    { unfold Second in Habs. simpl in Habs. lia. }
    rewrite Hx.
    assert (HQ : signed prec64 emax64 (nsec <? 0)
                   (f64_div (S754_finite (nsec <? 0) mz e)
                            (S754_finite false 8388608000000000 (-23)))).
    { replace (nsec <? 0) with (xorb (nsec <? 0) false) at 1 by apply xorb_false_r.
      apply SFdiv_signed; [reflexivity | exact Hdig | reflexivity |].
      unfold emin, prec64, emax64. lia. }
    destruct (Z.eq_dec sec 0) as [Hs|Hs].
    + rewrite Hs. change (f64_of_int 0) with (S754_zero false).
      destruct (f64_div _ _); simpl in *; try contradiction; reflexivity.
    + apply (signed_is_nonzero prec64 emax64 (nsec <? 0)).
      apply SFadd_signed; [reflexivity| |exact HQ].
      rewrite <- (Hsign Hn Hs). apply f64_of_int_signed, Hs.
Qed.

End FloatFacts.

(** ** CurveLinear *)

(** The constant [.2] denotes the binary32 value nearest to one fifth:
    it is what the correctly rounded division of 1 by 5 returns, and it
    lies within half a unit in the last place (2^-27) of 1/5. *)
Lemma f32_fifth_is_one_fifth :
  f32_div (f32_of_int 1) (f32_of_int 5) = f32_fifth /\
  2 * Z.abs (5 * 13421773 - 2 ^ 26) <= 5.
Proof. split; [vm_compute; reflexivity | vm_compute; discriminate]. Qed.

(** With thresholds in order, a value above [Upper] is not below
    [Lower]. *)
Lemma above_upper_not_below_lower (self : CurveLinear) (v : float32) :
  fle (Lower self) (Upper self) = true ->
  fgt v (Upper self) = true ->
  flt v (Lower self) = false.
Proof.
  unfold fle, fgt, flt. intros HLU HUv.
  apply FloatFacts.SFleb_not_SFltb.
  apply FloatFacts.SFltb_SFleb.
  destruct (SFltb (Lower self) v) eqn:E; [reflexivity|].
  (* Lower <= Upper < v *)
  assert (H : SFltb (Lower self) v = true); [|congruence].
  clear E. revert HLU HUv.
  unfold SFltb, SFleb, SFcompare.
  destruct (Lower self) as [[]|[]| |[] ml el], (Upper self) as [[]|[]| |[] mu eu],
    v as [[]|[]| |[] mv ev];
    simpl; intros HLU HUv; try discriminate; try reflexivity; FloatFacts.by_compare.
Qed.

(** C7. [CurveLinear.Curve] is the cascade of its documentation,
    [x < LOWER ? 0 : x > UPPER ? 1 : ((x - LOWER) / (UPPER - LOWER))^EXPONENT]:
    0 when the value is below [Lower]; otherwise 1 when it is above
    [Upper] (with [Lower <= Upper], being above [Upper] alone suffices);
    otherwise the quotient, raised to [Exponent] through [math.Pow] unless
    [Exponent] equals 1, in which case the plain quotient is returned.
    The four documented sample points evaluate to 0, 1, 0.5 and 0.2. *)
Theorem CurveLinear_Curve_piecewise
    {Values : Type} (math_Pow : float64 -> float64 -> float64)
    (self : CurveLinear) (ctx : Context Values) (v : float32) :
  let quotient := f32_div (f32_sub v (Lower self)) (f32_sub (Upper self) (Lower self)) in
  (flt v (Lower self) = true -> CurveLinear_Curve math_Pow self ctx v = f32_zero) /\
  (flt v (Lower self) = false -> fgt v (Upper self) = true ->
     CurveLinear_Curve math_Pow self ctx v = f32_one) /\
  (fle (Lower self) (Upper self) = true -> fgt v (Upper self) = true ->
     CurveLinear_Curve math_Pow self ctx v = f32_one) /\
  (flt v (Lower self) = false -> fgt v (Upper self) = false ->
     feq (Exponent self) f32_one = true ->
     CurveLinear_Curve math_Pow self ctx v = quotient) /\
  (flt v (Lower self) = false -> fgt v (Upper self) = false ->
     feq (Exponent self) f32_one = false ->
     CurveLinear_Curve math_Pow self ctx v =
       f32_of_f64 (math_Pow (f64_of_f32 quotient) (f64_of_f32 (Exponent self)))) /\
  CurveLinear_Curve math_Pow
    {| Lower := f32_of_int 100; Upper := f32_of_int 200; Exponent := f32_of_int 1 |}
    ctx (f32_of_int 50) = f32_zero /\
  CurveLinear_Curve math_Pow
    {| Lower := f32_of_int 0; Upper := f32_of_int 20; Exponent := f32_of_int 1 |}
    ctx (f32_of_int 50) = f32_one /\
  CurveLinear_Curve math_Pow
    {| Lower := f32_of_int 0; Upper := f32_of_int 100; Exponent := f32_of_int 1 |}
    ctx (f32_of_int 50) = f32_half /\
  CurveLinear_Curve math_Pow
    {| Lower := f32_of_int 80; Upper := f32_of_int 180; Exponent := f32_of_int 1 |}
    ctx (f32_of_int 100) = f32_fifth.
Proof.
  intros quotient. unfold CurveLinear_Curve, CurveLinear_line, fne, feq.
  (* the four sample points are closed terms: [split] settles them by
     computation *)
  repeat split.
  - intros ->. reflexivity.
  - intros -> ->. reflexivity.
  - intros HLU HUv.
    rewrite (above_upper_not_below_lower self v HLU HUv), HUv. reflexivity.
  - intros -> -> ->. reflexivity.
  - intros -> -> ->. reflexivity.
Qed.

(** The piecewise description applied at [Lower = 0], [Upper = 100],
    [Exponent = 1] and the value 50, where the quotient is one half. *)
Lemma CurveLinear_Curve_piecewise_witness :
  CurveLinear_Curve (Values := unit) (fun x _ => x)
    {| Lower := f32_of_int 0; Upper := f32_of_int 100; Exponent := f32_of_int 1 |}
    (Background tt) (f32_of_int 50)
  = f32_div (f32_sub (f32_of_int 50) (f32_of_int 0)) (f32_sub (f32_of_int 100) (f32_of_int 0)).
Proof.
  apply (CurveLinear_Curve_piecewise (fun x _ => x)
    {| Lower := f32_of_int 0; Upper := f32_of_int 100; Exponent := f32_of_int 1 |}
    (Background tt) (f32_of_int 50)); vm_compute; reflexivity.
Defined.

(** ** The Shedder *)

Section ShedderFacts.

Context {Values World : Type}.
Implicit Types (ctx : Context Values) (st : State Values World).
Implicit Types (self : Shedder Values World).

Lemma rules_pass_S ctx (i k : nat) :
  rules_pass ctx i (S k) = EvReject i ctx false :: rules_pass ctx (S i) k.
Proof. reflexivity. Qed.

(** What the first loop of [Select] logs and returns. *)
Lemma select_rules_log ctx (rs : list (Rule Values World)) : forall (i : nat) st,
  match select_rules ctx i rs st with
  | (Some e, st') =>
      exists (k : nat) r name,
        rs !! k = Some r /\
        calls st' = calls st ++ rules_pass ctx i k
                      ++ [EvReject (i + k)%nat ctx true; EvRuleName (i + k)%nat ctx name] /\
        e = {| rej_Rule := name;
               rej_Classification := ClassificationFromContext ctx;
               rej_Name := EmptyString;
               rej_Usage := f32_zero; rej_Likelihood := f32_zero; rej_Rate := f32_zero |}
  | (None, st') => calls st' = calls st ++ rules_pass ctx i (length rs)
  end.
Proof.
  induction rs as [|r rs IH]; intros i st; simpl.
  - unfold ret. rewrite app_nil_r. reflexivity.
  - unfold bind at 1, call at 1.
    destruct (Rule_Reject r ctx (world st)) as [[] w] eqn:Hrej.
    + unfold bind, call, ret; simpl.
      destruct (Rule_Name r ctx w) as [name w'] eqn:Hname.
      exists 0%nat, r, name. rewrite Nat.add_0_r, <- app_assoc. simpl. auto.
    + match goal with |- context [select_rules ctx (S i) rs ?s] =>
        specialize (IH (S i) s); destruct (select_rules ctx (S i) rs s) as [[e|] st']
      end.
      * destruct IH as [k [r' [name [Hk [Hlog He]]]]].
        exists (S k), r', name. split; [exact Hk|]. split; [|exact He].
        rewrite Hlog. simpl calls. rewrite rules_pass_S, <- !app_assoc.
        simpl. rewrite Nat.add_succ_r. reflexivity.
      * rewrite IH. simpl calls. rewrite rules_pass_S, <- app_assoc. reflexivity.
Qed.

(** What the second loop of [Select] logs and returns. *)
Lemma select_rates_log rand ctx (rs : list (RejectionRate Values World)) : forall (j : nat) st,
  match select_rates rand ctx j rs st with
  | (Some e, st') =>
      exists (k : nat) r passed rate draw name usage likelihood,
        rs !! k = Some r /\ length passed = k /\
        Forall (fun rd => flt (snd rd) (fst rd) = false) passed /\
        flt draw rate = true /\
        calls st' = calls st ++ rates_pass ctx j passed
                      ++ [EvRate (j + k)%nat ctx rate; EvRand draw;
                          EvName (j + k)%nat ctx name; EvUsage (j + k)%nat ctx usage;
                          EvLikelihood (j + k)%nat ctx likelihood] /\
        e = {| rej_Rule := RuleProbabilistic;
               rej_Classification := ClassificationFromContext ctx;
               rej_Name := name;
               rej_Usage := usage; rej_Likelihood := likelihood; rej_Rate := rate |}
  | (None, st') =>
      exists passed,
        length passed = length rs /\
        Forall (fun rd => flt (snd rd) (fst rd) = false) passed /\
        calls st' = calls st ++ rates_pass ctx j passed
  end.
Proof.
  induction rs as [|r rs IH]; intros j st; simpl.
  - exists []. unfold ret. simpl. rewrite app_nil_r. auto.
  - unfold bind at 1, call at 1.
    destruct (RR_Rate r ctx (world st)) as [rate w1] eqn:Hrate.
    unfold bind at 1, call at 1. simpl world.
    destruct (rand w1) as [draw w2] eqn:Hdraw.
    destruct (flt draw rate) eqn:Hlt.
    + unfold bind, call, ret; simpl.
      destruct (Capacity_Name r ctx w2) as [name w3]; simpl.
      destruct (Capacity_Usage r ctx w3) as [usage w4]; simpl.
      destruct (FP_Likelihood r ctx w4) as [likelihood w5]; simpl.
      exists 0%nat, r, [], rate, draw, name, usage, likelihood.
      rewrite Nat.add_0_r, <- !app_assoc. simpl. auto 10.
    + match goal with |- context [select_rates rand ctx (S j) rs ?s] =>
        specialize (IH (S j) s); destruct (select_rates rand ctx (S j) rs s) as [[e|] st']
      end.
      * destruct IH as (k & r' & passed & rate' & draw' & name & usage & likelihood
                          & Hk & Hlen & Hall & Hlt' & Hlog & He).
        exists (S k), r', ((rate, draw) :: passed), rate', draw', name, usage, likelihood.
        repeat split; auto.
        -- simpl. congruence.
        -- rewrite Hlog. simpl. rewrite <- !app_assoc. simpl.
           rewrite Nat.add_succ_r. reflexivity.
      * destruct IH as (passed & Hlen & Hall & Hlog).
        exists ((rate, draw) :: passed).
        repeat split; auto.
        -- simpl. congruence.
        -- rewrite Hlog. simpl. rewrite <- !app_assoc. reflexivity.
Qed.






(** *** Do and WrapSelect, unfolded *)

Lemma Forall_rules_pass ctx (i k : nat) : Forall (select_event ctx) (rules_pass ctx i k).
Proof.
  revert i. induction k as [|k IH]; intros i; [constructor|].
  rewrite rules_pass_S. constructor; [reflexivity | apply IH].
Qed.

Lemma Forall_rates_pass ctx (j : nat) (passed : list (float32 * float32)) :
  Forall (select_event ctx) (rates_pass ctx j passed).
Proof.
  revert j. induction passed as [|[rate draw] passed IH]; intros j; simpl.
  - constructor.
  - repeat constructor. apply IH.
Qed.

(** [Select] writes nothing but calls of rules and rates on its own
    context, and draws. *)
Lemma Select_events self ctx st :
  exists log,
    calls (snd (Select self ctx st)) = calls st ++ log /\
    Forall (select_event ctx) log.
Proof.
  unfold Select, bind.
  pose proof (select_rules_log ctx (rules self) 0 st) as Hrules.
  destruct (select_rules ctx 0 (rules self) st) as [[e|] st1].
  - destruct Hrules as (k & r & name & _ & Hlog & _).
    eexists. split; [exact Hlog|].
    apply Forall_app. split; [apply Forall_rules_pass|].
    repeat constructor.
  - pose proof (select_rates_log (randFloat self) ctx (rejectionRates self) 0 st1) as Hrates.
    destruct (select_rates (randFloat self) ctx 0 (rejectionRates self) st1) as [[e|] st2].
    + destruct Hrates as (j & r & passed & rate & draw & name & usage & likelihood
                            & _ & _ & _ & _ & Hlog & _).
      simpl. rewrite Hlog, Hrules, <- app_assoc.
      eexists. split; [reflexivity|].
      rewrite !Forall_app. split; [apply Forall_rules_pass|].
      split; [apply Forall_rates_pass|]. repeat constructor.
    + destruct Hrates as (passed & _ & _ & Hlog).
      simpl. rewrite Hlog, Hrules, <- app_assoc.
      eexists. split; [reflexivity|].
      rewrite Forall_app. split; [apply Forall_rules_pass | apply Forall_rates_pass].
Qed.

Lemma wrap_rates_eq (rs : list (RejectionRate Values World)) :
  forall (j : nat) (fn : Fn Values World) st,
    wrap_rates j rs fn st =
      (wrapped rs fn, {| world := world st; calls := calls st ++ wrap_events j rs |}).
Proof.
  induction rs as [|rate rs IH]; intros j fn st; simpl.
  - unfold ret. rewrite app_nil_r. destruct st; reflexivity.
  - unfold wrapped. simpl. destruct (Capacity_Wrapper rate) as [w|].
    + unfold bind, note. rewrite IH. simpl. rewrite <- app_assoc. reflexivity.
    + apply IH.
Qed.

Lemma classify_eq self ctx st :
  classify self ctx st =
    match classifier self with
    | Some c =>
        (ClassificationToContext ctx (fst (Classify c ctx (world st))),
         {| world := snd (Classify c ctx (world st));
            calls := calls st ++ [EvClassify ctx (fst (Classify c ctx (world st)))] |})
    | None => (ctx, st)
    end.
Proof.
  unfold classify. destruct (classifier self) as [c|]; [|reflexivity].
  unfold bind, call, ret. destruct (Classify c ctx (world st)); reflexivity.
Qed.

Lemma Do_eq self ctx (fn : Fn Values World) st :
  Do self ctx fn st =
    let cs := classify self ctx st in
    let ss := Select self (fst cs) (snd cs) in
    match fst ss with
    | Some e => (rejected e, snd ss)
    | None =>
        let r := wrapped (rejectionRates self) fn (fst cs) (world (snd ss)) in
        (fst r, {| world := snd r;
                   calls := calls (snd ss) ++ wrap_events 0 (rejectionRates self)
                              ++ [EvInvoke (fst cs) (fst r)] |})
    end.
Proof.
  unfold Do, bind at 1.
  destruct (classify self ctx st) as [ctx' s1]. simpl.
  unfold bind at 1.
  destruct (Select self ctx' s1) as [[e|] s2]; simpl; [reflexivity|].
  unfold bind. rewrite wrap_rates_eq. unfold call. simpl.
  destruct (wrapped (rejectionRates self) fn ctx' (world s2)) as [o w]. simpl.
  rewrite <- app_assoc. reflexivity.
Qed.

Lemma WrapSelect_eq self (fn : Fn Values World) st0 :
  snd (WrapSelect self fn st0) =
    {| world := world st0; calls := calls st0 ++ wrap_events 0 (rejectionRates self) |} /\
  forall ctx st,
    fst (WrapSelect self fn st0) ctx st =
      let cs := classify self ctx st in
      let ss := Select self (fst cs) (snd cs) in
      match fst ss with
      | Some e => (rejected e, snd ss)
      | None =>
          let r := wrapped (rejectionRates self) fn (fst cs) (world (snd ss)) in
          (fst r, {| world := snd r; calls := calls (snd ss) ++ [EvInvoke (fst cs) (fst r)] |})
      end.
Proof.
  unfold WrapSelect. split.
  { unfold bind. rewrite wrap_rates_eq. reflexivity. }
  intros ctx st. unfold bind at 1. rewrite wrap_rates_eq. unfold ret at 1. simpl.
  unfold bind at 1.
  destruct (classify self ctx st) as [ctx' s1]. simpl.
  unfold bind at 1.
  destruct (Select self ctx' s1) as [[e|] s2]; simpl; [reflexivity|].
  unfold call.
  destruct (wrapped (rejectionRates self) fn ctx' (world s2)) as [o w]. reflexivity.
Qed.

Lemma select_event_kind ctx (e : Event Values) :
  select_event ctx e ->
  is_wrap e = false /\ is_invoke e = false /\ is_classify e = false /\ hands ctx e.
Proof.
  unfold hands. destruct e; simpl; intros H; try contradiction;
    repeat split; intros; congruence.
Qed.

(** What the classification step and [Select] log together: at most one
    classifier call, first, on the caller's context; then only calls of
    rules and rates on the context [Select] runs on, and draws. *)
Lemma decision_events self ctx st :
  let cs := classify self ctx st in
  exists slog,
    Forall (select_event (fst cs)) slog /\
    calls (snd (Select self (fst cs) (snd cs))) =
      calls st ++
      match classifier self with
      | Some c => [EvClassify ctx (fst (Classify c ctx (world st)))]
      | None => []
      end ++ slog.
Proof.
  intros cs.
  destruct (Select_events self (fst cs) (snd cs)) as (slog & Hlog & Hall).
  exists slog. split; [exact Hall|].
  rewrite Hlog. subst cs. rewrite classify_eq.
  destruct (classifier self) as [c|]; simpl; [rewrite <- app_assoc|]; reflexivity.
Qed.

(** C2. When [Select], run on the context that the classification step
    produced, rejects, [Do] returns that very [ErrRejection] and stops in
    the state [Select] left: no wrapper has been applied and the action
    has not been invoked, so the world holds no trace of the invocation
    beyond what deciding itself did, whatever the action is. *)
Theorem Do_rejection_skips_action self ctx (fn : Fn Values World) st (rej : ErrRejection) :
  let cs := classify self ctx st in
  fst (Select self (fst cs) (snd cs)) = Some rej ->
  Do self ctx fn st = (rejected rej, snd (Select self (fst cs) (snd cs))) /\
  (exists log,
     calls (snd (Do self ctx fn st)) = calls st ++ log /\
     Forall (fun e => is_wrap e = false /\ is_invoke e = false) log) /\
  (forall fn' : Fn Values World, Do self ctx fn' st = Do self ctx fn st).
Proof.
  intros cs Hrej.
  assert (HDo : forall f : Fn Values World,
            Do self ctx f st = (rejected rej, snd (Select self (fst cs) (snd cs)))).
  { intros f. rewrite Do_eq. fold cs. cbv zeta. rewrite Hrej. reflexivity. }
  split; [apply HDo|]. split.
  - rewrite HDo. simpl.
    destruct (decision_events self ctx st) as (slog & Hall & Hlog). fold cs in Hall, Hlog.
    eexists. split; [exact Hlog|].
    apply Forall_app. split.
    + destruct (classifier self); repeat constructor.
    + eapply Forall_impl; [exact Hall|].
      intros e He. apply select_event_kind in He. tauto.
  - intros fn'. rewrite !HDo. reflexivity.
Qed.

Lemma filter_keep (p : Event Values -> bool) (l : list (Event Values)) :
  Forall (fun e => p e = true) l -> List.filter p l = l.
Proof.
  induction 1 as [|e l He _ IH]; simpl; [reflexivity|]. rewrite He, IH. reflexivity.
Qed.

Lemma filter_drop (p : Event Values -> bool) (l : list (Event Values)) :
  Forall (fun e => p e = false) l -> List.filter p l = [].
Proof.
  induction 1 as [|e l He _ IH]; simpl; [reflexivity|]. rewrite He, IH. reflexivity.
Qed.

Lemma Forall_wrap_events (j : nat) (rs : list (RejectionRate Values World)) :
  Forall (fun e => is_wrap e = true) (wrap_events j rs).
Proof.
  revert j. induction rs as [|r rs IH]; intros j; simpl; [constructor|].
  destruct (Capacity_Wrapper r); [constructor; [reflexivity|]|]; apply IH.
Qed.

(** C6. [WrapSelect] applies the wrappers of the rates once, when it
    builds the function it returns: that is all it logs, and it leaves the
    world alone.  Every call of the returned function classifies and
    selects afresh, applies no wrapper, and has the result and the effect
    on the world of [Do] on the same context; the log of [Do] is the log
    of the call with the wrapper applications put back. *)
Theorem WrapSelect_matches_Do self (fn : Fn Values World) st0 :
  let g := fst (WrapSelect self fn st0) in
  let st1 := snd (WrapSelect self fn st0) in
  world st1 = world st0 /\
  calls st1 = calls st0 ++ wrap_events 0 (rejectionRates self) /\
  forall ctx st,
    fst (g ctx st) = fst (Do self ctx fn st) /\
    world (snd (g ctx st)) = world (snd (Do self ctx fn st)) /\
    exists log log',
      calls (snd (g ctx st)) = calls st ++ log /\
      count is_wrap log = 0%nat /\
      calls (snd (Do self ctx fn st)) = calls st ++ log' /\
      List.filter (fun e => negb (is_wrap e)) log' = log.
Proof.
  intros g st1. subst g st1.
  destruct (WrapSelect_eq self fn st0) as [Hst Hg]. rewrite Hst. simpl.
  split; [reflexivity|]. split; [reflexivity|].
  intros ctx st. rewrite Hg, Do_eq. cbv zeta.
  destruct (decision_events self ctx st) as (slog & Hall & Hlog). cbv zeta in Hall, Hlog.
  set (cs := classify self ctx st) in *.
  set (ss := Select self (fst cs) (snd cs)) in *.
  set (clog := match classifier self with
               | Some c => [EvClassify ctx (fst (Classify c ctx (world st)))]
               | None => []
               end) in *.
  assert (Hkeep : Forall (fun e => negb (is_wrap e) = true) (clog ++ slog)).
  { apply Forall_app. split.
    - subst clog. destruct (classifier self); repeat constructor.
    - eapply Forall_impl; [exact Hall|].
      intros e He. apply select_event_kind in He. destruct He as (-> & _). reflexivity. }
  assert (Hnone : forall l : list (Event Values),
            Forall (fun e => negb (is_wrap e) = true) l -> count is_wrap l = 0%nat).
  { intros l Hl. unfold count. rewrite filter_drop; [reflexivity|].
    eapply Forall_impl; [exact Hl|]. intros e. cbv beta. destruct (is_wrap e); simpl; intros; congruence. }
  destruct (fst ss) as [e|]; simpl.
  - split; [reflexivity|]. split; [reflexivity|].
    exists (clog ++ slog), (clog ++ slog).
    rewrite Hlog, filter_keep by exact Hkeep. auto.
  - split; [reflexivity|]. split; [reflexivity|].
    set (r := wrapped (rejectionRates self) fn (fst cs) (world (snd ss))).
    exists ((clog ++ slog) ++ [EvInvoke (fst cs) (fst r)]),
           ((clog ++ slog) ++ wrap_events 0 (rejectionRates self)
              ++ [EvInvoke (fst cs) (fst r)]).
    rewrite Hlog, <- !app_assoc. split; [reflexivity|]. split.
    + rewrite app_assoc. apply Hnone. apply Forall_app. split; [exact Hkeep|].
      repeat constructor.
    + split; [reflexivity|].
      rewrite (app_assoc clog slog (wrap_events _ _ ++ _)), List.filter_app.
      rewrite (filter_keep _ (clog ++ slog)) by exact Hkeep.
      rewrite List.filter_app, filter_drop; [rewrite <- app_assoc; reflexivity|].
      eapply Forall_impl; [apply Forall_wrap_events|].
      intros e. cbv beta. intros ->. reflexivity.
Qed.

Lemma count_none (p : Event Values -> bool) (l : list (Event Values)) :
  Forall (fun e => p e = false) l -> count p l = 0%nat.
Proof. intros H. unfold count. rewrite filter_drop by exact H. reflexivity. Qed.

(** The log of [Do] after the classification step: the classifier is not
    called again, every collaborator is handed the context the
    classification step produced, and when [Select] accepts the log ends
    with the invocation of the (wrapped) action on that context. *)
Lemma Do_log self ctx (fn : Fn Values World) st :
  let cs := classify self ctx st in
  exists rest,
    calls (snd (Do self ctx fn st)) =
      calls st ++
      match classifier self with
      | Some c => [EvClassify ctx (fst (Classify c ctx (world st)))]
      | None => []
      end ++ rest /\
    Forall (fun e => is_classify e = false /\ hands (fst cs) e) rest /\
    (fst (Select self (fst cs) (snd cs)) = None ->
     exists pre o, rest = pre ++ [EvInvoke (fst cs) o]).
Proof.
  intros cs. rewrite Do_eq. fold cs. cbv zeta.
  destruct (decision_events self ctx st) as (slog & Hall & Hlog). fold cs in Hall, Hlog.
  assert (Hs : Forall (fun e => is_classify e = false /\ hands (fst cs) e) slog).
  { eapply Forall_impl; [exact Hall|].
    intros e He. apply select_event_kind in He. tauto. }
  destruct (fst (Select self (fst cs) (snd cs))) as [e|]; simpl.
  - exists slog. split; [exact Hlog|]. split; [exact Hs|]. discriminate.
  - set (r := wrapped (rejectionRates self) fn (fst cs) (world (snd (Select self (fst cs) (snd cs))))).
    exists (slog ++ wrap_events 0 (rejectionRates self) ++ [EvInvoke (fst cs) (fst r)]).
    split; [rewrite Hlog, <- !app_assoc; reflexivity|]. split.
    + rewrite !Forall_app. split; [exact Hs|]. split.
      * eapply Forall_impl; [apply Forall_wrap_events|].
        intros e. cbv beta. unfold hands. destruct e; simpl; try discriminate.
        intros _. split; [reflexivity | discriminate].
      * repeat constructor. unfold hands. simpl. congruence.
    + intros _. exists (slog ++ wrap_events 0 (rejectionRates self)), (fst r).
      rewrite <- app_assoc. reflexivity.
Qed.

(** C9, as the code has it.  With a classifier, [Do] calls it exactly
    once, first, on the caller's context, and hands the context extended
    with its answer to every rule, every rate and the action; reading the
    classification back from that context gives the answer, and it is the
    key of the per-classification curve lookup in
    [RejectionRateCurve.Rate].  Without a classifier no classification is
    computed and every collaborator is handed the caller's context as it
    came: the classification read from it is whatever the caller attached,
    and the empty one when the caller attached none. *)
Theorem Do_classification self ctx (fn : Fn Values World) st :
  (forall c, classifier self = Some c ->
     let class := fst (Classify c ctx (world st)) in
     let ctx' := ClassificationToContext ctx class in
     ClassificationFromContext ctx' = class /\
     exists log,
       calls (snd (Do self ctx fn st)) = calls st ++ EvClassify ctx class :: log /\
       count is_classify log = 0%nat /\
       Forall (hands ctx') log /\
       (fst (Select self ctx' (snd (classify self ctx st))) = None ->
        exists pre o, log = pre ++ [EvInvoke ctx' o])) /\
  (classifier self = None ->
     (ctx_class ctx = None -> ClassificationFromContext ctx = EmptyString) /\
     (forall class, ctx_class ctx = Some class -> ClassificationFromContext ctx = class) /\
     exists log,
       calls (snd (Do self ctx fn st)) = calls st ++ log /\
       count is_classify log = 0%nat /\
       Forall (hands ctx) log /\
       (fst (Select self ctx st) = None -> exists pre o, log = pre ++ [EvInvoke ctx o])) /\
  (forall (rrc : RejectionRateCurve Values World) class w,
     let ctx' := ClassificationToContext ctx class in
     RejectionRateCurve_Rate rrc ctx' w =
       (match classificationCurves rrc !! class with
        | Some curve => curve
        | None => defaultCurve rrc
        end ctx' (fst (FP_Likelihood (RRC_FailureProbability rrc) ctx' w)),
        snd (FP_Likelihood (RRC_FailureProbability rrc) ctx' w))).
Proof.
  pose proof (Do_log self ctx fn st) as HDo. cbv zeta in HDo.
  pose proof (classify_eq self ctx st) as Hcs.
  split; [|split].
  - intros c Hc class ctx'. subst class ctx'. split; [reflexivity|].
    rewrite Hc in HDo, Hcs. rewrite Hcs in HDo. simpl in HDo.
    destruct HDo as (rest & Hlog & Hall & Hlast).
    exists rest. split; [exact Hlog|]. split; [|split].
    + apply count_none. eapply Forall_impl; [exact Hall|]. intros e [He _]. exact He.
    + eapply Forall_impl; [exact Hall|]. intros e [_ He]. exact He.
    + rewrite Hcs. exact Hlast.
  - intros Hc. split; [|split].
    + unfold ClassificationFromContext. intros ->. reflexivity.
    + unfold ClassificationFromContext. intros class ->. reflexivity.
    + rewrite Hc in HDo, Hcs. rewrite Hcs in HDo. simpl in HDo.
      destruct HDo as (rest & Hlog & Hall & Hlast).
      exists rest. split; [exact Hlog|]. split; [|split].
      * apply count_none. eapply Forall_impl; [exact Hall|]. intros e [He _]. exact He.
      * eapply Forall_impl; [exact Hall|]. intros e [_ He]. exact He.
      * exact Hlast.
  - intros rrc class w ctx'. unfold RejectionRateCurve_Rate.
    destruct (FP_Likelihood (RRC_FailureProbability rrc) ctx' w). reflexivity.
Qed.

(** *** Rates at the extremes *)

(** One iteration of the second loop of [Select]. *)
Lemma select_rates_cons rand ctx (j : nat) (r : RejectionRate Values World)
    (rs : list (RejectionRate Values World)) st :
  let rate := fst (RR_Rate r ctx (world st)) in
  let w1 := snd (RR_Rate r ctx (world st)) in
  let draw := fst (rand w1) in
  let w2 := snd (rand w1) in
  let name := Capacity_Name r ctx w2 in
  let usage := Capacity_Usage r ctx (snd name) in
  let likelihood := FP_Likelihood r ctx (snd usage) in
  select_rates rand ctx j (r :: rs) st =
    if flt draw rate then
      (Some {| rej_Rule := RuleProbabilistic;
               rej_Classification := ClassificationFromContext ctx;
               rej_Name := fst name;
               rej_Usage := fst usage;
               rej_Likelihood := fst likelihood;
               rej_Rate := rate |},
       {| world := snd likelihood;
          calls := calls st ++ [EvRate j ctx rate; EvRand draw; EvName j ctx (fst name);
                                EvUsage j ctx (fst usage);
                                EvLikelihood j ctx (fst likelihood)] |})
    else
      select_rates rand ctx (S j) rs
        {| world := w2; calls := calls st ++ [EvRate j ctx rate; EvRand draw] |}.
Proof.
  simpl. unfold bind, call, ret.
  destruct (RR_Rate r ctx (world st)) as [rate w1]; simpl.
  destruct (rand w1) as [draw w2]; simpl.
  destruct (flt draw rate); simpl.
  - destruct (Capacity_Name r ctx w2) as [name w3]; simpl.
    destruct (Capacity_Usage r ctx w3) as [usage w4]; simpl.
    destruct (FP_Likelihood r ctx w4) as [likelihood w5]; simpl.
    rewrite <- !app_assoc. reflexivity.
  - rewrite <- app_assoc. reflexivity.
Qed.

Lemma select_rates_app rand ctx (pre rs : list (RejectionRate Values World)) :
  forall (j : nat) st,
    select_rates rand ctx j (pre ++ rs) st =
      match select_rates rand ctx j pre st with
      | (Some e, st') => (Some e, st')
      | (None, st') => select_rates rand ctx (j + length pre)%nat rs st'
      end.
Proof.
  induction pre as [|r pre IH]; intros j st.
  - simpl. unfold ret. rewrite Nat.add_0_r. reflexivity.
  - rewrite <- app_comm_cons, !select_rates_cons. cbv zeta.
    destruct (flt _ _); [reflexivity|].
    rewrite IH. simpl length. rewrite Nat.add_succ_r. reflexivity.
Qed.

(** C10. Take a rate that [Select] reaches: every rule declined and no
    rate registered before it rejected.  If the value drawn for it lies in
    [[0,1)], then a rate of at most 0 does not reject (the decision moves
    on to the rates registered after it), and a rate of at least 1 rejects
    with a PROBABILISTIC rejection that names it. *)
Theorem Select_rate_extremes self ctx st
    (pre post : list (RejectionRate Values World)) (r : RejectionRate Values World)
    (s1 s2 : State Values World) :
  rejectionRates self = pre ++ r :: post ->
  select_rules ctx 0 (rules self) st = (None, s1) ->
  select_rates (randFloat self) ctx 0 pre s1 = (None, s2) ->
  let rate := fst (RR_Rate r ctx (world s2)) in
  let w1 := snd (RR_Rate r ctx (world s2)) in
  let draw := fst (randFloat self w1) in
  let w2 := snd (randFloat self w1) in
  fle f32_zero draw = true ->
  flt draw f32_one = true ->
  (fle rate f32_zero = true ->
     Select self ctx st =
       select_rates (randFloat self) ctx (S (length pre)) post
         {| world := w2;
            calls := calls s2 ++ [EvRate (length pre) ctx rate; EvRand draw] |}) /\
  (fge rate f32_one = true ->
     fst (Select self ctx st) =
       Some {| rej_Rule := RuleProbabilistic;
               rej_Classification := ClassificationFromContext ctx;
               rej_Name := fst (Capacity_Name r ctx w2);
               rej_Usage :=
                 fst (Capacity_Usage r ctx (snd (Capacity_Name r ctx w2)));
               rej_Likelihood :=
                 fst (FP_Likelihood r ctx
                        (snd (Capacity_Usage r ctx (snd (Capacity_Name r ctx w2)))));
               rej_Rate := rate |}).
Proof.
  intros Hrates Hrules Hpre rate w1 draw w2 Hge0 Hlt1.
  assert (Hsel : Select self ctx st =
                 select_rates (randFloat self) ctx (length pre) (r :: post) s2).
  { unfold Select, bind. rewrite Hrules, Hrates, select_rates_app, Hpre. reflexivity. }
  rewrite Hsel, select_rates_cons. cbv zeta. fold rate w1. fold draw w2.
  split.
  - intros Hle0.
    assert (Hno : flt draw rate = false).
    { apply FloatFacts.SFleb_not_SFltb.
      apply (FloatFacts.SFleb_trans _ f32_zero); assumption. }
    rewrite Hno. reflexivity.
  - intros Hge1.
    assert (Hyes : flt draw rate = true)
      by (apply (FloatFacts.SFltb_SFleb_trans _ f32_one); assumption).
    rewrite Hyes. reflexivity.
Qed.

End ShedderFacts.

(** ** Composers *)

Section ComposerFacts.

Context {Values World : Type}.

(** C8. The rejection rate built by [NewRejectionRateCurveIdentity]
    answers [Rate] with the likelihood of the failure probability it
    wraps, for every context (classified or not) and every state of the
    world: same value, same effect.  The same holds when it is used
    through the [RejectionRate] interface. *)
Theorem identity_rate_is_likelihood (p : FailureProbability Values World)
    (ctx : Context Values) (w : World) :
  RejectionRateCurve_Rate (NewRejectionRateCurveIdentity p) ctx w = FP_Likelihood p ctx w /\
  RR_Rate (RejectionRateCurve_as_RejectionRate (NewRejectionRateCurveIdentity p)) ctx w
    = FP_Likelihood p ctx w.
Proof.
  assert (H : RejectionRateCurve_Rate (NewRejectionRateCurveIdentity p) ctx w
              = FP_Likelihood p ctx w).
  { unfold RejectionRateCurve_Rate, NewRejectionRateCurveIdentity. simpl.
    rewrite lookup_empty. unfold CurveFN_Curve.
    destruct (FP_Likelihood p ctx w). reflexivity. }
  split; [exact H | exact H].
Qed.

End ComposerFacts.

(** ** Capacities *)

Section WindowFacts.

Context {T : Type}.
Implicit Types (w : rolling.TimePolicy T) (aged : rolling.Ageing).

Lemma proper_divides w : rolling.proper w -> rolling.divides_by_zero w = false.
Proof.
  unfold rolling.proper, rolling.well_formed, rolling.divides_by_zero. intros H.
  apply andb_prop in H. destruct H as [H _]. apply andb_prop in H. destruct H as [Hb Hd].
  apply Z.ltb_lt in Hb, Hd.
  apply orb_false_intro; apply Z.eqb_neq; lia.
Qed.

Lemma proper_intro w :
  0 < rolling.window_buckets w -> 0 < rolling.window_bucketDuration w ->
  0 <= rolling.window_bucketSizeHint w -> rolling.proper w.
Proof.
  intros Hb Hd Hh. unfold rolling.proper, rolling.well_formed.
  apply Z.ltb_lt in Hb, Hd. apply Z.leb_le in Hh. rewrite Hb, Hd, Hh. reflexivity.
Qed.

Lemma Append_proper now (v : T) w :
  rolling.proper w -> rolling.Append now v w = Some (rolling.add now v w).
Proof. intros H. unfold rolling.Append. rewrite (proper_divides w H). reflexivity. Qed.

Lemma Reduce_proper aged (r : rolling.Reduction T) now w :
  rolling.proper w ->
  rolling.Reduce aged r now w = Some (r (rolling.inside aged now w)).
Proof. intros H. unfold rolling.Reduce. rewrite (proper_divides w H). reflexivity. Qed.

Lemma samples_add now (v : T) w :
  rolling.samples (rolling.add now v w) = rolling.samples w ++ [v].
Proof. unfold rolling.samples, rolling.add. simpl. rewrite map_app. reflexivity. Qed.

Lemma proper_add now (v : T) w : rolling.proper (rolling.add now v w) <-> rolling.proper w.
Proof. reflexivity. Qed.

Lemma divides_add now (v : T) w :
  rolling.divides_by_zero (rolling.add now v w) = rolling.divides_by_zero w.
Proof. reflexivity. Qed.

(** A window to which nothing was appended has nothing inside. *)
Lemma inside_nil aged now w : rolling.samples w = [] -> rolling.inside aged now w = [].
Proof.
  unfold rolling.samples, rolling.inside. intros H.
  apply map_eq_nil in H. rewrite H. reflexivity.
Qed.

End WindowFacts.

Section CapacityFacts.

Context {Values World : Type}.
Variable rolling_MinimumPoints : Z -> rolling.Reduction Z -> rolling.Reduction Z.
Variable rolling_Avg : rolling.Reduction Duration.
Variable rolling_aged : rolling.Ageing.
Variable time_Now : World -> Time.

(** [float32(float64(0) / float64(limit))] is a zero when [limit] is not. *)
Lemma idle_ratio (limit : Z) :
  limit <> 0 -> is_zero (f32_of_f64 (f64_div (f64_of_int 0) (f64_of_int limit))) = true.
Proof.
  intros Hl. apply FloatFacts.f32_of_f64_zero.
  change (f64_of_int 0) with (S754_zero false).
  apply FloatFacts.zero_div_nonzero, FloatFacts.f64_of_int_nonzero, Hl.
Qed.

(** C3, as the code has it.  With no recorded activity each capacity
    reports a zero usage, never NaN and without a panic, under these
    conditions: the concurrency and landing-rate capacities need a limit
    other than 0; the latency capacity needs a limit other than 0 and a
    reduction that yields 0 on an empty window; and the windows of the
    error-rate, landing-rate and latency capacities need a positive
    number of buckets, a positive bucket duration and a size hint that is
    not negative.  A window is
    without activity when no sample is inside it at the instant of the
    call, which is so when none was appended.  The constructors deliver
    capacities to which nothing was appended, with windows of the
    configured number of buckets and bucket duration. *)
Theorem idle_usage_is_zero :
  (forall cc : CapacityConcurrency,
     cc_current cc = 0 -> cc_limit cc <> 0 ->
     is_zero (CapacityConcurrency_Usage cc) = true) /\
  (forall limit names,
     cc_current (NewCapacityConcurrency limit (map OptionConcurrencyName names)) = 0 /\
     cc_limit (NewCapacityConcurrency limit (map OptionConcurrencyName names)) = limit) /\
  (forall (cer : CapacityErrorRate) (w : World),
     rolling.proper (cer_invocations cer) -> rolling.proper (cer_errors cer) ->
     rolling.inside rolling_aged (time_Now w) (cer_errors cer) = [] ->
     cer_errReducer cer = rolling.Count ->
     exists u, CapacityErrorRate_Usage rolling_aged time_Now cer w = Some u /\
               is_zero u = true) /\
  (forall options,
     let cer := NewCapacityErrorRate rolling_MinimumPoints options in
     rolling.samples (cer_invocations cer) = [] /\
     rolling.samples (cer_errors cer) = [] /\
     cer_errReducer cer = rolling.Count /\
     (0 < cer_buckets cer -> 0 < cer_bucketDuration cer -> 0 <= cer_bucketSizeHint cer ->
      rolling.proper (cer_invocations cer) /\ rolling.proper (cer_errors cer))) /\
  (forall (clr : CapacityLandingRate) (w : World),
     rolling.proper (clr_invocations clr) ->
     rolling.inside rolling_aged (time_Now w) (clr_invocations clr) = [] ->
     clr_limit clr <> 0 ->
     exists u, CapacityLandingRate_Usage rolling_aged time_Now clr w = Some u /\
               is_zero u = true) /\
  (forall limit options,
     let clr := NewCapacityLandingRate limit options in
     rolling.samples (clr_invocations clr) = [] /\
     (0 < clr_buckets clr -> 0 < clr_bucketDuration clr -> 0 <= clr_bucketSizeHint clr ->
      rolling.proper (clr_invocations clr))) /\
  (forall (cl : CapacityLatency) (w : World),
     rolling.proper (cl_window cl) ->
     rolling.inside rolling_aged (time_Now w) (cl_window cl) = [] ->
     cl_reduction cl [] = 0 -> cl_limit cl <> 0 ->
     exists u, CapacityLatency_Usage rolling_aged time_Now cl w = Some u /\
               is_zero u = true) /\
  (forall limit options,
     let cl := NewCapacityLatency rolling_Avg limit options in
     rolling.samples (cl_window cl) = [] /\
     (0 < cl_buckets cl -> 0 < cl_bucketDuration cl -> 0 <= cl_bucketSizeHint cl ->
      rolling.proper (cl_window cl))) /\
  (forall (T : Type) (window : rolling.TimePolicy T) (now : Time),
     rolling.samples window = [] -> rolling.inside rolling_aged now window = []).
Proof.
  split; [|split; [|split; [|split; [|split; [|split; [|split; [|split]]]]]]].
  - intros cc Hc Hl. unfold CapacityConcurrency_Usage. rewrite Hc. apply idle_ratio, Hl.
  - intros limit names. split.
    + induction names as [|n names IH] using rev_ind; [reflexivity|].
      unfold NewCapacityConcurrency in *. rewrite map_app, fold_left_app. simpl. exact IH.
    + induction names as [|n names IH] using rev_ind; [reflexivity|].
      unfold NewCapacityConcurrency in *. rewrite map_app, fold_left_app. simpl. exact IH.
  - intros cer w Hpi Hpe Herr Hred. unfold CapacityErrorRate_Usage.
    rewrite (Reduce_proper _ _ _ _ Hpi), (Reduce_proper _ _ _ _ Hpe).
    destruct (cer_attemptReducer cer
                (rolling.inside rolling_aged (time_Now w) (cer_invocations cer)) =? 0) eqn:Ha.
    + exists f32_zero. split; reflexivity.
    + apply Z.eqb_neq in Ha. rewrite Herr, Hred.
      change (rolling.Count []) with 0. change (f64_of_int 0) with (S754_zero false).
      pose proof (FloatFacts.zero_div_nonzero false _ (FloatFacts.f64_of_int_nonzero _ Ha))
        as Hz.
      eexists. split; [reflexivity|].
      destruct (f64_div (S754_zero false) (f64_of_int _)); simpl in *; try discriminate.
      reflexivity.
  - intros options. cbv zeta. unfold NewCapacityErrorRate. simpl.
    repeat split; apply proper_intro; assumption.
  - intros clr w Hp Hw Hl. unfold CapacityLandingRate_Usage.
    rewrite (Reduce_proper _ _ _ _ Hp), Hw. eexists. split; [reflexivity|].
    apply idle_ratio, Hl.
  - intros limit options. cbv zeta. unfold NewCapacityLandingRate. simpl.
    split; [reflexivity|]. intros. apply proper_intro; assumption.
  - intros cl w Hp Hw Hr Hl. unfold CapacityLatency_Usage.
    rewrite (Reduce_proper _ _ _ _ Hp), Hw, Hr. eexists. split; [reflexivity|].
    apply FloatFacts.f32_of_f64_zero.
    change (Duration_Seconds 0) with (S754_zero false).
    apply FloatFacts.zero_div_nonzero, FloatFacts.Duration_Seconds_nonzero, Hl.
  - intros limit options. cbv zeta. unfold NewCapacityLatency. simpl.
    split; [reflexivity|]. intros. apply proper_intro; assumption.
  - intros T window now H. apply inside_nil, H.
Qed.

(** C4, as the code has it.  The function returned by
    [CapacityErrorRate.Wrap] runs [fn] once.  When the windows of the
    capacity are well formed (a positive number of buckets, a positive
    bucket duration, a size hint that is not negative) it hands back the
    outcome of [fn] unchanged, a returned error as well as a panic;
    whatever the outcome, exactly one sample is appended to the attempts
    window, and one sample is appended to the errors window exactly when
    [fn] returned a non-nil error or panicked; nothing else changes.  When the attempts window has 0 buckets or a
    bucket duration of 0, the deferred [Append] panics: the call ends
    with that panic whatever [fn] did, and no sample is recorded. *)
Theorem CapacityErrorRate_Wrap_records
    (fn : Fn Values (CapacityErrorRate * World)) (ctx : Context Values)
    (h : CapacityErrorRate * World) :
  let ran := fn ctx h in
  let wrapped := CapacityErrorRate_Wrap time_Now fn ctx h in
  let failed :=
    match fst ran with
    | Returned None => false
    | Returned (Some _) | Panicked _ => true
    end in
  let before := fst (snd ran) in
  let after := fst (snd wrapped) in
  let now := time_Now (snd (snd ran)) in
  (rolling.proper (cer_invocations before) -> rolling.proper (cer_errors before) ->
   fst wrapped = fst ran /\
   snd (snd wrapped) = snd (snd ran) /\
   rolling.samples (cer_invocations after) = rolling.samples (cer_invocations before) ++ [1] /\
   rolling.samples (cer_errors after) =
     (if failed then rolling.samples (cer_errors before) ++ [1]
      else rolling.samples (cer_errors before)) /\
   after =
     (if failed then cer_append_error now (cer_append_invocation now before)
      else cer_append_invocation now before)) /\
  (rolling.divides_by_zero (cer_invocations before) = true ->
   fst wrapped = Panicked rolling.divide_error /\
   snd (snd wrapped) = snd (snd ran) /\
   after = before).
Proof.
  unfold CapacityErrorRate_Wrap. cbv zeta.
  destruct (fn ctx h) as [o [self w]]. simpl fst. simpl snd. split.
  - intros Hpi Hpe. rewrite (Append_proper _ _ _ Hpi).
    assert (Hpe' : rolling.proper
                     (cer_errors (cer_with_invocations
                                    (rolling.add (time_Now w) 1 (cer_invocations self)) self)))
      by exact Hpe.
    destruct o as [[e|]|v]; simpl; rewrite ?(Append_proper _ _ _ Hpe'); simpl;
      rewrite ?samples_add; repeat split; reflexivity.
  - intros Hz. unfold rolling.Append. rewrite Hz.
    destruct o as [[e|]|v]; simpl; repeat split; reflexivity.
Qed.

(** C5. [CapacityThrottle.Usage] on a throttle with duration [d]:
    when the time since the last refresh is at least [d] it asks the
    wrapped capacity, caches and returns the answer, and records as
    refresh time the clock read after the wrapped call returned; when it
    is less than [d] it returns the cached value and leaves both the
    world and the throttle untouched, so the wrapped capacity is not
    called.  Hence a call made less than [d] after another returns the
    same value whatever has happened to the world in between, and a call
    made [d] or more after it returns what the wrapped capacity then
    answers.  The constructor measures that time by [time.Since]; the
    cache then serves every call made while the clock reads less than [d]
    past the instant at which the wrapped call returned, which is [d]
    plus the time the wrapped call took past the instant at which the
    refreshing call began. *)
Theorem CapacityThrottle_Usage_caches (self : CapacityThrottle Values World)
    (ctx : Context Values)
    (w : World) :
  let first := CapacityThrottle_Usage time_Now self ctx w in
  let value := fst (fst first) in
  let self' := snd (fst first) in
  (thr_duration self <= thr_since self (thr_last self) w ->
     let asked := Capacity_Usage (thr_Capacity self) ctx w in
     value = fst asked /\ snd first = snd asked /\
     thr_cache self' = fst asked /\
     thr_last self' = time_Now (snd asked)) /\
  (thr_since self (thr_last self) w < thr_duration self ->
     first = (thr_cache self, self, w)) /\
  (thr_Capacity self' = thr_Capacity self /\ thr_duration self' = thr_duration self /\
   thr_since self' = thr_since self /\ thr_cache self' = value) /\
  (forall (ctx2 : Context Values) (w2 : World),
     thr_since self' (thr_last self') w2 < thr_duration self' ->
     CapacityThrottle_Usage time_Now self' ctx2 w2 = (value, self', w2)) /\
  (forall (ctx2 : Context Values) (w2 : World),
     thr_duration self' <= thr_since self' (thr_last self') w2 ->
     fst (fst (CapacityThrottle_Usage time_Now self' ctx2 w2))
       = fst (Capacity_Usage (thr_Capacity self) ctx2 w2)) /\
  (thr_since self = time_Since time_Now -> minDuration < thr_duration self ->
   forall (ctx2 : Context Values) (w2 : World),
     time_Now w2 - thr_last self' < thr_duration self ->
     CapacityThrottle_Usage time_Now self' ctx2 w2 = (value, self', w2)) /\
  (forall (wrapped : Capacity Values World) d t w0,
     thr_since (NewCapacityThrottle time_Now wrapped d) t w0 = Time_Sub (time_Now w0) t /\
     thr_duration (NewCapacityThrottle time_Now wrapped d) = d).
Proof.
  assert (Hhit : forall (s : CapacityThrottle Values World) c w0,
            thr_since s (thr_last s) w0 < thr_duration s ->
            CapacityThrottle_Usage time_Now s c w0 = (thr_cache s, s, w0)).
  { intros s c w0 H. unfold CapacityThrottle_Usage.
    apply Z.leb_gt in H. rewrite H. reflexivity. }
  assert (Hmiss : forall (s : CapacityThrottle Values World) c w0,
            thr_duration s <= thr_since s (thr_last s) w0 ->
            CapacityThrottle_Usage time_Now s c w0 =
              (fst (Capacity_Usage (thr_Capacity s) c w0),
               {| thr_Capacity := thr_Capacity s; thr_duration := thr_duration s;
                  thr_last := time_Now (snd (Capacity_Usage (thr_Capacity s) c w0));
                  thr_cache := fst (Capacity_Usage (thr_Capacity s) c w0);
                  thr_now := thr_now s; thr_since := thr_since s |},
               snd (Capacity_Usage (thr_Capacity s) c w0))).
  { intros s c w0 H. unfold CapacityThrottle_Usage.
    apply Z.leb_le in H. rewrite H.
    destruct (Capacity_Usage (thr_Capacity s) c w0). reflexivity. }
  intros first value self'.
  assert (Hfields : thr_Capacity self' = thr_Capacity self /\
                    thr_duration self' = thr_duration self /\
                    thr_since self' = thr_since self /\ thr_cache self' = value).
  { subst value self' first.
    destruct (Z_le_gt_dec (thr_duration self) (thr_since self (thr_last self) w)) as [H|H].
    - rewrite Hmiss by exact H. simpl. auto.
    - rewrite Hhit by lia. simpl. auto. }
  split; [|split; [|split; [|split; [|split; [|split]]]]].
  - intros H asked. subst value self' first asked. rewrite Hmiss by exact H. simpl. auto.
  - intros H. subst first. apply Hhit, H.
  - exact Hfields.
  - intros ctx2 w2 H. rewrite Hhit by exact H.
    destruct Hfields as (_ & _ & _ & ->). reflexivity.
  - intros ctx2 w2 H. rewrite Hmiss by exact H. simpl.
    destruct Hfields as (-> & _). reflexivity.
  - intros Hsince Hd ctx2 w2 H.
    destruct Hfields as (_ & Hdur & Hs & Hc).
    rewrite Hhit; [rewrite Hc; reflexivity|].
    rewrite Hs, Hsince, Hdur. unfold time_Since, Time_Sub. lia.
  - intros wrapped d t w0. split; reflexivity.
Qed.

End CapacityFacts.

(** ** The properties at the test doubles *)

Module Instances.

Import Fixtures.

(** A shedder whose only rule rejects: [Do] returns the rule's rejection
    with the classification the classifier gave, and the observing action
    has seen nothing. *)
Lemma Do_rejection_skips_action_witness :
  Do shedRule background fnObserve state0 =
    (rejected {| rej_Rule := "static"; rej_Classification := "TEST";
                 rej_Name := ""; rej_Usage := f32_zero;
                 rej_Likelihood := f32_zero; rej_Rate := f32_zero |},
     {| world := world0;
        calls := [EvClassify background "TEST";
                  EvReject 0 (ClassificationToContext background "TEST") true;
                  EvRuleName 0 (ClassificationToContext background "TEST") "static"] |}).
Proof.
  apply (Do_rejection_skips_action shedRule background fnObserve state0). reflexivity.
Defined.

(** A throttle refreshed at some instant answers a call made 1.5ms later
    from its cache although the true usage has become 1, and asks again
    3ms later. *)
Lemma CapacityThrottle_Usage_caches_witness :
  let first := CapacityThrottle_Usage tw_clock throttle background world0 in
  let th := snd (fst first) in
  fst (fst first) = f32_zero /\
  thr_last th = tw_clock world0 + Millisecond /\
  CapacityThrottle_Usage tw_clock th background (later 1500000 f32_one (snd first))
    = (f32_zero, th, later 1500000 f32_one (snd first)) /\
  fst (fst (CapacityThrottle_Usage tw_clock th background (later 3000000 f32_one (snd first))))
    = f32_one.
Proof.
  pose proof (CapacityThrottle_Usage_caches tw_clock throttle background world0) as H.
  cbv zeta in H. destruct H as (Hmiss & _ & _ & Hhit & Hagain & _).
  intros first th. subst first th.
  split; [apply Hmiss; vm_compute; discriminate|].
  split; [apply Hmiss; vm_compute; discriminate|].
  split.
  - apply Hhit. vm_compute. reflexivity.
  - rewrite Hagain; [reflexivity | vm_compute; discriminate].
Defined.

(** The second rate of [shedRates] is fixed at 1 and is reached, the
    first one being fixed at 0: with the draw 0 it rejects. *)
Lemma Select_rate_extremes_witness :
  fst (Select shedRates background state0) =
    Some {| rej_Rule := "PROBABILISTIC"; rej_Classification := "";
            rej_Name := "static"; rej_Usage := f32_one;
            rej_Likelihood := f32_one; rej_Rate := f32_one |}.
Proof.
  apply (Select_rate_extremes shedRates background state0
           [staticCountingRate f32_zero] [] (staticCountingRate f32_one)
           state0
           {| world := world0;
              calls := [EvRate 0 background f32_zero; EvRand f32_zero] |});
    reflexivity.
Defined.

(** A fresh concurrency capacity with limit 4 and a fresh error-rate
    capacity with its default windows, as in the tests. *)
Lemma idle_usage_is_zero_witness :
  is_zero (CapacityConcurrency_Usage (NewCapacityConcurrency 4 [])) = true /\
  exists u,
    CapacityErrorRate_Usage slidingWindow tw_clock
      (NewCapacityErrorRate (fun _ r => r) []) world0 = Some u /\
    is_zero u = true.
Proof.
  destruct (@idle_usage_is_zero TestWorld (fun _ r => r) (fun _ => 0) slidingWindow tw_clock)
    as (Hcc & _ & Hcer & _).
  split.
  - apply Hcc; [reflexivity | discriminate].
  - apply Hcer.
    + reflexivity.
    + reflexivity.
    + reflexivity.
    + reflexivity.
Defined.

(** With limit 0 a fresh concurrency capacity, a fresh landing-rate
    capacity and a fresh latency capacity report NaN; a latency capacity
    whose reduction answers one second on an empty window reports 1.  A
    fresh error-rate capacity configured with 0 buckets, and a fresh
    landing-rate capacity configured with a bucket duration of 0, panic
    with an integer division by zero on [Usage]. *)
Lemma idle_usage_nan_at_limit_zero :
  cc_current (NewCapacityConcurrency 0 []) = 0 /\
  CapacityConcurrency_Usage (NewCapacityConcurrency 0 []) = S754_nan /\
  CapacityLandingRate_Usage slidingWindow tw_clock (NewCapacityLandingRate 0 []) world0
    = Some S754_nan /\
  CapacityLatency_Usage slidingWindow tw_clock (NewCapacityLatency (fun _ => 0) 0 []) world0
    = Some S754_nan /\
  CapacityLatency_Usage slidingWindow tw_clock
    (NewCapacityLatency (fun _ => 0) Second [OptionLatencyReduction (fun _ => Second)]) world0
    = Some f32_one /\
  CapacityErrorRate_Usage slidingWindow tw_clock
    (NewCapacityErrorRate (fun _ r => r) [OptionErrorRateWindowBuckets 0]) world0 = None /\
  CapacityLandingRate_Usage slidingWindow tw_clock
    (NewCapacityLandingRate 4 [OptionLandingRateBucketDuration 0]) world0 = None /\
  ~ (forall limit : Z,
       is_zero (CapacityConcurrency_Usage (NewCapacityConcurrency limit [])) = true) /\
  ~ (forall options,
       exists u,
         CapacityErrorRate_Usage slidingWindow tw_clock
           (NewCapacityErrorRate (fun _ r => r) options) world0 = Some u /\
         is_zero u = true).
Proof.
  repeat split; try (vm_compute; reflexivity).
  - intros H. specialize (H 0). vm_compute in H. discriminate.
  - intros H. destruct (H [OptionErrorRateWindowBuckets 0]) as (u & Hu & _).
    vm_compute in Hu. discriminate.
Defined.

(** An error-rate capacity configured with 0 buckets: the wrapped
    function panics although the action returned nil, and records
    nothing. *)
Lemma CapacityErrorRate_Wrap_panics_without_buckets :
  let c := NewCapacityErrorRate (fun _ r => r) [OptionErrorRateWindowBuckets 0] in
  let ok : Fn unit (CapacityErrorRate * TestWorld) := fun _ h => (Returned None, h) in
  ok background (c, world0) = (Returned None, (c, world0)) /\
  CapacityErrorRate_Wrap tw_clock ok background (c, world0)
    = (Panicked rolling.divide_error, (c, world0)) /\
  ~ (forall (fn : Fn unit (CapacityErrorRate * TestWorld)) ctx h,
       fst (CapacityErrorRate_Wrap tw_clock fn ctx h) = fst (fn ctx h)).
Proof.
  cbv zeta. split; [reflexivity|]. split; [reflexivity|].
  intros H.
  specialize (H (fun _ h => (Returned None, h)) background
                (NewCapacityErrorRate (fun _ r => r) [OptionErrorRateWindowBuckets 0], world0)).
  discriminate H.
Defined.

(** One success and one failure with the default windows: both
    attempts are recorded, and the failure alone as an error. *)
Lemma CapacityErrorRate_Wrap_records_witness :
  let c := NewCapacityErrorRate (fun _ r => r) [] in
  let ok : Fn unit (CapacityErrorRate * TestWorld) := fun _ h => (Returned None, h) in
  let h1 := snd (CapacityErrorRate_Wrap tw_clock ok background (c, world0)) in
  let r2 := CapacityErrorRate_Wrap tw_clock fnFail background h1 in
  fst r2 = Returned (Some (Err_Other "TEST")) /\
  rolling.samples (cer_invocations (fst (snd r2))) = [1; 1] /\
  rolling.samples (cer_errors (fst (snd r2))) = [1].
Proof.
  intros c ok h1 r2.
  destruct (CapacityErrorRate_Wrap_records tw_clock fnFail background h1) as [H _].
  cbv zeta in H.
  assert (Hi : rolling.proper (cer_invocations (fst (snd (fnFail background h1)))))
    by reflexivity.
  assert (He : rolling.proper (cer_errors (fst (snd (fnFail background h1)))))
    by reflexivity.
  destruct (H Hi He) as (Ho & _ & Hsi & Hse & _). subst r2.
  rewrite Ho, Hsi, Hse. repeat split.
Defined.

(** With the classifier of the tests the action observes ["TEST"], the
    classifier having been called once. *)
Lemma Do_classification_witness :
  exists log,
    calls (snd (Do shedClassified background fnObserve state0))
      = EvClassify background "TEST" :: log /\
    count is_classify log = 0%nat /\
    Forall (hands (ClassificationToContext background "TEST")) log.
Proof.
  destruct (Do_classification shedClassified background fnObserve state0) as [H _].
  destruct (H testClassifier eq_refl) as (_ & log & Hlog & Hcount & Hhands & _).
  exists log. repeat split; assumption.
Defined.

(** Without a classifier the caller's context reaches rates and action as
    it came: a caller that attached ["HIGH"] has it observed, by the rate
    and by the action, so the classification does not always read as
    empty. *)
Lemma no_classifier_keeps_caller_classification :
  classifier shedUnclassified = None /\
  (let ctx := ClassificationToContext background "HIGH" in
   tw_seen (world (snd (Do shedUnclassified ctx fnObserve state0))) = ["HIGH"%string] /\
   calls (snd (Do shedUnclassified ctx fnObserve state0)) =
     [EvRate 0 ctx f32_zero; EvRand f32_zero; EvWrap 0; EvInvoke ctx (Returned None)]) /\
  ~ (forall (self : Shedder unit TestWorld) ctx fn st,
       classifier self = None ->
       Forall (fun e => forall c, event_ctx e = Some c ->
                                  ClassificationFromContext c = EmptyString)
              (calls (snd (Do self ctx fn st)))).
Proof.
  split; [reflexivity|]. split; [split; reflexivity|].
  intros H.
  specialize (H shedUnclassified (ClassificationToContext background "HIGH")
                fnObserve state0 eq_refl).
  apply Forall_inv in H. specialize (H _ eq_refl). discriminate H.
Defined.

(** *** The package's tests, replayed on the embedding *)

(** TestShedderDoAllRejection: a rate fixed at 1 rejects with every field
    at 1, under the classification of the classifier. *)
Example test_ShedderDoAllRejection :
  fst (Do (NewShedder zeroRandom
             [OptionShedderRejectionRate (staticCountingRate f32_one);
              OptionShedderClassifier testClassifier])
          background fnNil state0)
  = rejected {| rej_Rule := RuleProbabilistic; rej_Classification := "TEST";
                rej_Name := nameStatic; rej_Usage := f32_one;
                rej_Likelihood := f32_one; rej_Rate := f32_one |}.
Proof. reflexivity. Qed.

(** TestShedderDoAppliesClassification: the action finds ["TEST"] in its
    context, and the rate's wrapper has counted the invocation. *)
Example test_ShedderDoAppliesClassification :
  let r := Do shedClassified background fnObserve state0 in
  fst r = Returned None /\
  tw_seen (world (snd r)) = ["TEST"%string] /\
  tw_count (world (snd r)) = 1.
Proof. repeat split. Qed.

(** TestAggregatorConcurrency: with limit 4, two invocations in flight
    give 0.5, four give 1, none gives 0. *)
Example test_AggregatorConcurrency :
  let c := NewCapacityConcurrency 4 [] in
  CapacityConcurrency_Usage c = f32_zero /\
  CapacityConcurrency_Usage (CapacityConcurrency_Add 1 (CapacityConcurrency_Add 1 c))
    = f32_half /\
  CapacityConcurrency_Usage (CapacityConcurrency_Add 4 c) = f32_one /\
  CapacityConcurrency_Usage (CapacityConcurrency_Done 4 (CapacityConcurrency_Add 4 c))
    = f32_zero.
Proof. repeat split. Qed.

(** TestCapacityErrorRate_Usage: one failure in two invocations gives
    0.5; a panic counts as a failure and is passed on. *)
Example test_CapacityErrorRate_Usage :
  let c := NewCapacityErrorRate (fun _ r => r) [] in
  let ok : Fn unit (CapacityErrorRate * TestWorld) := fun _ h => (Returned None, h) in
  let boom : Fn unit (CapacityErrorRate * TestWorld) := fun _ h => (Panicked "boom", h) in
  let h1 := snd (CapacityErrorRate_Wrap tw_clock ok background (c, world0)) in
  let h2 := snd (CapacityErrorRate_Wrap tw_clock fnFail background h1) in
  let r3 := CapacityErrorRate_Wrap tw_clock boom background h1 in
  CapacityErrorRate_Usage slidingWindow tw_clock c world0 = Some f32_zero /\
  CapacityErrorRate_Usage slidingWindow tw_clock (fst h1) (snd h1) = Some f32_zero /\
  CapacityErrorRate_Usage slidingWindow tw_clock (fst h2) (snd h2) = Some f32_half /\
  fst r3 = Panicked "boom" /\
  CapacityErrorRate_Usage slidingWindow tw_clock (fst (snd r3)) (snd (snd r3))
    = Some f32_half.
Proof. repeat split. Qed.

(** TestCapacityLandingRate: with limit 4 and 10 buckets of 1ms, two
    starts give 0.5, four give 1, and 10ms later the window is empty
    again. *)
Example test_CapacityLandingRate :
  let c := NewCapacityLandingRate 4
             [OptionLandingRateWindowBuckets 10; OptionLandingRateBucketDuration Millisecond] in
  let ok : Fn unit (CapacityLandingRate * TestWorld) := fun _ h => (Returned None, h) in
  let h1 := snd (CapacityLandingRate_Wrap tw_clock ok background (c, world0)) in
  let h2 := snd (CapacityLandingRate_Wrap tw_clock ok background h1) in
  let h3 := snd (CapacityLandingRate_Wrap tw_clock ok background h2) in
  let h4 := snd (CapacityLandingRate_Wrap tw_clock ok background h3) in
  CapacityLandingRate_Usage slidingWindow tw_clock c world0 = Some f32_zero /\
  CapacityLandingRate_Usage slidingWindow tw_clock (fst h2) (snd h2) = Some f32_half /\
  CapacityLandingRate_Usage slidingWindow tw_clock (fst h4) (snd h4) = Some f32_one /\
  CapacityLandingRate_Usage slidingWindow tw_clock (fst h4)
    (later (10 * Millisecond) f32_zero (snd h4)) = Some f32_zero.
Proof. repeat split. Qed.

End Instances.

(** ** Further properties of the Shedder *)

Section MoreShedderFacts.

Context {Values World : Type}.
Implicit Types (ctx : Context Values) (st : State Values World).
Implicit Types (self : Shedder Values World).

(** X1. What [ClassificationToContext] attaches is what
    [ClassificationFromContext] reads back; attaching again replaces the
    earlier classification; the other values of the context are kept; and
    attaching the empty classification reads like attaching none. *)
Theorem classification_round_trip (ctx : Context Values) (class class' : Classification) :
  ClassificationFromContext (ClassificationToContext ctx class) = class /\
  ClassificationToContext (ClassificationToContext ctx class') class
    = ClassificationToContext ctx class /\
  ctx_values (ClassificationToContext ctx class) = ctx_values ctx /\
  ClassificationFromContext (ClassificationToContext ctx EmptyString)
    = ClassificationFromContext (Background (ctx_values ctx)).
Proof. repeat split. Qed.

Lemma NewShedder_snoc (rand : World -> float32 * World)
    (opts : list (OptionShedder Values World)) (opt : OptionShedder Values World) :
  NewShedder rand (opts ++ [opt]) = opt (NewShedder rand opts).
Proof. unfold NewShedder. rewrite fold_left_app. reflexivity. Qed.

(** X2. [NewShedder] registers rules and rates in the order of its
    options: a run of rule options appends its rules, in order, after the
    rules registered before it and touches nothing else, and likewise for
    rates; of several classifier options, or random sources, the last one
    stands. *)
Theorem NewShedder_registration_order (rand : World -> float32 * World)
    (opts : list (OptionShedder Values World)) :
  (forall rs : list (Rule Values World),
     let s := NewShedder rand (opts ++ map OptionShedderRule rs) in
     rules s = rules (NewShedder rand opts) ++ rs /\
     rejectionRates s = rejectionRates (NewShedder rand opts) /\
     classifier s = classifier (NewShedder rand opts) /\
     randFloat s = randFloat (NewShedder rand opts)) /\
  (forall qs : list (RejectionRate Values World),
     let s := NewShedder rand (opts ++ map OptionShedderRejectionRate qs) in
     rejectionRates s = rejectionRates (NewShedder rand opts) ++ qs /\
     rules s = rules (NewShedder rand opts) /\
     classifier s = classifier (NewShedder rand opts) /\
     randFloat s = randFloat (NewShedder rand opts)) /\
  (forall c : Classifier Values World,
     let s := NewShedder rand (opts ++ [OptionShedderClassifier c]) in
     classifier s = Some c /\
     rules s = rules (NewShedder rand opts) /\
     rejectionRates s = rejectionRates (NewShedder rand opts)) /\
  (forall r : World -> float32 * World,
     let s := NewShedder rand (opts ++ [OptionShedderRandom r]) in
     randFloat s = r /\
     rules s = rules (NewShedder rand opts) /\
     rejectionRates s = rejectionRates (NewShedder rand opts)) /\
  rules (@NewShedder Values World rand []) = [] /\
  rejectionRates (@NewShedder Values World rand []) = [] /\
  classifier (@NewShedder Values World rand []) = None /\
  randFloat (@NewShedder Values World rand []) = rand.
Proof.
  split; [|split; [|split; [|split]]].
  - intros rs. induction rs as [|r rs IH] using rev_ind; cbv zeta.
    + simpl. rewrite !app_nil_r. auto.
    + rewrite map_app, app_assoc. simpl map. rewrite NewShedder_snoc.
      cbv zeta in IH. destruct IH as (H1 & H2 & H3 & H4).
      simpl. rewrite H1, H2, H3, H4, <- app_assoc. auto.
  - intros qs. induction qs as [|q qs IH] using rev_ind; cbv zeta.
    + simpl. rewrite !app_nil_r. auto.
    + rewrite map_app, app_assoc. simpl map. rewrite NewShedder_snoc.
      cbv zeta in IH. destruct IH as (H1 & H2 & H3 & H4).
      simpl. rewrite H1, H2, H3, H4, <- app_assoc. auto.
  - intros c. cbv zeta. rewrite NewShedder_snoc. auto.
  - intros r. cbv zeta. rewrite NewShedder_snoc. auto.
  - auto.
Qed.

(** X3. A shedder without rules and without rates rejects nothing:
    [Select] returns nil without drawing, and [Do] invokes the action, on
    the context the classification step produced, and returns its
    outcome, a panic included. *)
Theorem empty_shedder_runs_the_action self ctx (fn : Fn Values World) st :
  rules self = [] -> rejectionRates self = [] ->
  Select self ctx st = (None, st) /\
  let cs := classify self ctx st in
  let ran := fn (fst cs) (world (snd cs)) in
  Do self ctx fn st =
    (fst ran, {| world := snd ran;
                 calls := calls (snd cs) ++ [EvInvoke (fst cs) (fst ran)] |}).
Proof.
  intros Hr Hq.
  assert (HS : forall c s, Select self c s = (None, s)).
  { intros c s. unfold Select, bind. rewrite Hr, Hq. reflexivity. }
  split; [apply HS|].
  cbv zeta. rewrite Do_eq. cbv zeta. rewrite HS, Hq. reflexivity.
Qed.

(** X4. A rate that is NaN never rejects, and neither does a draw that is
    NaN: when [Select] reaches such a rate, the decision moves on to the
    rates registered after it. *)
Theorem Select_nan_never_rejects self ctx st
    (pre post : list (RejectionRate Values World)) (r : RejectionRate Values World)
    (s1 s2 : State Values World) :
  rejectionRates self = pre ++ r :: post ->
  select_rules ctx 0 (rules self) st = (None, s1) ->
  select_rates (randFloat self) ctx 0 pre s1 = (None, s2) ->
  let rate := fst (RR_Rate r ctx (world s2)) in
  let w1 := snd (RR_Rate r ctx (world s2)) in
  let draw := fst (randFloat self w1) in
  let w2 := snd (randFloat self w1) in
  IsNaN rate = true \/ IsNaN draw = true ->
  Select self ctx st =
    select_rates (randFloat self) ctx (S (length pre)) post
      {| world := w2;
         calls := calls s2 ++ [EvRate (length pre) ctx rate; EvRand draw] |}.
Proof.
  intros Hrates Hrules Hpre rate w1 draw w2 Hnan.
  unfold Select, bind. rewrite Hrules, Hrates, select_rates_app, Hpre.
  rewrite select_rates_cons. cbv zeta. fold rate w1. fold draw w2.
  assert (Hno : flt draw rate = false).
  { unfold flt, SFltb, SFcompare.
    destruct Hnan as [H|H]; [destruct rate | destruct draw]; try discriminate H;
      [destruct draw|]; reflexivity. }
  rewrite Hno. reflexivity.
Qed.

(** X5. When [Select] accepts, [Do] returns what the wrapped action
    returns on the context produced by the classification step, in the
    world [Select] left.  The wrappers nest in registration order: the
    wrapper of the rate registered last is the outermost one, and a rate
    without a [Wrap] method adds none. *)
Theorem Do_runs_the_wrapped_action self ctx (fn : Fn Values World) st :
  let cs := classify self ctx st in
  let ss := Select self (fst cs) (snd cs) in
  (fst ss = None ->
     fst (Do self ctx fn st)
       = fst (wrapped (rejectionRates self) fn (fst cs) (world (snd ss))) /\
     world (snd (Do self ctx fn st))
       = snd (wrapped (rejectionRates self) fn (fst cs) (world (snd ss)))) /\
  (forall (rs : list (RejectionRate Values World)) (r : RejectionRate Values World),
     wrapped (rs ++ [r]) fn =
       match Capacity_Wrapper r with
       | Some w => w (wrapped rs fn)
       | None => wrapped rs fn
       end) /\
  wrapped [] fn = fn.
Proof.
  cbv zeta. split; [|split].
  - intros Hacc. rewrite Do_eq. cbv zeta. rewrite Hacc. split; reflexivity.
  - intros rs r. unfold wrapped. rewrite fold_left_app. reflexivity.
  - reflexivity.
Qed.

End MoreShedderFacts.

(** ** Further properties of the capacities *)

Module MoreFloatFacts.

Import FloatFacts.

(** A finite binary64 number divided by itself is 1. *)
Lemma f64_div_self (s : bool) (m : positive) (e : Z) :
  f64_div (S754_finite s m e) (S754_finite s m e) = S754_finite false 4503599627370496 (-52).
Proof.
  unfold f64_div, SFdiv, SFdiv_core_binary. simpl Zdigits2.
  replace (Zpos (digits2_pos m) + e - (Zpos (digits2_pos m) + e)) with 0 by lia.
  replace (e - e) with 0 by lia.
  change (Z.min (fexp prec64 emax64 0) 0) with (-53).
  change (0 - -53) with 53.
  cbv iota beta.
  rewrite Z.shiftl_mul_pow2 by lia.
  assert (Hq : Z.div_eucl (Zpos m * 2 ^ 53) (Zpos m) = (2 ^ 53, 0)).
  { pose proof (Z.div_mul (2 ^ 53) (Zpos m) ltac:(lia)) as Hd.
    pose proof (Z.mod_mul (2 ^ 53) (Zpos m) ltac:(lia)) as Hm.
    rewrite (Z.mul_comm (Zpos m)).
    unfold Z.div, Z.modulo in Hd, Hm.
    destruct (Z.div_eucl (2 ^ 53 * Zpos m) (Zpos m)) as [q r].
    simpl in Hd, Hm. subst. reflexivity. }
  rewrite Hq.
  assert (Hl : new_location (Zpos m) 0 = loc_Exact).
  { unfold new_location, new_location_even, new_location_odd.
    destruct (Z.even (Zpos m)); reflexivity. }
  rewrite Hl. destruct s; vm_compute; reflexivity.
Qed.

(** [float32(float64(n) / float64(n))] is 1 for an integer other than 0
    that binary64 holds exactly. *)
Lemma ratio_self (n : Z) :
  n <> 0 -> Z.abs n < 2 ^ 53 ->
  f32_of_f64 (f64_div (f64_of_int n) (f64_of_int n)) = f32_one.
Proof.
  intros Hn Hb. destruct (f64_of_int_small n Hn Hb) as (mz & e & Hx & _).
  rewrite Hx, f64_div_self. vm_compute. reflexivity.
Qed.

(** [float32(float64(0) / float64(n))] is +0 for a positive integer. *)
Lemma ratio_zero (n : Z) :
  0 < n -> f32_of_f64 (f64_div (f64_of_int 0) (f64_of_int n)) = f32_zero.
Proof.
  intros Hn. pose proof (f64_of_int_signed n ltac:(lia)) as Hs.
  replace (n <? 0) with false in Hs by (symmetry; apply Z.ltb_ge; lia).
  change (f64_of_int 0) with (S754_zero false).
  destruct (f64_of_int n); simpl in Hs; try contradiction.
  - subst. reflexivity.
  - destruct Hs as [-> _]. reflexivity.
Qed.

Lemma wrap32_id (n : Z) : - 2 ^ 31 <= n < 2 ^ 31 -> wrap32 n = n.
Proof.
  intros Hn. unfold wrap32. rewrite Z.mod_small by lia. lia.
Qed.

Lemma wrap32_range (n : Z) : - 2 ^ 31 <= wrap32 n < 2 ^ 31.
Proof.
  unfold wrap32. pose proof (Z.mod_pos_bound (n + 2 ^ 31) (2 ^ 32) ltac:(lia)). lia.
Qed.

Lemma wrap32_add (a b : Z) : wrap32 (wrap32 a + wrap32 b) = wrap32 (a + b).
Proof.
  unfold wrap32. change (2 ^ 31) with 2147483648. change (2 ^ 32) with 4294967296.
  Z.to_euclidean_division_equations. lia.
Qed.

Lemma wrap32_add_r (a b : Z) : wrap32 (a + wrap32 b) = wrap32 (a + b).
Proof.
  unfold wrap32. change (2 ^ 31) with 2147483648. change (2 ^ 32) with 4294967296.
  Z.to_euclidean_division_equations. lia.
Qed.

End MoreFloatFacts.

Section MoreCapacityFacts.

Context {Values World : Type}.
Variable rolling_aged : rolling.Ageing.
Variable time_Now : World -> Time.

Lemma Done_Add (n : Z) (c : CapacityConcurrency) :
  - 2 ^ 31 <= cc_current c < 2 ^ 31 ->
  CapacityConcurrency_Done n (CapacityConcurrency_Add n c) = c.
Proof.
  intros Hc. destruct c as [name limit current]. simpl in Hc.
  unfold CapacityConcurrency_Done, CapacityConcurrency_Add. simpl. f_equal.
  rewrite MoreFloatFacts.wrap32_add.
  replace (current + n + - n) with current by lia.
  apply MoreFloatFacts.wrap32_id, Hc.
Qed.

(** X6. [CapacityConcurrency.Wrap] is balanced.  The action runs with
    the counter one higher, and when it leaves the counter alone the
    wrapped function hands the capacity back exactly as it found it,
    whether the action returned or panicked; the outcome is the action's.
    More generally [Done(n)] undoes [Add(n)], wrap-around included. *)
Theorem CapacityConcurrency_Wrap_balanced
    (fn : Fn Values (CapacityConcurrency * World)) (ctx : Context Values)
    (c : CapacityConcurrency) (w : World) :
  - 2 ^ 31 <= cc_current c < 2 ^ 31 ->
  leaves_cell fn ->
  let ran := fn ctx (CapacityConcurrency_Add 1 c, w) in
  CapacityConcurrency_Wrap fn ctx (c, w) = (fst ran, (c, snd (snd ran))) /\
  forall n, CapacityConcurrency_Done n (CapacityConcurrency_Add n c) = c.
Proof.
  intros Hc Hfn ran. split; [|intros n; apply Done_Add, Hc].
  unfold CapacityConcurrency_Wrap. subst ran.
  specialize (Hfn ctx (CapacityConcurrency_Add 1 c) w).
  destruct (fn ctx (CapacityConcurrency_Add 1 c, w)) as [o [c' w']].
  simpl in *. subst c'. rewrite Done_Add by exact Hc. reflexivity.
Qed.

(** X7. With as many invocations in flight as the limit allows the
    concurrency capacity reports exactly 1, for every limit other
    than 0. *)
Theorem CapacityConcurrency_usage_at_limit (c : CapacityConcurrency) :
  cc_limit c <> 0 ->
  - 2 ^ 31 <= cc_limit c < 2 ^ 31 ->
  cc_current c = cc_limit c ->
  CapacityConcurrency_Usage c = f32_one.
Proof.
  intros Hl Hr Hc. unfold CapacityConcurrency_Usage. rewrite Hc.
  apply MoreFloatFacts.ratio_self; [exact Hl | lia].
Qed.

(** One wrapped invocation of an action that leaves the error-rate
    capacity alone, on windows that work. *)
Lemma CapacityErrorRate_Wrap_step
    (fn : Fn Values (CapacityErrorRate * World)) (ctx : Context Values)
    (c : CapacityErrorRate) (w : World) :
  leaves_cell fn ->
  rolling.proper (cer_invocations c) -> rolling.proper (cer_errors c) ->
  let now := time_Now (snd (snd (fn ctx (c, w)))) in
  CapacityErrorRate_Wrap time_Now fn ctx (c, w) =
    (fst (fn ctx (c, w)),
     (if failed (fst (fn ctx (c, w)))
      then cer_append_error now (cer_append_invocation now c)
      else cer_append_invocation now c,
      snd (snd (fn ctx (c, w))))).
Proof.
  intros Hfn Hpi Hpe. specialize (Hfn ctx c w). cbv zeta. unfold CapacityErrorRate_Wrap.
  destruct (fn ctx (c, w)) as [o [c' w']]. simpl in Hfn. subst c'. simpl fst. simpl snd.
  rewrite (Append_proper _ _ _ Hpi).
  assert (Hpe' : rolling.proper
                   (cer_errors (cer_with_invocations
                                  (rolling.add (time_Now w') 1 (cer_invocations c)) c)))
    by exact Hpe.
  destruct o as [[e|]|v]; simpl; rewrite ?(Append_proper _ _ _ Hpe'); reflexivity.
Qed.

(** The same on a capacity whose attempts window divides by zero. *)
Lemma CapacityErrorRate_Wrap_step_broken
    (fn : Fn Values (CapacityErrorRate * World)) (ctx : Context Values)
    (c : CapacityErrorRate) (w : World) :
  leaves_cell fn ->
  rolling.divides_by_zero (cer_invocations c) = true ->
  CapacityErrorRate_Wrap time_Now fn ctx (c, w) =
    (Panicked rolling.divide_error, (c, snd (snd (fn ctx (c, w))))).
Proof.
  intros Hfn Hz. specialize (Hfn ctx c w). unfold CapacityErrorRate_Wrap.
  destruct (fn ctx (c, w)) as [o [c' w']]. simpl in Hfn. subst c'.
  unfold rolling.Append. rewrite Hz. destruct o as [[e|]|v]; reflexivity.
Qed.

Lemma CapacityErrorRate_run
    (fns : list (Fn Values (CapacityErrorRate * World))) (ctx : Context Values) :
  Forall leaves_cell fns ->
  forall (c : CapacityErrorRate) (w : World),
    rolling.proper (cer_invocations c) -> rolling.proper (cer_errors c) ->
    let r := invoke_each (CapacityErrorRate_Wrap time_Now) fns ctx (c, w) in
    length (fst r) = length fns /\
    rolling.samples (cer_invocations (fst (snd r)))
      = rolling.samples (cer_invocations c) ++ repeat 1 (length fns) /\
    rolling.samples (cer_errors (fst (snd r)))
      = rolling.samples (cer_errors c) ++ repeat 1 (length (List.filter failed (fst r))) /\
    cer_attemptReducer (fst (snd r)) = cer_attemptReducer c /\
    cer_errReducer (fst (snd r)) = cer_errReducer c /\
    rolling.proper (cer_invocations (fst (snd r))) /\
    rolling.proper (cer_errors (fst (snd r))).
Proof.
  induction 1 as [|fn fns Hfn _ IH]; intros c w Hpi Hpe; cbv zeta.
  - simpl. rewrite !app_nil_r. auto 10.
  - cbn [invoke_each].
    pose proof (CapacityErrorRate_Wrap_step fn ctx c w Hfn Hpi Hpe) as Hstep.
    cbv zeta in Hstep. rewrite Hstep. clear Hstep.
    set (o := fst (fn ctx (c, w))). set (w' := snd (snd (fn ctx (c, w)))).
    set (c' := if failed o
               then cer_append_error (time_Now w') (cer_append_invocation (time_Now w') c)
               else cer_append_invocation (time_Now w') c).
    assert (Hpi' : rolling.proper (cer_invocations c'))
      by (subst c'; destruct (failed o); exact Hpi).
    assert (Hpe' : rolling.proper (cer_errors c'))
      by (subst c'; destruct (failed o); exact Hpe).
    specialize (IH c' w' Hpi' Hpe'). cbv zeta in IH.
    destruct (invoke_each (CapacityErrorRate_Wrap time_Now) fns ctx (c', w')) as [os h2].
    simpl in *. destruct IH as (Hlen & Hinv & Herr & Ha & He & Hqi & Hqe).
    rewrite Hlen, Hinv, Herr, Ha, He. subst c'.
    destruct (failed o); simpl; rewrite ?samples_add, <- ?app_assoc; auto 10.
Qed.

Lemma CapacityErrorRate_run_broken
    (fns : list (Fn Values (CapacityErrorRate * World))) (ctx : Context Values)
    (c : CapacityErrorRate) :
  Forall leaves_cell fns ->
  rolling.divides_by_zero (cer_invocations c) = true ->
  forall w : World,
    let r := invoke_each (CapacityErrorRate_Wrap time_Now) fns ctx (c, w) in
    fst (snd r) = c /\
    Forall (fun o => o = Panicked rolling.divide_error) (fst r).
Proof.
  intros Hfns Hz. induction Hfns as [|fn fns Hfn _ IH]; intros w; cbv zeta.
  - simpl. auto.
  - cbn [invoke_each]. rewrite (CapacityErrorRate_Wrap_step_broken fn ctx c w Hfn Hz).
    specialize (IH (snd (snd (fn ctx (c, w))))). cbv zeta in IH.
    destruct (invoke_each (CapacityErrorRate_Wrap time_Now) fns ctx
                (c, snd (snd (fn ctx (c, w))))) as [os h2].
    simpl in *. destruct IH as [Hc Hos]. split; [exact Hc|]. constructor; auto.
Qed.

(** X8. Starting from any state of an error-rate capacity whose windows
    are well formed (a positive number of buckets, a positive bucket
    duration, a size hint that is not negative), a sequence of wrapped invocations of actions that leave the capacity
    alone adds one sample to the attempts window per invocation and one
    sample to the errors window per invocation that returned an error or
    panicked, and nothing else; so the errors never outnumber the
    attempts added.  On a capacity whose attempts window has 0 buckets or
    a bucket duration of 0 every wrapped invocation panics with the
    division by zero and the capacity stays as it was. *)
Theorem CapacityErrorRate_counts
    (fns : list (Fn Values (CapacityErrorRate * World))) (ctx : Context Values)
    (c : CapacityErrorRate) (w : World) :
  Forall leaves_cell fns ->
  let r := invoke_each (CapacityErrorRate_Wrap time_Now) fns ctx (c, w) in
  let failures := length (List.filter failed (fst r)) in
  (rolling.proper (cer_invocations c) -> rolling.proper (cer_errors c) ->
   rolling.samples (cer_invocations (fst (snd r)))
     = rolling.samples (cer_invocations c) ++ repeat 1 (length fns) /\
   rolling.samples (cer_errors (fst (snd r)))
     = rolling.samples (cer_errors c) ++ repeat 1 failures /\
   (failures <= length fns)%nat) /\
  (rolling.divides_by_zero (cer_invocations c) = true ->
   fst (snd r) = c /\
   Forall (fun o => o = Panicked rolling.divide_error) (fst r)).
Proof.
  intros Hfns r failures. split.
  - intros Hpi Hpe.
    destruct (CapacityErrorRate_run fns ctx Hfns c w Hpi Hpe) as (Hlen & Hinv & Herr & _).
    fold r in Hlen, Hinv, Herr. subst failures.
    repeat split; [exact Hinv | exact Herr |].
    rewrite <- Hlen. apply List.filter_length_le.
  - intros Hz. exact (CapacityErrorRate_run_broken fns ctx c Hfns Hz w).
Qed.

(** X9. An error-rate capacity with well-formed windows to which nothing
    was appended, and which counts plainly (no minimum number of points),
    is put through a sequence of wrapped invocations.  Asked at an
    instant at which none of the samples so recorded has aged out of
    either window, it reports exactly 1 if all invocations failed and
    exactly 0 if all succeeded. *)
Theorem CapacityErrorRate_usage_extremes
    (fns : list (Fn Values (CapacityErrorRate * World))) (ctx : Context Values)
    (c : CapacityErrorRate) (w asked : World) :
  Forall leaves_cell fns ->
  fns <> [] -> Z.of_nat (length fns) < 2 ^ 53 ->
  rolling.proper (cer_invocations c) -> rolling.proper (cer_errors c) ->
  rolling.samples (cer_invocations c) = [] -> rolling.samples (cer_errors c) = [] ->
  cer_attemptReducer c = rolling.Count -> cer_errReducer c = rolling.Count ->
  let r := invoke_each (CapacityErrorRate_Wrap time_Now) fns ctx (c, w) in
  let after := fst (snd r) in
  rolling.inside rolling_aged (time_Now asked) (cer_invocations after)
    = rolling.samples (cer_invocations after) ->
  rolling.inside rolling_aged (time_Now asked) (cer_errors after)
    = rolling.samples (cer_errors after) ->
  (Forall (fun o => failed o = true) (fst r) ->
     CapacityErrorRate_Usage rolling_aged time_Now after asked = Some f32_one) /\
  (Forall (fun o => failed o = false) (fst r) ->
     CapacityErrorRate_Usage rolling_aged time_Now after asked = Some f32_zero).
Proof.
  intros Hfns Hne Hb Hpi Hpe Hi He Ha Hr r after Hini Hine.
  destruct (CapacityErrorRate_run fns ctx Hfns c w Hpi Hpe)
    as (Hlen & Hinv & Herr & Ha' & Hr' & Hqi & Hqe).
  fold r in Hlen, Hinv, Herr, Ha', Hr', Hqi, Hqe.
  fold after in Hinv, Herr, Ha', Hr', Hqi, Hqe.
  assert (Hn : 0 < Z.of_nat (length fns)) by (destruct fns; [congruence | simpl; lia]).
  assert (Hatt : rolling.Reduce rolling_aged (cer_attemptReducer after) (time_Now asked)
                   (cer_invocations after) = Some (Z.of_nat (length fns))).
  { rewrite (Reduce_proper _ _ _ _ Hqi), Hini, Ha', Ha, Hinv, Hi. unfold rolling.Count.
    simpl. rewrite repeat_length. reflexivity. }
  assert (Herrs : rolling.Reduce rolling_aged (cer_errReducer after) (time_Now asked)
                    (cer_errors after)
                  = Some (Z.of_nat (length (List.filter failed (fst r))))).
  { rewrite (Reduce_proper _ _ _ _ Hqe), Hine, Hr', Hr, Herr, He. unfold rolling.Count.
    simpl. rewrite repeat_length. reflexivity. }
  unfold CapacityErrorRate_Usage. rewrite Hatt, Herrs.
  destruct (Z.eqb_spec (Z.of_nat (length fns)) 0) as [H0|_]; [lia|].
  split; intros Hall.
  - rewrite (List.forallb_filter_id failed (fst r)), Hlen.
    2:{ apply List.forallb_forall. intros o Ho.
        rewrite List.Forall_forall in Hall. apply Hall, Ho. }
    assert (H1 : f64_div (f64_of_int (Z.of_nat (length fns)))
                         (f64_of_int (Z.of_nat (length fns)))
                 = S754_finite false 4503599627370496 (-52)).
    { destruct (FloatFacts.f64_of_int_small (Z.of_nat (length fns))) as (mz & e & Hx & _);
        [lia | lia |].
      rewrite Hx. apply MoreFloatFacts.f64_div_self. }
    rewrite H1. reflexivity.
  - assert (Hnone : List.filter failed (fst r) = []).
    { clear -Hall. induction Hall as [|o os Ho _ IH]; [reflexivity|].
      simpl. rewrite Ho. exact IH. }
    rewrite Hnone. simpl length. change (Z.of_nat 0) with 0.
    pose proof (MoreFloatFacts.ratio_zero (Z.of_nat (length fns)) Hn) as Hz.
    destruct (f64_div (f64_of_int 0) (f64_of_int (Z.of_nat (length fns)))) eqn:Hd;
      simpl in *; try discriminate Hz; try (rewrite Hz); reflexivity.
Qed.

(** One wrapped invocation on a landing-rate capacity whose window
    works. *)
Lemma CapacityLandingRate_Wrap_step
    (fn : Fn Values (CapacityLandingRate * World)) (ctx : Context Values)
    (c : CapacityLandingRate) (w : World) :
  rolling.proper (clr_invocations c) ->
  CapacityLandingRate_Wrap time_Now fn ctx (c, w) = fn ctx (clr_started (time_Now w) c, w).
Proof.
  intros Hp. unfold CapacityLandingRate_Wrap. rewrite (Append_proper _ _ _ Hp). reflexivity.
Qed.

Lemma CapacityLandingRate_run
    (fns : list (Fn Values (CapacityLandingRate * World))) (ctx : Context Values) :
  Forall leaves_cell fns ->
  forall (c : CapacityLandingRate) (w : World),
    rolling.proper (clr_invocations c) ->
    let r := invoke_each (CapacityLandingRate_Wrap time_Now) fns ctx (c, w) in
    rolling.samples (clr_invocations (fst (snd r)))
      = rolling.samples (clr_invocations c) ++ repeat 1 (length fns) /\
    clr_limit (fst (snd r)) = clr_limit c /\
    rolling.proper (clr_invocations (fst (snd r))).
Proof.
  induction 1 as [|fn fns Hfn _ IH]; intros c w Hp; cbv zeta.
  - simpl. rewrite app_nil_r. auto.
  - cbn [invoke_each]. rewrite (CapacityLandingRate_Wrap_step fn ctx c w Hp).
    pose proof (Hfn ctx (clr_started (time_Now w) c) w) as Hc.
    destruct (fn ctx (clr_started (time_Now w) c, w)) as [o [c' w']]. simpl in Hc. subst c'.
    specialize (IH (clr_started (time_Now w) c) w' Hp). cbv zeta in IH.
    destruct (invoke_each (CapacityLandingRate_Wrap time_Now) fns ctx
                (clr_started (time_Now w) c, w')) as [os h2].
    simpl in *. destruct IH as (Hs & Hl & Hq).
    rewrite Hs, Hl, samples_add, <- app_assoc. auto.
Qed.

(** X10. The landing-rate capacity counts starts, not completions.  On
    a well-formed window (a positive number of buckets, a positive bucket
    duration, a size hint that is not negative) each wrapped invocation of an action that leaves the capacity
    alone adds exactly one sample, whether the action returns, fails or
    panics, and the action already finds its own sample in the window;
    a capacity to which nothing had been appended and that has seen as
    many starts as its limit reports exactly 1 when it is asked at an
    instant at which none of those samples has aged out.  On a window of 0
    buckets or of bucket duration 0 the wrapped function panics with the
    division by zero and the action is not invoked. *)
Theorem CapacityLandingRate_counts_starts
    (fns : list (Fn Values (CapacityLandingRate * World))) (ctx : Context Values)
    (c : CapacityLandingRate) (w asked : World) :
  Forall leaves_cell fns ->
  let r := invoke_each (CapacityLandingRate_Wrap time_Now) fns ctx (c, w) in
  let after := fst (snd r) in
  (rolling.proper (clr_invocations c) ->
   rolling.samples (clr_invocations after)
     = rolling.samples (clr_invocations c) ++ repeat 1 (length fns) /\
   (forall fn, CapacityLandingRate_Wrap time_Now fn ctx (c, w)
               = fn ctx (clr_started (time_Now w) c, w)) /\
   (rolling.samples (clr_invocations c) = [] ->
    clr_limit c = Z.of_nat (length fns) -> fns <> [] -> clr_limit c < 2 ^ 53 ->
    rolling.inside rolling_aged (time_Now asked) (clr_invocations after)
      = rolling.samples (clr_invocations after) ->
    CapacityLandingRate_Usage rolling_aged time_Now after asked = Some f32_one)) /\
  (rolling.divides_by_zero (clr_invocations c) = true ->
   forall fn, CapacityLandingRate_Wrap time_Now fn ctx (c, w)
              = (Panicked rolling.divide_error, (c, w))).
Proof.
  intros Hfns r after. split.
  - intros Hp.
    destruct (CapacityLandingRate_run fns ctx Hfns c w Hp) as (Hs & Hl & Hq).
    fold r in Hs, Hl, Hq. fold after in Hs, Hl, Hq.
    split; [exact Hs|]. split; [intros fn; apply CapacityLandingRate_Wrap_step, Hp|].
    intros Hempty Hlim Hne Hb Hin.
    unfold CapacityLandingRate_Usage.
    rewrite (Reduce_proper _ _ _ _ Hq), Hin, Hs, Hempty, Hl. unfold rolling.Count.
    simpl. rewrite repeat_length, <- Hlim.
    assert (clr_limit c <> 0) by (destruct fns; [congruence | simpl in Hlim; lia]).
    rewrite MoreFloatFacts.ratio_self by lia. reflexivity.
  - intros Hz fn. unfold CapacityLandingRate_Wrap, rolling.Append. rewrite Hz. reflexivity.
Qed.

(** X11. [CapacityLatency.Wrap] records the time the action took, read
    off the clock before and after it.  On a well-formed window (a
    positive number of buckets, a positive bucket duration, a size hint
    that is not negative) it hands back the outcome of the action and adds exactly one sample when the action returns, and on
    a panic one sample if the capacity measures panics and none otherwise.
    On a window of 0 buckets or of bucket duration 0 nothing is recorded,
    and the call ends with the panic of the division by zero wherever a
    sample was due. *)
Theorem CapacityLatency_Wrap_measures
    (fn : Fn Values (CapacityLatency * World)) (ctx : Context Values)
    (c : CapacityLatency) (w : World) :
  let ran := fn ctx (c, w) in
  let wrapped := CapacityLatency_Wrap time_Now fn ctx (c, w) in
  let elapsed := Time_Sub (time_Now (snd (snd ran))) (time_Now w) in
  cl_measurePanics (fst (snd ran)) = cl_measurePanics c ->
  snd (snd wrapped) = snd (snd ran) /\
  cl_limit (fst (snd wrapped)) = cl_limit (fst (snd ran)) /\
  cl_measurePanics (fst (snd wrapped)) = cl_measurePanics c /\
  (rolling.proper (cl_window (fst (snd ran))) ->
   fst wrapped = fst ran /\
   rolling.samples (cl_window (fst (snd wrapped))) =
     rolling.samples (cl_window (fst (snd ran))) ++
     match fst ran with
     | Returned _ => [elapsed]
     | Panicked _ => if cl_measurePanics c then [elapsed] else []
     end) /\
  (rolling.divides_by_zero (cl_window (fst (snd ran))) = true ->
   fst (snd wrapped) = fst (snd ran) /\
   fst wrapped =
     match fst ran with
     | Returned _ => Panicked rolling.divide_error
     | Panicked _ => if cl_measurePanics c then Panicked rolling.divide_error else fst ran
     end).
Proof.
  cbv zeta. unfold CapacityLatency_Wrap, CapacityLatency_Append, time_Since.
  simpl fst. simpl snd.
  destruct (fn ctx (c, w)) as [o [c' w']]. simpl fst. simpl snd. intros Hmp.
  unfold rolling.Append.
  assert (Hnot : rolling.proper (cl_window c') ->
                 rolling.divides_by_zero (cl_window c') = false)
    by apply proper_divides.
  destruct (rolling.divides_by_zero (cl_window c')) eqn:Hz.
  - destruct o as [e|v]; rewrite ?Hmp; destruct (cl_measurePanics c) eqn:Hc; simpl;
      rewrite ?Hz; simpl;
      (split; [reflexivity|]); (split; [reflexivity|]); (split; [congruence|]);
      (split; [intros Hp; specialize (Hnot Hp); discriminate | intros _; split; reflexivity]).
  - destruct o as [e|v]; rewrite ?Hmp; destruct (cl_measurePanics c) eqn:Hc; simpl;
      rewrite ?Hz; simpl;
      (split; [reflexivity|]); (split; [reflexivity|]); (split; [congruence|]);
      (split; [intros _; rewrite ?samples_add, ?app_nil_r; split; reflexivity
              | intros Hf; discriminate Hf]).
Qed.

(** X12. A throttle fresh from its constructor does not serve its zero
    cache: with a clock that reads at least the duration past the zero
    time, the first [Usage] asks the wrapped capacity and returns its
    answer. *)
Theorem fresh_throttle_asks_first (wrapped : Capacity Values World) (d : Duration)
    (ctx : Context Values) (w : World) :
  d <= maxDuration -> d <= time_Now w ->
  let asked := Capacity_Usage wrapped ctx w in
  let first := CapacityThrottle_Usage time_Now (NewCapacityThrottle time_Now wrapped d) ctx w in
  fst (fst first) = fst asked /\
  snd first = snd asked /\
  thr_cache (snd (fst first)) = fst asked /\
  thr_last (snd (fst first)) = time_Now (snd asked).
Proof.
  intros Hd Hnow. cbv zeta. unfold CapacityThrottle_Usage, NewCapacityThrottle. simpl.
  assert (Hs : (d <=? time_Since time_Now 0 w) = true).
  { apply Z.leb_le. unfold time_Since, Time_Sub.
    unfold maxDuration, minDuration in *. lia. }
  rewrite Hs. destruct (Capacity_Usage wrapped ctx w). simpl. auto.
Qed.

End MoreCapacityFacts.

(** X13. The counter a [CapacityWaitGroup] reports agrees with the
    counter of its wait group and is never negative: an [Add] or a [Done]
    that returns has moved both alike.  [Done] returns only when the
    counter is positive; on a counter of 0, as in a fresh group, it
    panics. *)
Theorem CapacityWaitGroup_counters_agree (self : CapacityWaitGroup) (delta : Z) :
  cc_current (cwg_CapacityConcurrency self) = cwg_wg self ->
  0 <= cwg_wg self < 2 ^ 31 ->
  (forall self', CapacityWaitGroup_Add delta self = Some self' ->
     cc_current (cwg_CapacityConcurrency self') = cwg_wg self' /\
     0 <= cwg_wg self' < 2 ^ 31 /\
     cwg_wg self' = wrap32 (cwg_wg self + delta)) /\
  (forall self', CapacityWaitGroup_Done self = Some self' ->
     cc_current (cwg_CapacityConcurrency self') = cwg_wg self' /\
     cwg_wg self' = cwg_wg self - 1 /\ 0 < cwg_wg self) /\
  (cwg_wg self = 0 -> CapacityWaitGroup_Done self = None) /\
  (forall limit names,
     cc_current (cwg_CapacityConcurrency
                   (NewCapacityWaitGroup limit (map OptionConcurrencyName names))) = 0) /\
  (forall limit options, cwg_wg (NewCapacityWaitGroup limit options) = 0).
Proof.
  intros Hagree Hr.
  split; [|split; [|split; [|split]]].
  - intros self'. unfold CapacityWaitGroup_Add, WaitGroup_Add.
    destruct (Z.ltb_spec (wrap32 (cwg_wg self + delta)) 0) as [|Hpos]; [discriminate|].
    intros [= <-]. simpl. rewrite Hagree, MoreFloatFacts.wrap32_add_r.
    pose proof (MoreFloatFacts.wrap32_range (cwg_wg self + delta)). repeat split; lia.
  - intros self'. unfold CapacityWaitGroup_Done, WaitGroup_Add.
    destruct (Z.ltb_spec (wrap32 (cwg_wg self + -1)) 0) as [|Hpos]; [discriminate|].
    intros [= <-]. simpl. rewrite Hagree, MoreFloatFacts.wrap32_add_r.
    destruct (Z.eq_dec (cwg_wg self) 0) as [H0|H0].
    + rewrite H0 in Hpos. vm_compute in Hpos. exfalso. apply Hpos. reflexivity.
    + change (- (1)) with (-1). rewrite MoreFloatFacts.wrap32_id by lia. repeat split; lia.
  - intros H0. unfold CapacityWaitGroup_Done, WaitGroup_Add. rewrite H0. reflexivity.
  - intros limit names. cbv zeta. unfold NewCapacityWaitGroup. simpl.
    induction names as [|n names IH] using rev_ind; [reflexivity|].
    unfold NewCapacityConcurrency in *. rewrite map_app, fold_left_app. simpl. exact IH.
  - reflexivity.
Qed.

Section MoreCurveFacts.

Lemma SFeqb_finite (s s' : bool) (m m' : positive) (e e' : Z) :
  SFeqb (S754_finite s m e) (S754_finite s' m' e') = true ->
  s = s' /\ m = m' /\ e = e'.
Proof.
  unfold SFeqb. simpl.
  destruct s, s'; try discriminate;
    destruct (Z.compare_spec e e'); simpl; try discriminate;
    change (Pos.compare_cont Eq m m') with (m ?= m')%positive;
    destruct (Pos.compare_spec m m'); simpl; try discriminate; auto.
Qed.

Lemma SFeqb_not_SFltb (x y : spec_float) :
  SFeqb x y = true -> SFltb x y = false /\ SFltb y x = false.
Proof.
  intros H.
  destruct x as [[]|[]| |sx mx ex], y as [[]|[]| |sy my ey];
    try discriminate; try (destruct sx; discriminate);
    try (destruct sy; discriminate); auto.
  destruct (SFeqb_finite _ _ _ _ _ _ H) as (-> & -> & ->).
  unfold SFltb, SFcompare. rewrite Z.compare_refl, Pos.compare_cont_refl.
  destruct sy; auto.
Qed.

Lemma f32_sub_self (x : float32) :
  IsNaN x = false -> is_zero (f32_sub x x) = true \/ IsNaN (f32_sub x x) = true.
Proof.
  destruct x as [[]|[]| |s m e]; simpl; auto; try discriminate. intros _. left.
  unfold f32_sub, SFsub, shl_align.
  cbv zeta. rewrite Z.min_id, !Z.sub_diag. reflexivity.
Qed.

(** X16. [CurveLinear.Curve] does not always answer with a number
    between 0 and 1.  With [Exponent] 1, a NaN value falls through both
    comparisons and comes back as NaN, and so does the value that equals
    both [Lower] and [Upper] (thresholds that coincide): the quotient is
    then 0/0. *)
Theorem CurveLinear_Curve_not_a_number
    {Values : Type} (math_Pow : float64 -> float64 -> float64)
    (self : CurveLinear) (ctx : Context Values) (v : float32) :
  feq (Exponent self) f32_one = true ->
  IsNaN v = true \/ (feq v (Lower self) = true /\ feq v (Upper self) = true) ->
  IsNaN (CurveLinear_Curve math_Pow self ctx v) = true.
Proof.
  intros Hexp Hv. unfold CurveLinear_Curve, CurveLinear_line, fne. unfold feq in Hexp.
  rewrite Hexp. simpl negb. cbv iota.
  destruct Hv as [Hnan | [HL HU]].
  - destruct v; try discriminate.
    destruct (Lower self) as [[]|[]| |[]], (Upper self) as [[]|[]| |[]]; reflexivity.
  - unfold feq in HL, HU.
    destruct (SFeqb_not_SFltb _ _ HL) as [HvL _].
    destruct (SFeqb_not_SFltb _ _ HU) as [_ HUv].
    unfold flt, fgt. rewrite HvL, HUv.
    assert (Hsame : forall a b : float32, SFeqb a b = true ->
              (exists s m e, a = S754_finite s m e /\ b = a) \/
              (exists s, a = S754_infinity s /\ b = a) \/
              (is_zero a = true /\ is_zero b = true)).
    { intros a b H. destruct a as [sa|sa| |sa ma ea], b as [sb|sb| |sb mb eb];
        try (destruct sa; discriminate); try (destruct sa, sb; discriminate);
        try discriminate.
      - right. right. auto.
      - right. left. exists sa. split; [reflexivity|].
        destruct sa, sb; try discriminate; reflexivity.
      - left. exists sa, ma, ea. split; [reflexivity|].
        destruct (SFeqb_finite _ _ _ _ _ _ H) as (-> & -> & ->). reflexivity. }
    destruct (Hsame _ _ HL) as [(s & m & e & -> & ->) | [(s & -> & ->) | [Hz HzL]]].
    + destruct (Hsame _ _ HU) as [(s' & m' & e' & _ & ->) | [(s' & [=] & _) | [[=] _]]].
      pose proof (f32_sub_self (S754_finite s m e) eq_refl) as [Hz | Hn].
      * destruct (f32_sub (S754_finite s m e) (S754_finite s m e)) as [[]|[]| |[]];
          try discriminate; reflexivity.
      * destruct (f32_sub (S754_finite s m e) (S754_finite s m e)) as [[]|[]| |[]];
          try discriminate; reflexivity.
    + destruct (Hsame _ _ HU) as [(s' & m' & e' & [=] & _) | [(s' & _ & ->) | [[=] _]]].
      destruct s; reflexivity.
    + destruct (Hsame _ _ HU) as [(s' & m' & e' & -> & _) | [(s' & -> & _) | [_ HzU]]];
        try discriminate.
      destruct v as [[]|[]| |[]], (Lower self) as [[]|[]| |[]], (Upper self) as [[]|[]| |[]];
        try discriminate; reflexivity.
Qed.

End MoreCurveFacts.

Section MoreComposerFacts.

Context {Values World : Type}.

(** X14. The layers compose: the rate of a [RejectionRateCurve] over a
    [FailureProbabilityCurve] over a capacity is the rate curve (the one
    registered for the classification in the context, else the default)
    applied to the probability curve applied to the usage, and the
    capacity is asked for its usage exactly once.  Names and usage are
    those of the capacity, and [Wrap] of either layer is the [Wrap] of the
    capacity, or the identity when the capacity has none. *)
Theorem Rate_composes_the_layers
    (cap : Capacity Values World) (inner dflt : Curve Values)
    (classes : gmap Classification (Curve Values))
    (ctx : Context Values) (w : World) :
  let fpc := {| FPC_Capacity := cap; FPC_Curve := inner |} in
  let probability := FailureProbabilityCurve_as_FailureProbability fpc in
  let rrc := NewRejectionRateCurveByClassification probability dflt classes in
  let rate := RejectionRateCurve_as_RejectionRate rrc in
  let used := Capacity_Usage cap ctx w in
  let outer := default dflt (classes !! ClassificationFromContext ctx) in
  RR_Rate rate ctx w = (outer ctx (inner ctx (fst used)), snd used) /\
  FP_Likelihood rate ctx w = (inner ctx (fst used), snd used) /\
  Capacity_Usage rate ctx w = used /\
  Capacity_Name rate ctx w = Capacity_Name cap ctx w /\
  forall fn : Fn Values World,
    RejectionRateCurve_Wrap rrc fn = FailureProbabilityCurve_Wrap fpc fn /\
    FailureProbabilityCurve_Wrap fpc fn =
      match Capacity_Wrapper cap with Some wrap => wrap fn | None => fn end.
Proof.
  cbv zeta. simpl. unfold RejectionRateCurve_Rate. simpl.
  unfold FailureProbabilityCurve_Likelihood. simpl.
  destruct (Capacity_Usage cap ctx w) as [u w'] eqn:Hu. simpl.
  destruct (classes !! ClassificationFromContext ctx); simpl; repeat split; reflexivity.
Qed.

(** X15. Registering a curve for one classification changes the rate of
    the requests of that classification only: they get the registered
    curve applied to the likelihood, every other request gets the rate it
    had before. *)
Theorem classification_curve_is_local
    (probability : FailureProbability Values World) (dflt curve : Curve Values)
    (classes : gmap Classification (Curve Values)) (class : Classification)
    (ctx : Context Values) (w : World) :
  let before := NewRejectionRateCurveByClassification probability dflt classes in
  let after :=
    NewRejectionRateCurveByClassification probability dflt (<[class := curve]> classes) in
  let likely := FP_Likelihood probability ctx w in
  (ClassificationFromContext ctx = class ->
     RejectionRateCurve_Rate after ctx w = (curve ctx (fst likely), snd likely)) /\
  (ClassificationFromContext ctx <> class ->
     RejectionRateCurve_Rate after ctx w = RejectionRateCurve_Rate before ctx w).
Proof.
  cbv zeta. unfold RejectionRateCurve_Rate. simpl. split; intros H.
  - rewrite H, lookup_insert_eq. destruct (FP_Likelihood probability ctx w). reflexivity.
  - rewrite lookup_insert_ne by congruence. reflexivity.
Qed.

End MoreComposerFacts.

Module MoreHTTPFacts.

Import http.

Section TransportFacts.

Context {Request Body World : Type}.

Lemma errorCodes_lookup (errorCodes : list Z) (m : gmap Z bool) (code : Z) :
  fold_left (fun m code => <[code := true]> m) errorCodes m !! code =
    if bool_decide (code ∈ errorCodes) then Some true else m !! code.
Proof.
  revert m. induction errorCodes as [|c cs IH]; intros m; cbn [fold_left].
  - rewrite bool_decide_eq_false_2; [reflexivity | apply not_elem_of_nil].
  - rewrite IH. destruct (decide (code ∈ cs)) as [Hin|Hin].
    + rewrite !bool_decide_eq_true_2; [reflexivity | | exact Hin].
      apply elem_of_cons; auto.
    + rewrite (bool_decide_eq_false_2 _ Hin).
      destruct (decide (code = c)) as [->|Hne].
      * rewrite lookup_insert_eq, bool_decide_eq_true_2; [reflexivity|].
        apply elem_of_cons; auto.
      * rewrite lookup_insert_ne by congruence.
        rewrite bool_decide_eq_false_2; [reflexivity|].
        intros [?|?]%elem_of_cons; tauto.
Qed.

Lemma errCodeTransport_RoundTrip_flags
    (wrapped : RoundTripper Request Body World) (errorCodes : list Z)
    (r : Request) (w : World) :
  errCodeTransport_RoundTrip
    {| ect_wrapped := wrapped;
       ect_errorCodes := fold_left (fun m code => <[code := true]> m) errorCodes ∅ |} r w =
  (match fst (wrapped r w) with
   | RoundTripped (Some resp) None =>
       RoundTripped (Some resp)
         (if bool_decide (StatusCode resp ∈ errorCodes)
          then Some (errStatusCode (StatusCode resp)) else None)
   | RoundTripped None None => RoundTripPanicked
   | o => o
   end, snd (wrapped r w)).
Proof.
  unfold errCodeTransport_RoundTrip. simpl.
  destruct (wrapped r w) as [[[resp|] [er|]|] w']; simpl; try reflexivity.
  rewrite errorCodes_lookup, lookup_empty.
  destruct (bool_decide (StatusCode resp ∈ errorCodes)); reflexivity.
Qed.

(** X17. With [TransportOptionErrorCodes] the transport reports a
    response as an error exactly when the wrapped transport returned no
    error and the status code of the response is one of the codes given;
    the error carries that status code and the response is handed on
    untouched.  Errors and panics of the wrapped transport pass through,
    a nil response without an error panics, and the callback and the
    Shedder of the middleware stay as they were. *)
Theorem TransportOptionErrorCodes_flags {Load : Type}
    (errorCodes : list Z) (t : TransportMiddleware Request Body World Load)
    (r : Request) (w : World) :
  let inner := tm_wrapped t r w in
  let option := TransportOptionErrorCodes errorCodes t in
  let outer := tm_wrapped option r w in
  snd outer = snd inner /\
  fst outer =
    match fst inner with
    | RoundTripped (Some resp) None =>
        RoundTripped (Some resp)
          (if bool_decide (StatusCode resp ∈ errorCodes)
           then Some (errStatusCode (StatusCode resp)) else None)
    | RoundTripped None None => RoundTripPanicked
    | o => o
    end /\
  tm_callback option = tm_callback t /\
  tm_load option = tm_load t.
Proof.
  cbv zeta. unfold TransportOptionErrorCodes. simpl.
  rewrite errCodeTransport_RoundTrip_flags. simpl. auto.
Qed.

(** X18. Error-code options add up: a middleware built with several
    [TransportOptionErrorCodes] options behaves, on every request, like
    the one built with a single option that lists all their codes. *)
Theorem TransportOptionErrorCodes_accumulate {Load : Type}
    (shed : Load) (lists : list (list Z)) (c : RoundTripper Request Body World)
    (r : Request) (w : World) :
  lists <> [] ->
  tm_wrapped (NewTransportMiddleware shed (map TransportOptionErrorCodes lists) c) r w =
  tm_wrapped (NewTransportMiddleware shed [TransportOptionErrorCodes (concat lists)] c) r w.
Proof.
  induction lists as [|codes lists IH] using rev_ind; [congruence|]. intros _.
  destruct (decide (lists = [])) as [->|Hne].
  { simpl. rewrite app_nil_r. reflexivity. }
  specialize (IH Hne).
  unfold NewTransportMiddleware in *. rewrite map_app, fold_left_app, concat_app.
  cbn [map fold_left concat] in *. rewrite app_nil_r.
  unfold TransportOptionErrorCodes at 1 3. cbn [tm_wrapped].
  rewrite !errCodeTransport_RoundTrip_flags.
  unfold TransportOption in *.
  rewrite IH. unfold TransportOptionErrorCodes. cbn [tm_wrapped].
  rewrite errCodeTransport_RoundTrip_flags. simpl.
  destruct (c r w) as [[[resp|] [er|]|] w']; simpl; try reflexivity.
  destruct (decide (StatusCode resp ∈ concat lists)) as [Hin|Hin].
  - rewrite (bool_decide_eq_true_2 _ Hin), bool_decide_eq_true_2; [reflexivity|].
    apply elem_of_app; auto.
  - rewrite (bool_decide_eq_false_2 _ Hin).
    destruct (decide (StatusCode resp ∈ codes)) as [Hc|Hc].
    + rewrite (bool_decide_eq_true_2 _ Hc), bool_decide_eq_true_2; [reflexivity|].
      apply elem_of_app; auto.
    + rewrite (bool_decide_eq_false_2 _ Hc), bool_decide_eq_false_2; [reflexivity|].
      intros [?|?]%elem_of_app; tauto.
Qed.

End TransportFacts.

(** X19. The rejection details stored for a handler or for a transport
    are read back as stored; a context that holds none reads as the zero
    [ErrRejection].  The two slots and the classification do not disturb
    one another. *)
Theorem rejection_context_round_trip {V : Type}
    (ctx : Context (HTTPValues V)) (val val' : ErrRejection) (class : Classification) :
  FromHandlerContext (NewHandlerContext ctx val) = val /\
  FromTransportContext (NewTransportContext ctx val) = val /\
  FromHandlerContext (NewHandlerContext (NewHandlerContext ctx val) val') = val' /\
  FromHandlerContext (NewTransportContext ctx val) = FromHandlerContext ctx /\
  FromTransportContext (NewHandlerContext ctx val) = FromTransportContext ctx /\
  FromHandlerContext (ClassificationToContext ctx class) = FromHandlerContext ctx /\
  FromTransportContext (ClassificationToContext ctx class) = FromTransportContext ctx /\
  ClassificationFromContext (NewHandlerContext ctx val) = ClassificationFromContext ctx /\
  ClassificationFromContext (NewTransportContext ctx val) = ClassificationFromContext ctx /\
  (forall rest : V,
     FromHandlerContext (Background (mkHTTPValues None None rest)) = zeroErrRejection /\
     FromTransportContext (Background (mkHTTPValues None None rest)) = zeroErrRejection).
Proof.
  repeat split; reflexivity.
Qed.

End MoreHTTPFacts.

Section MoreLatencyFacts.

Context {Values World : Type}.
Variable rolling_Avg : rolling.Reduction Duration.
Variable rolling_aged : rolling.Ageing.
Variable time_Now : World -> Time.

Lemma latency_options_keep_agreement (options : list OptionLatency) :
  Forall is_latency_option options ->
  forall a b, differ_in_minimumPoints_only a b ->
    differ_in_minimumPoints_only
      (fold_left (fun c option => option c) options a)
      (fold_left (fun c option => option c) options b).
Proof.
  induction 1 as [|opt options Hopt _ IH]; intros a b Hab; [exact Hab|].
  simpl. apply IH. unfold differ_in_minimumPoints_only in *.
  destruct Hab as (H1 & H2 & H3 & H4 & H5 & H6 & H7 & H8).
  destruct Hopt as [[r ->]|[[v ->]|[[n ->]|[[d ->]|[[n ->]|[[n ->]|[n ->]]]]]]]; simpl;
    repeat split; assumption.
Qed.

(** X20. [OptionLatencyMinimumPoints] has no effect on a latency
    capacity: among the options of the package, giving it or leaving it
    out builds capacities that differ in the stored number only, and that
    number is read neither by [Usage], which reports the same value (or
    panics alike) after any samples, nor by [Append] and [Wrap], which
    record the same samples. *)
Theorem OptionLatencyMinimumPoints_is_ignored
    (limit : Duration) (pre post : list OptionLatency) (min : Z) :
  Forall is_latency_option pre -> Forall is_latency_option post ->
  let given :=
    NewCapacityLatency rolling_Avg limit (pre ++ OptionLatencyMinimumPoints min :: post) in
  let left_out := NewCapacityLatency rolling_Avg limit (pre ++ post) in
  differ_in_minimumPoints_only given left_out /\
  (forall a b : CapacityLatency, differ_in_minimumPoints_only a b ->
     (forall w, CapacityLatency_Usage rolling_aged time_Now a w
                = CapacityLatency_Usage rolling_aged time_Now b w) /\
     (forall v w,
        match CapacityLatency_Append time_Now v a w, CapacityLatency_Append time_Now v b w with
        | Some a', Some b' => differ_in_minimumPoints_only a' b'
        | None, None => True
        | _, _ => False
        end) /\
     (forall (fn : Fn Values (CapacityLatency * World)) ctx w,
        (forall c c' w0, differ_in_minimumPoints_only c c' ->
           fst (fn ctx (c, w0)) = fst (fn ctx (c', w0)) /\
           snd (snd (fn ctx (c, w0))) = snd (snd (fn ctx (c', w0))) /\
           differ_in_minimumPoints_only
             (fst (snd (fn ctx (c, w0)))) (fst (snd (fn ctx (c', w0))))) ->
        let ra := CapacityLatency_Wrap time_Now fn ctx (a, w) in
        let rb := CapacityLatency_Wrap time_Now fn ctx (b, w) in
        fst ra = fst rb /\ snd (snd ra) = snd (snd rb) /\
        differ_in_minimumPoints_only (fst (snd ra)) (fst (snd rb)))).
Proof.
  intros Hpre Hpost. cbv zeta. split.
  - unfold NewCapacityLatency. rewrite !fold_left_app. simpl fold_left.
    match goal with
    | |- context [fold_left _ post (OptionLatencyMinimumPoints min ?c)] =>
        pose proof (latency_options_keep_agreement post Hpost
                      (OptionLatencyMinimumPoints min c) c) as H
    end.
    destruct H as (H1 & H2 & H3 & H4 & H5 & H6 & H7 & H8).
    { unfold differ_in_minimumPoints_only. simpl. repeat split; reflexivity. }
    unfold differ_in_minimumPoints_only, OptionLatency in *. simpl.
    repeat split; try assumption. f_equal; assumption.
  - intros a b Hab. split; [|split].
    + intros w. destruct Hab as (H1 & H2 & H3 & H4 & H5 & H6 & H7 & H8).
      unfold CapacityLatency_Usage. rewrite H2, H3, H7. reflexivity.
    + intros v w. destruct Hab as (H1 & H2 & H3 & H4 & H5 & H6 & H7 & H8).
      unfold CapacityLatency_Append, rolling.Append. rewrite H2.
      destruct (rolling.divides_by_zero (cl_window b)); [exact I|].
      unfold differ_in_minimumPoints_only. simpl. repeat split; assumption.
    + intros fn ctx w Hfn. cbv zeta.
      unfold CapacityLatency_Wrap, CapacityLatency_Append, rolling.Append.
      simpl fst. simpl snd.
      destruct (Hfn a b w Hab) as (Ho & Hw & Hc).
      destruct (fn ctx (a, w)) as [oa [ca wa]], (fn ctx (b, w)) as [ob [cb wb]].
      simpl in Ho, Hw, Hc. subst ob wb.
      destruct Hab as (_ & _ & _ & _ & _ & _ & _ & Hmp).
      destruct Hc as (H1 & H2 & H3 & H4 & H5 & H6 & H7 & H8).
      rewrite Hmp, H8, H2.
      unfold differ_in_minimumPoints_only.
      destruct oa, (cl_measurePanics b), (cl_measurePanics cb) eqn:Hcb,
        (rolling.divides_by_zero (cl_window cb)) eqn:Hz; simpl;
        rewrite ?H2, ?Hz; simpl; rewrite ?divides_add, ?Hz; simpl;
        repeat split; first [assumption | reflexivity | congruence].
Qed.

End MoreLatencyFacts.

(** ** The further properties at the values of the tests *)

Module MoreInstances.

Import Fixtures Doubles.

(** A shedder built without options invokes the observing action. *)
Lemma empty_shedder_runs_the_action_witness :
  Do (NewShedder zeroRandom []) background fnObserve state0 =
    (Returned None,
     {| world := snd (fnObserve background world0);
        calls := [EvInvoke background (Returned None)] |}).
Proof.
  exact (proj2 (empty_shedder_runs_the_action
                  (NewShedder zeroRandom []) background fnObserve state0
                  eq_refl eq_refl)).
Defined.

(** A rate fixed at NaN registered before a rate fixed at 1: the
    decision passes the first and is taken by the second. *)
Lemma Select_nan_never_rejects_witness :
  let self := NewShedder zeroRandom
                [OptionShedderRejectionRate nanRate;
                 OptionShedderRejectionRate (staticCountingRate f32_one)] in
  Select self background state0 =
    select_rates zeroRandom background 1 [staticCountingRate f32_one]
      {| world := world0;
         calls := [EvRate 0 background S754_nan; EvRand f32_zero] |}.
Proof.
  exact (Select_nan_never_rejects
           (NewShedder zeroRandom
              [OptionShedderRejectionRate nanRate;
               OptionShedderRejectionRate (staticCountingRate f32_one)])
           background state0 [] [staticCountingRate f32_one] nanRate state0 state0
           eq_refl eq_refl eq_refl (or_introl eq_refl)).
Defined.

(** The rate of [shedUnclassified] is fixed at 0: the action runs inside
    the wrapper of that rate, which counts the call. *)
Lemma Do_runs_the_wrapped_action_witness :
  fst (Do shedUnclassified background fnObserve state0) = Returned None /\
  tw_count (world (snd (Do shedUnclassified background fnObserve state0))) = 1.
Proof.
  destruct (Do_runs_the_wrapped_action shedUnclassified background fnObserve state0)
    as [H _].
  cbv zeta in H. destruct (H eq_refl) as [Ho Hw]. rewrite Ho, Hw. split; reflexivity.
Defined.

(** A panicking action leaves a concurrency capacity of limit 4 as it
    found it. *)
Lemma CapacityConcurrency_Wrap_balanced_witness :
  CapacityConcurrency_Wrap cellPanic background (NewCapacityConcurrency 4 [], world0) =
    (Panicked "boom", (NewCapacityConcurrency 4 [], world0)).
Proof.
  refine (proj1 (CapacityConcurrency_Wrap_balanced
                   cellPanic background (NewCapacityConcurrency 4 []) world0 _ _)).
  - simpl. lia.
  - intros ctx cell w. reflexivity.
Defined.

(** Four invocations in flight at limit 4. *)
Lemma CapacityConcurrency_usage_at_limit_witness :
  CapacityConcurrency_Usage (CapacityConcurrency_Add 4 (NewCapacityConcurrency 4 [])) = f32_one.
Proof.
  apply CapacityConcurrency_usage_at_limit.
  - simpl. lia.
  - simpl. lia.
  - reflexivity.
Defined.

(** One success, one failure and one panic: three attempts, two
    errors. *)
Lemma CapacityErrorRate_counts_witness :
  let r := invoke_each (CapacityErrorRate_Wrap tw_clock) [cellOk; fnFail; cellPanic] background
             (NewCapacityErrorRate (fun _ r => r) [], world0) in
  rolling.samples (cer_invocations (fst (snd r))) = [1; 1; 1] /\
  rolling.samples (cer_errors (fst (snd r))) = [1; 1].
Proof.
  cbv zeta.
  destruct (CapacityErrorRate_counts tw_clock [cellOk; fnFail; cellPanic] background
              (NewCapacityErrorRate (fun _ r => r) []) world0) as [H _].
  - repeat constructor.
  - cbv zeta in H. destruct H as (Hi & He & _).
    + reflexivity.
    + reflexivity.
    + rewrite Hi, He. split; reflexivity.
Defined.

(** A failure and a panic give the error rate 1 while the window of one
    second holds them, here half a second later. *)
Lemma CapacityErrorRate_usage_extremes_witness :
  let r := invoke_each (CapacityErrorRate_Wrap tw_clock) [fnFail; cellPanic] background
             (NewCapacityErrorRate (fun _ r => r) [], world0) in
  CapacityErrorRate_Usage slidingWindow tw_clock (fst (snd r))
    (later (500 * Millisecond) f32_zero (snd (snd r))) = Some f32_one.
Proof.
  cbv zeta.
  refine (proj1 (CapacityErrorRate_usage_extremes slidingWindow tw_clock
                   [fnFail; cellPanic] background
                   (NewCapacityErrorRate (fun _ r => r) []) world0
                   (later (500 * Millisecond) f32_zero world0)
                   _ _ _ _ _ eq_refl eq_refl eq_refl eq_refl _ _) _).
  - repeat constructor.
  - discriminate.
  - simpl. lia.
  - reflexivity.
  - reflexivity.
  - vm_compute. reflexivity.
  - vm_compute. reflexivity.
  - repeat constructor.
Defined.

(** Two starts at limit 2, one of which panicked, asked half a second
    later. *)
Lemma CapacityLandingRate_counts_starts_witness :
  let r := invoke_each (CapacityLandingRate_Wrap tw_clock) [cellOk; cellPanic] background
             (NewCapacityLandingRate 2 [], world0) in
  CapacityLandingRate_Usage slidingWindow tw_clock (fst (snd r))
    (later (500 * Millisecond) f32_zero (snd (snd r))) = Some f32_one.
Proof.
  cbv zeta.
  destruct (CapacityLandingRate_counts_starts slidingWindow tw_clock
              [cellOk; cellPanic] background
              (NewCapacityLandingRate 2 []) world0
              (later (500 * Millisecond) f32_zero world0)) as [H _].
  - repeat constructor.
  - cbv zeta in H. destruct H as (_ & _ & H).
    + reflexivity.
    + apply H; [reflexivity | reflexivity | discriminate | simpl; lia
                | vm_compute; reflexivity].
Defined.

(** An action that takes 5ms is recorded as 5ms. *)
Lemma CapacityLatency_Wrap_measures_witness :
  rolling.samples
    (cl_window (fst (snd (CapacityLatency_Wrap tw_clock (cellSlow (5 * Millisecond)) background
                            (NewCapacityLatency (fun _ => 0) Second [], world0)))))
    = [5 * Millisecond].
Proof.
  destruct (CapacityLatency_Wrap_measures tw_clock (cellSlow (5 * Millisecond)) background
              (NewCapacityLatency (fun _ => 0) Second []) world0 eq_refl)
    as (_ & _ & _ & H & _).
  destruct H as [_ H].
  - reflexivity.
  - rewrite H. reflexivity.
Defined.

(** The throttle of the tests asks the counting capacity on its first
    call. *)
Lemma fresh_throttle_asks_first_witness :
  tw_calls (snd (CapacityThrottle_Usage tw_clock throttle background world0)) = 1.
Proof.
  destruct (fresh_throttle_asks_first tw_clock (capCounter Millisecond) (2 * Millisecond)
              background world0) as (_ & H & _).
  - vm_compute. discriminate.
  - vm_compute. discriminate.
  - unfold throttle. rewrite H. reflexivity.
Defined.

(** [Done] on a fresh wait group panics; after [Add(2)] both counters
    read 2. *)
Lemma CapacityWaitGroup_counters_agree_witness :
  CapacityWaitGroup_Done (NewCapacityWaitGroup 4 []) = None /\
  (forall self', CapacityWaitGroup_Add 2 (NewCapacityWaitGroup 4 []) = Some self' ->
     cc_current (cwg_CapacityConcurrency self') = 2 /\ cwg_wg self' = 2).
Proof.
  destruct (CapacityWaitGroup_counters_agree (NewCapacityWaitGroup 4 []) 2)
    as (Hadd & _ & Hdone & _).
  - reflexivity.
  - simpl. lia.
  - split; [apply Hdone; reflexivity|].
    intros self' H. destruct (Hadd self' H) as (Ha & _ & Hv).
    rewrite Ha, Hv. split; reflexivity.
Defined.

(** A curve registered for ["LOW"] that answers 0: requests classified
    ["LOW"] get 0, the others keep the identity. *)
Lemma classification_curve_is_local_witness :
  let probability := RR_FailureProbability (staticCountingRate f32_one) in
  let rate := NewRejectionRateCurveByClassification probability (fun _ v => v)
                (<["LOW"%string := fun _ _ => f32_zero]> ∅) in
  fst (RejectionRateCurve_Rate rate (ClassificationToContext background "LOW") world0)
    = f32_zero /\
  fst (RejectionRateCurve_Rate rate (ClassificationToContext background "HIGH") world0)
    = f32_one.
Proof.
  cbv zeta. split.
  - rewrite (proj1 (classification_curve_is_local
                      (RR_FailureProbability (staticCountingRate f32_one))
                      (fun _ v => v) (fun _ _ => f32_zero) ∅ "LOW"
                      (ClassificationToContext background "LOW") world0) eq_refl).
    reflexivity.
  - rewrite (proj2 (classification_curve_is_local
                      (RR_FailureProbability (staticCountingRate f32_one))
                      (fun _ v => v) (fun _ _ => f32_zero) ∅ "LOW"
                      (ClassificationToContext background "HIGH") world0)).
    + reflexivity.
    + discriminate.
Defined.

(** Thresholds that coincide at 1, asked about the value 1. *)
Lemma CurveLinear_Curve_not_a_number_witness :
  CurveLinear_Curve (fun x _ => x)
    {| Upper := f32_one; Lower := f32_one; Exponent := f32_one |} background f32_one
    = S754_nan.
Proof.
  pose proof (CurveLinear_Curve_not_a_number (fun x _ => x)
                {| Upper := f32_one; Lower := f32_one; Exponent := f32_one |}
                background f32_one eq_refl (or_intror (conj eq_refl eq_refl))) as H.
  destruct (CurveLinear_Curve _ _ _ _); try discriminate H. reflexivity.
Defined.

(** The codes 500 then 503, given in two options: a 503 is reported as an
    error, as with the single option listing both. *)
Lemma TransportOptionErrorCodes_accumulate_witness :
  fst (http.tm_wrapped
         (http.NewTransportMiddleware tt
            [http.TransportOptionErrorCodes [500]; http.TransportOptionErrorCodes [503]]
            (fixtureTransport 503)) tt world0)
    = http.RoundTripped (Some {| http.StatusCode := 503; http.resp_body := tt |})
                        (Some (http.errStatusCode 503)).
Proof.
  pose proof (MoreHTTPFacts.TransportOptionErrorCodes_accumulate tt [[500]; [503]]
                (fixtureTransport 503) tt world0) as H.
  simpl map in H. rewrite H; [|discriminate].
  vm_compute. reflexivity.
Defined.

(** The option given between a name and a reduction. *)
Lemma OptionLatencyMinimumPoints_is_ignored_witness :
  CapacityLatency_Usage slidingWindow tw_clock
    (NewCapacityLatency (fun _ => 0) Second
       [OptionLatencyName "latency"; OptionLatencyMinimumPoints 10;
        OptionLatencyReduction (fun _ => Second)]) world0 = Some f32_one.
Proof.
  destruct (@OptionLatencyMinimumPoints_is_ignored unit TestWorld (fun _ => 0)
              slidingWindow tw_clock Second
              [OptionLatencyName "latency"] [OptionLatencyReduction (fun _ => Second)] 10)
    as [Hd Hu].
  - constructor; [|constructor]. unfold is_latency_option. do 6 right. eexists. reflexivity.
  - constructor; [|constructor]. unfold is_latency_option. left. eexists. reflexivity.
  - cbv zeta in Hd. destruct (Hu _ _ Hd) as [H _]. simpl app in H. rewrite H.
    vm_compute. reflexivity.
Defined.

End MoreInstances.
